(** * Effectiveness-NTU heat-exchanger calculations of [ht/hx.py]

    A shallow embedding of the effectiveness/NTU part of [ht/hx.py]
    ([effectiveness_from_NTU], [NTU_from_effectiveness], the capacity-rate
    helpers, [effectiveness_NTU_method], [temperature_effectiveness_TEMA_J]
    and [temperature_effectiveness_TEMA_H]) and the properties established
    about it.

    Numbers.  Python floats are modelled by the real numbers of the
    Standard Library: arithmetic is exact.  Rounding, overflow of
    [math.exp], infinities and NaN are outside the model.  What is kept is
    the control flow and every place where Python arithmetic raises on
    exact values: division by zero, [math.log] of a non-positive number,
    zero raised to a negative power, a negative base raised to a
    non-integral power.

    Failures.  Every function returns a [result]: [Ok v] for a returned
    value, [Raise e] for an exception that leaves the function.

    The other functions of the file that are embedded
    ([temperature_effectiveness_basic], [F_LMTD_Fakheri],
    [check_tubing_TEMA], [get_tube_TEMA], [DBundle_min], [shell_clearance],
    [baffle_thickness], [D_baffle_holes], [L_unsupported_max],
    [Ntubes_Perrys], [Ntubes_VDI], [Ntubes_HEDH] and [D_for_Ntubes_VDI])
    raise exceptions with messages of their own and return an [outcome],
    which keeps the message.  [Ntubes_Phadkeb] and [Ntubes], which rest on
    the interpolation tables of [scipy.interpolate.interp1d], are not
    embedded. *)

From Stdlib Require Import Reals Lra Lia ZArith Bool List.
From Stdlib Require Import Ascii String.
From Stdlib Require Import R_Ifp.
From Stdlib Require Import DecimalString DecimalNat.
From Stdlib Require ClassicalEpsilon.

Local Open Scope R_scope.

(** ** Exceptions *)

(** The source raises the built-in [Exception] with a message; the
    constructors below stand for the messages, named as the specification
    names the failures.  The remaining constructors are the exceptions the
    Python runtime itself raises. *)
Inductive exn : Type :=
| InvalidInput
    (* 'Heat capacity rate must be less than 1 by definition.' *)
| UnknownConfiguration
    (* 'Input heat exchanger type not recognized' *)
| EffectivenessUnattainable (max_effectiveness : R)
    (* 'The specified effectiveness is not physically possible for this
       configuration; the maximum effectiveness possible is %s.' *)
| InsufficientInput
    (* 'One set of (Tci, Thi), (Tci, Tho), (Tco, Thi), or (Tco, Tho) are
       required along with UA.' and 'At least one temperature is required
       to be specified on the cold side.' *)
| InconsistentInput
    (* 'The specified heat capacities, mass flows, and temperatures are
       inconsistent' *)
| UnsupportedPassCount
    (* 'Supported numbers of tube passes are 1, 2, and 4.' and 'Number of
       tube passes exceeds available correlation data' *)
| ZeroDivisionError
| ValueError
| TypeError
| UnboundLocalError
| ComplexPower
    (* a negative base raised to a non-integral power: ValueError on
       Python 2; on Python 3 the value is complex and the next [math] call
       or comparison raises TypeError.  The model stops at the power. *)
| ReturnedNone.
    (* control reached the end of a function without a [return] *)

Inductive result (A : Type) : Type :=
| Ok (a : A)
| Raise (e : exn).

Arguments Ok {A} a.
Arguments Raise {A} e.

Definition bind {A B : Type} (m : result A) (k : A -> result B) : result B :=
  match m with
  | Ok a => k a
  | Raise e => Raise e
  end.

Notation "x <- m ;; k" := (bind m (fun x => k))
  (at level 61, m at next level, right associativity).

(** ** Python arithmetic *)

Module Py.

(** [x / y] on floats. *)
Definition div (x y : R) : result R :=
  if Req_dec_T y 0 then Raise ZeroDivisionError else Ok (x / y).

(** [math.log(x)]. *)
Definition log (x : R) : result R :=
  if Rlt_dec 0 x then Ok (ln x) else Raise ValueError.

(** [math.sqrt(x)]. *)
Definition sqrt (x : R) : result R :=
  if Rle_dec 0 x then Ok (R_sqrt.sqrt x) else Raise ValueError.

(** [x ** k] for an integer [k]. *)
Definition pow_int (x : R) (k : Z) : result R :=
  if Req_dec_T x 0 then
    if (k <? 0)%Z then Raise ZeroDivisionError else Ok (powerRZ x k)
  else Ok (powerRZ x k).

(** [x ** y] for a float [y]. *)
Definition pow (x y : R) : result R :=
  if Rlt_dec 0 x then Ok (Rpower x y)
  else if Req_dec_T x 0 then
    if Rlt_dec y 0 then Raise ZeroDivisionError
    else if Req_dec_T y 0 then Ok 1 else Ok 0
  else
    if Req_dec_T (frac_part y) 0 then Ok (powerRZ x (Int_part y))
    else Raise ComplexPower.

(** Truth value of an optional float: [None] and zero are false. *)
Definition truthy (t : option R) : bool :=
  match t with
  | Some x => if Req_dec_T x 0 then false else true
  | None => false
  end.

(** A local variable that may not have been assigned yet. *)
Definition load (v : option R) : result R :=
  match v with
  | Some x => Ok x
  | None => Raise UnboundLocalError
  end.

(** An operand of float arithmetic that may be [None]. *)
Definition num (v : option R) : result R :=
  match v with
  | Some x => Ok x
  | None => Raise TypeError
  end.

(** [sub in s]. *)
Definition contains (sub s : string) : bool :=
  match index 0 sub s with
  | Some _ => true
  | None => false
  end.

(** [s.split(sub)[0]]: the text before the first occurrence of [sub]. *)
Definition split_head (sub s : string) : string :=
  match index 0 sub s with
  | Some i => substring 0 i s
  | None => s
  end.

Definition is_digit (c : ascii) : bool :=
  ((48 <=? nat_of_ascii c) && (nat_of_ascii c <=? 57))%nat.

Definition is_space (c : ascii) : bool :=
  ((nat_of_ascii c =? 32) || ((9 <=? nat_of_ascii c) && (nat_of_ascii c <=? 13)))%nat.

Fixpoint lstrip (s : string) : string :=
  match s with
  | String c s' => if is_space c then lstrip s' else s
  | EmptyString => EmptyString
  end.

Fixpoint rev_acc (s acc : string) : string :=
  match s with
  | String c s' => rev_acc s' (String c acc)
  | EmptyString => acc
  end.

Definition strip (s : string) : string :=
  rev_acc (lstrip (rev_acc (lstrip s) EmptyString)) EmptyString.

Fixpoint digits (acc : Z) (s : string) : option Z :=
  match s with
  | String c s' =>
      if is_digit c
      then digits (10 * acc + Z.of_nat (nat_of_ascii c - 48)) s'
      else None
  | EmptyString => Some acc
  end.

Definition unsigned (s : string) : result Z :=
  match s with
  | EmptyString => Raise ValueError
  | _ => match digits 0 s with
         | Some z => Ok z
         | None => Raise ValueError
         end
  end.

(** [int(s)] for a string: surrounding white space, an optional sign and
    ASCII decimal digits.  Digit-group underscores (Python 3.6 and later)
    and non-ASCII digits are not modelled and count as malformed. *)
Definition int (s : string) : result Z :=
  match strip s with
  | String "-"%char s' => z <- unsigned s' ;; Ok (- z)%Z
  | String "+"%char s' => unsigned s'
  | s' => unsigned s'
  end.

End Py.

(** ** The correlation library *)

(** Conventions of the embedding.  A sub-expression the source writes out
    several times in one statement (such as [(1. + Cr**2)**.5]) is bound
    once: it is pure, so every evaluation has the same outcome.  A division
    by a non-zero literal cannot raise and is written with the division of
    the reals.  Everything else that can raise goes through [Py], in
    Python's evaluation order. *)

(** Lines 267-268 and 476-477:
    [str_shells = subtype.split('S&T')[0]] and
    [shells = int(str_shells) if str_shells else 1]. *)
Definition shell_count (subtype : string) : result Z :=
  let str_shells := Py.split_head "S&T" subtype in
  if (str_shells =? "")%string then Ok 1%Z else Py.int str_shells.

(** Lines 269-277: the shell-and-tube branch of [effectiveness_from_NTU]
    once the number of shells is known. *)
Definition shell_and_tube_effectiveness (NTU Cr : R) (shells : Z) : result R :=
  NTU <- Py.div NTU (IZR shells) ;;
  s <- Py.pow (1 + Cr ^ 2) 0.5 ;;
  let top := 1 + exp (- NTU * s) in
  let bottom := 1 - exp (- NTU * s) in
  r <- Py.div (s * top) bottom ;;
  effectiveness <- Py.div 2 (1 + Cr + r) ;;
  if (1 <? shells)%Z then
    b <- Py.div (1 - effectiveness * Cr) (1 - effectiveness) ;;
    term <- Py.pow_int b shells ;;
    Py.div (term - 1) (term - Cr)
  else Ok effectiveness.

(** [effectiveness_from_NTU(NTU, Cr, subtype)], lines 256-288. *)
Definition effectiveness_from_NTU (NTU Cr : R) (subtype : string) : result R :=
  if Rgt_dec Cr 1 then Raise InvalidInput
  else if (subtype =? "counterflow")%string then
    if Rlt_dec Cr 1 then
      Py.div (1 - exp (- NTU * (1 - Cr))) (1 - Cr * exp (- NTU * (1 - Cr)))
    else if Req_dec_T Cr 1 then Py.div NTU (1 + NTU)
    else Raise ReturnedNone
  else if (subtype =? "parallel")%string then
    Py.div (1 - exp (- NTU * (1 + Cr))) (1 + Cr)
  else if Py.contains "S&T" subtype then
    shells <- shell_count subtype ;;
    shell_and_tube_effectiveness NTU Cr shells
  else if (subtype =? "crossflow")%string then
    a <- Py.div 1 Cr ;;
    p <- Py.pow NTU 0.22 ;;
    q <- Py.pow NTU 0.78 ;;
    Ok (1 - exp (a * p * (exp (- Cr * q) - 1)))
  else if (subtype =? "crossflow, mixed Cmin")%string then
    i <- Py.pow_int Cr (-1) ;;
    Ok (1 - exp (- i * (1 - exp (- Cr * NTU))))
  else if (subtype =? "crossflow, mixed Cmax")%string then
    a <- Py.div 1 Cr ;;
    Ok (a * (1 - exp (- Cr * (1 - exp (- NTU)))))
  else if ((subtype =? "boiler") || (subtype =? "condenser"))%string then
    Ok (1 - exp (- NTU))
  else Raise UnknownConfiguration.

(** Lines 479-490: the shell-and-tube branch of [NTU_from_effectiveness]
    once the number of shells is known. *)
Definition shell_and_tube_NTU (effectiveness Cr : R) (shells : Z) : result R :=
  b <- Py.div (effectiveness * Cr - 1) (effectiveness - 1) ;;
  e <- Py.div 1 (IZR shells) ;;
  F <- Py.pow b e ;;
  e1 <- Py.div (F - 1) (F - Cr) ;;
  t <- Py.div 2 e1 ;;
  s <- Py.pow (1 + Cr ^ 2) 0.5 ;;
  E <- Py.div (t - (1 + Cr)) s ;;
  g <- Py.div (E - 1) (E + 1) ;;
  if Rle_dec g 0 then
    sq <- Py.sqrt (Cr ^ 2 + 1) ;;
    x <- Py.div (- Cr + sq + 1) (Cr + sq - 1) ;;
    m <- Py.pow_int x shells ;;
    max_effectiveness <- Py.div (- m + 1) (Cr - m) ;;
    Raise (EffectivenessUnattainable max_effectiveness)
  else
    p <- Py.pow (1 + Cr ^ 2) (-0.5) ;;
    l <- Py.log g ;;
    Ok (IZR shells * (- p * l)).

Section Solver.

(** [scipy.optimize.ridder(f, a=..., b=...)], the bracketing root finder the
    crossflow inverse delegates to.  It is not part of the repository and
    is taken as a parameter. *)
Variable ridder : (R -> result R) -> R -> R -> result R.

(** The residual [to_solve(NTU, Cr, effectiveness)] of lines 499-500. *)
Definition to_solve (NTU Cr effectiveness : R) : result R :=
  a <- Py.div 1 Cr ;;
  p <- Py.pow NTU 0.22 ;;
  q <- Py.pow NTU 0.78 ;;
  Ok ((1 - exp (a * p * (exp (- Cr * q) - 1))) - effectiveness).

(** [NTU_from_effectiveness(effectiveness, Cr, subtype)], lines 455-518. *)
Definition NTU_from_effectiveness (effectiveness Cr : R) (subtype : string)
  : result R :=
  if Rgt_dec Cr 1 then Raise InvalidInput
  else if (subtype =? "counterflow")%string then
    if Rlt_dec Cr 1 then
      a <- Py.div 1 (Cr - 1) ;;
      b <- Py.div (effectiveness - 1) (effectiveness * Cr - 1) ;;
      l <- Py.log b ;;
      Ok (a * l)
    else if Req_dec_T Cr 1 then Py.div effectiveness (1 - effectiveness)
    else Raise ReturnedNone
  else if (subtype =? "parallel")%string then
    if Rgt_dec (effectiveness * (1 + Cr)) 1 then
      m <- Py.div 1 (Cr + 1) ;;
      Raise (EffectivenessUnattainable m)
    else
      l <- Py.log (1 - effectiveness * (1 + Cr)) ;;
      Py.div (- l) (1 + Cr)
  else if Py.contains "S&T" subtype then
    shells <- shell_count subtype ;;
    shell_and_tube_NTU effectiveness Cr shells
  else if (subtype =? "crossflow")%string then
    ridder (fun NTU => to_solve NTU Cr effectiveness) 1e-7 1e5
  else if (subtype =? "crossflow, mixed Cmin")%string then
    l <- Py.log (1 - effectiveness) ;;
    if Rlt_dec (Cr * l) (-1) then
      a <- Py.div (-1) Cr ;;
      Raise (EffectivenessUnattainable (1 - exp a))
    else
      a <- Py.div (-1) Cr ;;
      l' <- Py.log (Cr * l + 1) ;;
      Ok (a * l')
  else if (subtype =? "crossflow, mixed Cmax")%string then
    a <- Py.div 1 Cr ;;
    l <- Py.log (1 - effectiveness * Cr) ;;
    if Rlt_dec (a * l) (-1) then
      m <- Py.div ((exp Cr - 1) * exp (- Cr)) Cr ;;
      Raise (EffectivenessUnattainable m)
    else
      l' <- Py.log (1 + a * l) ;;
      Ok (- l')
  else if ((subtype =? "boiler") || (subtype =? "condenser"))%string then
    l <- Py.log (1 - effectiveness) ;;
    Ok (- l)
  else Raise UnknownConfiguration.

End Solver.

(** ** Capacity rates *)

(** [calc_Cmin], lines 566-568. *)
Definition calc_Cmin (mh mc Cph Cpc : R) : R :=
  let Ch := mh * Cph in
  let Cc := mc * Cpc in
  Rmin Ch Cc.

(** [calc_Cmax], lines 616-618. *)
Definition calc_Cmax (mh mc Cph Cpc : R) : R :=
  let Ch := mh * Cph in
  let Cc := mc * Cpc in
  Rmax Ch Cc.

(** [calc_Cr], lines 663-667. *)
Definition calc_Cr (mh mc Cph Cpc : R) : result R :=
  let Ch := mh * Cph in
  let Cc := mc * Cpc in
  let Cmin := Rmin Ch Cc in
  let Cmax := Rmax Ch Cc in
  Py.div Cmin Cmax.

(** [NTU_from_UA], line 704. *)
Definition NTU_from_UA (UA Cmin : R) : result R := Py.div UA Cmin.

(** [UA_from_NTU], line 741. *)
Definition UA_from_NTU (NTU Cmin : R) : R := NTU * Cmin.

(** ** The heat-balance solver *)

(** The dictionary [effectiveness_NTU_method] returns, one field per key. *)
Module Solved.
Record t : Type := mk {
  Q : R; UA : R; Cr : R; Cmin : R; Cmax : R;
  effectiveness : R; NTU : R;
  Thi : R; Tho : R; Tci : R; Tco : R
}.
End Solved.

Definition is_some (t : option R) : bool :=
  match t with Some _ => true | None => false end.

(** The local variables [Q], [Thi], [Tho], [Tci], [Tco] when the branches
    of the solve-for-UA mode join at line 904; [Q] is [None] while it is
    unbound. *)
Module Locals.
Record t : Type := mk {
  Q : option R; Thi : option R; Tho : option R;
  Tci : option R; Tco : option R
}.
End Locals.

Section Method.

Variable ridder : (R -> result R) -> R -> R -> result R.

(** Lines 855-862: the duty [Q] from the pair of temperatures that passes
    the truth test; [Ok None] when no branch assigns [Q]. *)
Definition duty_from_UA (eff Cmin Cc Ch : R) (Thi Tho Tci Tco : option R)
  : result (option R) :=
  if Py.truthy Thi && Py.truthy Tci then
    thi <- Py.num Thi ;; tci <- Py.num Tci ;;
    Ok (Some (eff * Cmin * (thi - tci)))
  else if Py.truthy Tho && Py.truthy Tco then
    tco <- Py.num Tco ;; tho <- Py.num Tho ;;
    q <- Py.div (eff * Cmin * Cc * Ch * (tco - tho))
                (eff * Cmin * (Cc + Ch) - Ch * Cc) ;;
    Ok (Some q)
  else if Py.truthy Thi && Py.truthy Tco then
    tco <- Py.num Tco ;; thi <- Py.num Thi ;;
    q <- Py.div (Cmin * Cc * eff * (tco - thi)) (eff * Cmin - Cc) ;;
    Ok (Some q)
  else if Py.truthy Tho && Py.truthy Tci then
    tci <- Py.num Tci ;; tho <- Py.num Tho ;;
    q <- Py.div (Cmin * Ch * eff * (tci - tho)) (eff * Cmin - Ch) ;;
    Ok (Some q)
  else Ok None.

(** Lines 882-902: the solve-for-UA mode up to the join. *)
Definition temperatures_without_UA (mh mc Cph Cpc : R)
    (Thi Tho Tci Tco : option R) : result Locals.t :=
  match Thi, Tho with
  | Some thi, Some tho =>
      let Q := mh * Cph * (thi - tho) in
      match Tci, Tco with
      | Some tci, None =>
          d <- Py.div Q (mc * Cpc) ;;
          Ok (Locals.mk (Some Q) Thi Tho Tci (Some (tci + d)))
      | None, Some tco =>
          d <- Py.div Q (mc * Cpc) ;;
          Ok (Locals.mk (Some Q) Thi Tho (Some (tco - d)) Tco)
      | Some tci, Some tco =>
          let Q2 := mc * Cpc * (tco - tci) in
          r <- Py.div (Q - Q2) Q ;;
          if Rgt_dec (Rabs r) 0.01 then Raise InconsistentInput
          else Ok (Locals.mk (Some Q) Thi Tho Tci Tco)
      | None, None => Raise InsufficientInput
      end
  | _, _ =>
      match Tci, Tco with
      | Some tci, Some tco =>
          let Q := mc * Cpc * (tco - tci) in
          match Thi, Tho with
          | Some thi, None =>
              d <- Py.div Q (mh * Cph) ;;
              Ok (Locals.mk (Some Q) Thi (Some (thi - d)) Tci Tco)
          | None, Some tho =>
              d <- Py.div Q (mh * Cph) ;;
              Ok (Locals.mk (Some Q) (Some (tho + d)) Tho Tci Tco)
          | _, _ => Raise InsufficientInput
          end
      | _, _ => Ok (Locals.mk None Thi Tho Tci Tco)
      end
  end.

(** Lines 904-909: effectiveness, NTU and UA from the duty and the four
    temperatures, and the returned dictionary. *)
Definition finish_without_UA (Cr Cmin Cmax : R) (subtype : string)
    (l : Locals.t) : result Solved.t :=
  q <- Py.load (Locals.Q l) ;;
  a <- Py.div q Cmin ;;
  thi <- Py.num (Locals.Thi l) ;;
  tci <- Py.num (Locals.Tci l) ;;
  effectiveness <- Py.div a (thi - tci) ;;
  NTU <- NTU_from_effectiveness ridder effectiveness Cr subtype ;;
  let UA := UA_from_NTU NTU Cmin in
  tho <- Py.num (Locals.Tho l) ;;
  tco <- Py.num (Locals.Tco l) ;;
  Ok (Solved.mk q UA Cr Cmin Cmax effectiveness NTU thi tho tci tco).

(** Lines 869-876: the two remaining temperatures from [Q], after which
    the dictionary is returned. *)
Definition finish_with_UA (UA Cr Cmin Cmax eff NTU Cc Ch : R)
    (Q Thi Tho Tci Tco : option R) : result Solved.t :=
  cold <- (if Py.truthy Tci && negb (Py.truthy Tco) then
             q <- Py.load Q ;; d <- Py.div q Cc ;; tci <- Py.num Tci ;;
             Ok (tci, tci + d)
           else
             q <- Py.load Q ;; d <- Py.div q Cc ;; tco <- Py.num Tco ;;
             Ok (tco - d, tco)) ;;
  hot <- (if Py.truthy Thi && negb (Py.truthy Tho) then
            q <- Py.load Q ;; d <- Py.div q Ch ;; thi <- Py.num Thi ;;
            Ok (thi, thi - d)
          else
            q <- Py.load Q ;; d <- Py.div q Ch ;; tho <- Py.num Tho ;;
            Ok (tho + d, tho)) ;;
  q <- Py.load Q ;;
  Ok (Solved.mk q UA Cr Cmin Cmax eff NTU
        (fst hot) (snd hot) (fst cold) (snd cold)).

(** [effectiveness_NTU_method], lines 842-909. *)
Definition effectiveness_NTU_method (mh mc Cph Cpc : R) (subtype : string)
    (Thi Tho Tci Tco UA : option R) : result Solved.t :=
  let Cmin := calc_Cmin mh mc Cph Cpc in
  let Cmax := calc_Cmax mh mc Cph Cpc in
  Cr <- calc_Cr mh mc Cph Cpc ;;
  let Cc := mc * Cpc in
  let Ch := mh * Cph in
  match UA with
  | Some UA =>
      NTU <- NTU_from_UA UA Cmin ;;
      eff <- effectiveness_from_NTU NTU Cr subtype ;;
      let possible_inputs :=
        (Tci, Thi) :: (Tci, Tho) :: (Tco, Thi) :: (Tco, Tho) :: nil in
      if negb (existsb (fun i => is_some (fst i) && is_some (snd i))
                       possible_inputs)
      then Raise InsufficientInput
      else
        Q <- duty_from_UA eff Cmin Cc Ch Thi Tho Tci Tco ;;
        finish_with_UA UA Cr Cmin Cmax eff NTU Cc Ch Q Thi Tho Tci Tco
  | None =>
      l <- temperatures_without_UA mh mc Cph Cpc Thi Tho Tci Tco ;;
      finish_without_UA Cr Cmin Cmax subtype l
  end.

End Method.

(** ** P-NTU correlations of TEMA J and TEMA H shells *)

(** [temperature_effectiveness_TEMA_J(R1, NTU1, Ntp)], lines 1119-1143. *)
Definition temperature_effectiveness_TEMA_J (R1 NTU1 : R) (Ntp : Z) : result R :=
  if (Ntp =? 1)%Z then
    let A := exp NTU1 in
    let B := exp (- NTU1 * R1 / 2) in
    if Req_dec_T R1 2 then
      a2 <- Py.pow_int A (-2) ;;
      y <- Py.div ((1 + a2) / 2) (1 + NTU1) ;;
      Ok (0.5 * (1 - y))
    else
      a <- Py.div 1 R1 ;;
      n <- Py.div ((2 - R1) * (2 * A + R1 * B)) (2 + R1) ;;
      rb <- Py.div R1 B ;;
      n' <- Py.div n (2 * A - rb) ;;
      Ok (a * (1 - n'))
  else if (Ntp =? 2)%Z then
    lambda1 <- Py.pow (1 + R1 ^ 2 / 4) 0.5 ;;
    let A := exp NTU1 in
    p1 <- Py.pow A ((lambda1 - 1) / 2) ;;
    pl <- Py.pow A lambda1 ;;
    d <- Py.div (lambda1 * p1) (pl - 1) ;;
    let D := 1 + d in
    p2 <- Py.pow A ((1 + lambda1) / 2) ;;
    C <- Py.div p2 (lambda1 - 1 + (1 + lambda1) * pl) ;;
    B <- Py.div (pl + 1) (pl - 1) ;;
    Py.div 1 (1 + R1 / 2 + lambda1 * B - 2 * lambda1 * C * D)
  else if (Ntp =? 4)%Z then
    lambda1 <- Py.pow (1 + R1 ^ 2 / 16) 0.5 ;;
    let E := exp (R1 * NTU1 / 2) in
    let A := exp NTU1 in
    p1 <- Py.pow A ((lambda1 - 1) / 2) ;;
    pl <- Py.pow A lambda1 ;;
    d <- Py.div (lambda1 * p1) (pl - 1) ;;
    let D := 1 + d in
    p2 <- Py.pow A ((1 + lambda1) / 2) ;;
    C <- Py.div p2 (lambda1 - 1 + (1 + lambda1) * pl) ;;
    B <- Py.div (pl + 1) (pl - 1) ;;
    e <- Py.div (R1 / 4 * (1 + 3 * E)) (1 + E) ;;
    Py.div 1 (1 + e + lambda1 * B - 2 * lambda1 * C * D)
  else Raise UnsupportedPassCount.

(** [temperature_effectiveness_TEMA_H(R1, NTU1, Ntp, optimal)],
    lines 1249-1294. *)
Definition temperature_effectiveness_TEMA_H (R1 NTU1 : R) (Ntp : Z)
    (optimal : bool) : result R :=
  if (Ntp =? 1)%Z then
    a <- Py.div 1 (1 + R1 / 2) ;;
    let A := a * (1 - exp (- NTU1 * (1 + R1 / 2) / 2)) in
    let D := exp (- NTU1 * (1 - R1 / 2) / 2) in
    B <- (if Req_dec_T R1 2 then Py.div NTU1 (2 + NTU1)
          else Py.div (1 - D) (1 - R1 * D / 2)) ;;
    let E := (A + B - A * B * R1 / 2) / 2 in
    Ok (E * (1 + (1 - B * R1 / 2) * (1 - A * R1 / 2 + A * B * R1))
        - A * B * (1 - B * R1 / 2))
  else if (Ntp =? 2)%Z && optimal then
    let alpha := NTU1 * (4 + R1) / 8 in
    let beta := NTU1 * (4 - R1) / 8 in
    r <- Py.div 4 R1 ;;
    D <- Py.div (1 - exp (- alpha)) (r + 1) ;;
    EH <- (if Req_dec_T R1 4 then Ok (NTU1 / 2, NTU1)
           else
             E <- Py.div (1 - exp (- beta)) (r - 1) ;;
             H <- Py.div (1 - exp (- 2 * beta)) (r - 1) ;;
             Ok (E, H)) ;;
    let E := fst EH in
    let H := snd EH in
    let G := (1 - D) ^ 2 * (D ^ 2 + E ^ 2) + D ^ 2 * (1 + E) ^ 2 in
    let B := (1 + H) * (1 + E) ^ 2 in
    a <- Py.div 1 R1 ;;
    g <- Py.div (4 * G) R1 ;;
    f <- Py.div ((1 - D) ^ 4) (B - g) ;;
    Ok (a * (1 - f))
  else if (Ntp =? 2)%Z && negb optimal then
    let R1_orig := R1 in
    let NTU1 := NTU1 * R1_orig in
    R1 <- Py.div 1 R1_orig ;;
    let beta := NTU1 * (4 * R1 + 1) / 8 in
    let alpha := NTU1 / 8 * (4 * R1 - 1) in
    H <- Py.div (exp (- 2 * beta) - 1) (4 * R1 + 1) ;;
    E <- Py.div (exp (- beta) - 1) (4 * R1 + 1) ;;
    let B := (1 + H) * (1 + E) ^ 2 in
    D <- (if Req_dec_T R1 0.25 then Ok (- NTU1 / 8)
          else Py.div (1 - exp (- alpha)) (1 - 4 * R1)) ;;
    let G := (1 - D) ^ 2 * (D ^ 2 + E ^ 2) + D ^ 2 * (1 + E) ^ 2 in
    f <- Py.div (B + 4 * G * R1) ((1 - D) ^ 4) ;;
    Py.div (1 - f) R1_orig
  else Raise UnsupportedPassCount.

(** ** The documented closed forms *)

(** The closed forms of the P-NTU correlations as the docstrings of
    [temperature_effectiveness_TEMA_J] and [temperature_effectiveness_TEMA_H]
    print them, over the reals with total division; at the singular ratios
    ([R1 = 2], [R1 = 4], [R2 = 1/4]) the limiting expressions.  They are
    what the results of the embedded functions are compared with. *)
Definition TEMA_J_closed_form (R1 NTU1 : R) (Ntp : Z) : R :=
  let A := exp NTU1 in
  if (Ntp =? 1)%Z then
    let B := exp (- NTU1 * R1 / 2) in
    if Req_dec_T R1 2
    then 0.5 * (1 - (1 + / (A * A)) / (2 * (1 + NTU1)))
    else 1 / R1 * (1 - (2 - R1) * (2 * A + R1 * B)
                       / ((2 + R1) * (2 * A - R1 / B)))
  else
    let lambda1 :=
      if (Ntp =? 2)%Z then sqrt (1 + R1 ^ 2 / 4) else sqrt (1 + R1 ^ 2 / 16) in
    let B := (Rpower A lambda1 + 1) / (Rpower A lambda1 - 1) in
    let C := Rpower A ((1 + lambda1) / 2)
             / (lambda1 - 1 + (1 + lambda1) * Rpower A lambda1) in
    let D := 1 + lambda1 * Rpower A ((lambda1 - 1) / 2)
                 / (Rpower A lambda1 - 1) in
    if (Ntp =? 2)%Z
    then / (1 + R1 / 2 + lambda1 * B - 2 * lambda1 * C * D)
    else
      let E := exp (R1 * NTU1 / 2) in
      / (1 + R1 / 4 * ((1 + 3 * E) / (1 + E)) + lambda1 * B
         - 2 * lambda1 * C * D).

Definition TEMA_H_closed_form (R1 NTU1 : R) (Ntp : Z) (optimal : bool) : R :=
  if (Ntp =? 1)%Z then
    let A := / (1 + R1 / 2) * (1 - exp (- NTU1 * (1 + R1 / 2) / 2)) in
    let D := exp (- NTU1 * (1 - R1 / 2) / 2) in
    let B := if Req_dec_T R1 2 then NTU1 / (2 + NTU1)
             else (1 - D) / (1 - R1 * D / 2) in
    let E := (A + B - A * B * R1 / 2) / 2 in
    E * (1 + (1 - B * R1 / 2) * (1 - A * R1 / 2 + A * B * R1))
    - A * B * (1 - B * R1 / 2)
  else if optimal then
    let alpha := NTU1 * (4 + R1) / 8 in
    let beta := NTU1 * (4 - R1) / 8 in
    let D := (1 - exp (- alpha)) / (4 / R1 + 1) in
    let E := if Req_dec_T R1 4 then NTU1 / 2
             else (1 - exp (- beta)) / (4 / R1 - 1) in
    let H := if Req_dec_T R1 4 then NTU1
             else (1 - exp (- 2 * beta)) / (4 / R1 - 1) in
    let G := (1 - D) ^ 2 * (D ^ 2 + E ^ 2) + D ^ 2 * (1 + E) ^ 2 in
    let B := (1 + H) * (1 + E) ^ 2 in
    / R1 * (1 - (1 - D) ^ 4 / (B - 4 * G / R1))
  else
    let NTU2 := NTU1 * R1 in
    let R2 := / R1 in
    let alpha := NTU2 / 8 * (4 * R2 - 1) in
    let beta := NTU2 / 8 * (4 * R2 + 1) in
    let H := (exp (- 2 * beta) - 1) / (4 * R2 + 1) in
    let E := (exp (- beta) - 1) / (4 * R2 + 1) in
    let D := if Req_dec_T R2 0.25 then - NTU2 / 8
             else (1 - exp (- alpha)) / (1 - 4 * R2) in
    let G := (1 - D) ^ 2 * (D ^ 2 + E ^ 2) + D ^ 2 * (1 + E) ^ 2 in
    let B := (1 + H) * (1 + E) ^ 2 in
    (1 - (B + 4 * G * R2) / (1 - D) ^ 4) / R1.

(** ** Configurations in statements *)

(** [subtype] belongs to the shell-and-tube family and both correlation
    functions read the shell count [shells] from it. *)
Definition shell_and_tube (subtype : string) (shells : Z) : Prop :=
  Py.contains "S&T" subtype = true /\ shell_count subtype = Ok shells.

(** The configuration string of [n] shells in series: the decimal digits
    of [n] followed by ['S&T']. *)
Definition shells_tag (n : nat) : string :=
  (NilEmpty.string_of_uint (Nat.to_uint n) ++ "S&T")%string.

(** No character of [s] is white space. *)
Fixpoint solid (s : string) : bool :=
  match s with
  | String c s' => negb (Py.is_space c) && solid s'
  | EmptyString => true
  end.

(** The configurations whose formulas contain no division by [Cr] and none
    by [1 - exp(-NTU ...)]. *)
Definition plain_configurations : list string :=
  ("counterflow" :: "parallel" :: "boiler" :: "condenser" :: nil)%string.

(** The three crossflow configurations; their formulas divide by [Cr]. *)
Definition crossflow_configurations : list string :=
  ("crossflow" :: "crossflow, mixed Cmin" :: "crossflow, mixed Cmax" :: nil)%string.

(** ** Maximum effectiveness *)

(** The maximum the shell-and-tube branch of [NTU_from_effectiveness]
    formats into its message (line 485). *)
Definition shell_and_tube_max (Cr : R) (shells : Z) : R :=
  let x := (- Cr + sqrt (Cr ^ 2 + 1) + 1) / (Cr + sqrt (Cr ^ 2 + 1) - 1) in
  (- powerRZ x shells + 1) / (Cr - powerRZ x shells).

(** [guarded_maximum subtype Cr m]: [subtype] is one of the configurations
    whose branch of [NTU_from_effectiveness] has a feasibility test, [Cr]
    lies where that branch is regular, and [m] is the maximum the branch
    formats into its message (lines 468, 485, 506 and 512). *)
Inductive guarded_maximum : string -> R -> R -> Prop :=
| max_parallel (Cr : R) :
    0 < Cr <= 1 ->
    guarded_maximum "parallel" Cr (1 / (Cr + 1))
| max_shell_and_tube (subtype : string) (shells : Z) (Cr : R) :
    shell_and_tube subtype shells -> (1 <= shells)%Z -> 0 < Cr < 1 ->
    guarded_maximum subtype Cr (shell_and_tube_max Cr shells)
| max_mixed_Cmin (Cr : R) :
    0 < Cr <= 1 ->
    guarded_maximum "crossflow, mixed Cmin" Cr (1 - exp (-1 / Cr))
| max_mixed_Cmax (Cr : R) :
    0 < Cr <= 1 ->
    guarded_maximum "crossflow, mixed Cmax" Cr ((exp Cr - 1) * exp (- Cr) / Cr).

(** ** Round trip *)

(** The effectiveness of [NTU] fed back to the inverse function. *)
Definition round_trip (ridder : (R -> result R) -> R -> R -> result R)
    (NTU Cr : R) (subtype : string) : result R :=
  effectiveness <- effectiveness_from_NTU NTU Cr subtype ;;
  NTU_from_effectiveness ridder effectiveness Cr subtype.

(** [regular_point subtype Cr NTU]: a configuration with a closed-form
    inverse, at a point where neither direction divides by zero. *)
Inductive regular_point : string -> R -> R -> Prop :=
| regular_counterflow (Cr NTU : R) :
    0 <= Cr <= 1 -> 0 <= NTU -> regular_point "counterflow" Cr NTU
| regular_parallel (Cr NTU : R) :
    0 <= Cr <= 1 -> 0 <= NTU -> regular_point "parallel" Cr NTU
| regular_shell_and_tube (subtype : string) (shells : Z) (Cr NTU : R) :
    shell_and_tube subtype shells -> (1 <= shells)%Z ->
    0 <= Cr < 1 -> 0 < NTU -> regular_point subtype Cr NTU
| regular_mixed_Cmin (Cr NTU : R) :
    0 < Cr <= 1 -> 0 <= NTU -> regular_point "crossflow, mixed Cmin" Cr NTU
| regular_mixed_Cmax (Cr NTU : R) :
    0 < Cr <= 1 -> 0 <= NTU -> regular_point "crossflow, mixed Cmax" Cr NTU
| regular_boiler (Cr NTU : R) :
    Cr <= 1 -> regular_point "boiler" Cr NTU
| regular_condenser (Cr NTU : R) :
    Cr <= 1 -> regular_point "condenser" Cr NTU.

(** ** Worked examples *)

(** Unit capacity rates, counterflow, [UA = 1], inlets at 100 and 50: the
    solver's dictionary (keys in the order of [Solved.mk]). *)
Definition rated_example : Solved.t :=
  Solved.mk 25 1 1 1 1 (1 / 2) 1 100 75 50 75.

(** Unit capacity rates, counterflow, no [UA], all four temperatures
    given with a hot duty of 50 and a cold duty of 49.8. *)
Definition cross_checked_example : Solved.t :=
  Solved.mk 50 1 1 1 1 (1 / 2) 1 100 50 0 49.8.

(** A root finder for statements about configurations that never reach
    it. *)
Definition ridder_unused (f : R -> result R) (a b : R) : result R :=
  Raise ValueError.



(** Unit capacity rates, counterflow, no [UA], all four temperatures given
    with equal hot-side temperatures. *)
Definition equal_hot_temperatures_call : result Solved.t :=
  effectiveness_NTU_method ridder_unused 1 1 1 1 "counterflow"
    (Some 100) (Some 100) (Some 0) (Some 50) None.

(** ** Exceptions that carry their message *)

(** The functions below raise [Exception] with messages of their own; the
    message is kept as the source writes it.  [KeyError] and [IndexError]
    are raised by subscripts, [RecursionError] by a function that keeps
    calling itself; [Builtin] embeds the exceptions of [exn]. *)
Inductive failure : Type :=
| Exception (message : string)
| KeyError
| IndexError
| RecursionError
| Builtin (e : exn).

Inductive outcome (A : Type) : Type :=
| Returns (a : A)
| Throws (f : failure).

Arguments Returns {A} a.
Arguments Throws {A} f.

Definition and_then {A B : Type} (m : outcome A) (k : A -> outcome B)
  : outcome B :=
  match m with
  | Returns a => k a
  | Throws f => Throws f
  end.

Notation "x <~ m ;; k" := (and_then m (fun x => k))
  (at level 61, m at next level, right associativity).

(** A computation of the effectiveness-NTU part, run inside a function of
    this part. *)
Definition lift {A : Type} (m : result A) : outcome A :=
  match m with
  | Ok a => Returns a
  | Raise e => Throws (Builtin e)
  end.

(** ** Python comparisons, sequences and conversions *)

Module Builtins.

(** [x < y], [x <= y], [x > y] and [x == y] on floats. *)
Definition lt (x y : R) : bool := if Rlt_dec x y then true else false.
Definition le (x y : R) : bool := if Rle_dec x y then true else false.
Definition gt (x y : R) : bool := if Rgt_dec x y then true else false.
Definition eq (x y : R) : bool := if Req_dec_T x y then true else false.

(** [int(x)] for a float: the integer part, rounded towards zero. *)
Definition int (x : R) : Z :=
  if Rle_dec 0 x then Int_part x else (- Int_part (- x))%Z.

(** [x in l] for a list or a tuple of numbers. *)
Definition mem (x : R) (l : list R) : bool := existsb (eq x) l.

(** [l.index(x)]: the first position of [x]; ValueError without one. *)
Fixpoint index (x : R) (l : list R) : outcome nat :=
  match l with
  | nil => Throws (Builtin ValueError)
  | y :: l' => if eq y x then Returns 0%nat
               else i <~ index x l' ;; Returns (S i)
  end.

(** [l[i]] for a position [i] that is not negative. *)
Definition item {A : Type} (l : list A) (i : nat) : outcome A :=
  match nth_error l i with
  | Some a => Returns a
  | None => Throws IndexError
  end.

(** [l.index(x)] for a list of integers. *)
Fixpoint index_int (x : Z) (l : list Z) : outcome nat :=
  match l with
  | nil => Throws (Builtin ValueError)
  | y :: l' => if (y =? x)%Z then Returns 0%nat
               else i <~ index_int x l' ;; Returns (S i)
  end.

(** [l[-1]]. *)
Fixpoint last_item {A : Type} (l : list A) : outcome A :=
  match l with
  | nil => Throws IndexError
  | a :: nil => Returns a
  | _ :: l' => last_item l'
  end.

(** [[f(x) for x in l]]: the first exception ends the comprehension. *)
Fixpoint comprehension {A B : Type} (f : A -> outcome B) (l : list A)
  : outcome (list B) :=
  match l with
  | nil => Returns nil
  | a :: l' => b <~ f a ;; bs <~ comprehension f l' ;; Returns (b :: bs)
  end.

(** Truth value of an optional integer: [None] and zero are false. *)
Definition truthy_int (b : option Z) : bool :=
  match b with
  | Some n => negb (n =? 0)%Z
  | None => false
  end.

End Builtins.

(** ** Temperature effectiveness of the basic arrangements *)

(** [temperature_effectiveness_basic(R1, NTU1, subtype)], lines 1008-1031. *)
Definition temperature_effectiveness_basic (R1 NTU1 : R) (subtype : string)
  : outcome R :=
  if (subtype =? "counterflow")%string then
    lift (Py.div (1 - exp (- NTU1 * (1 - R1)))
                 (1 - R1 * exp (- NTU1 * (1 - R1))))
  else if (subtype =? "parallel")%string then
    lift (Py.div (1 - exp (- NTU1 * (1 + R1))) (1 + R1))
  else if (subtype =? "crossflow")%string then
    lift (p <- Py.pow NTU1 0.22 ;;
          a <- Py.div p R1 ;;
          q <- Py.pow NTU1 0.78 ;;
          Ok (1 - exp (a * (exp (- R1 * q) - 1))))
  else if (subtype =? "crossflow, mixed 1")%string then
    let K := 1 - exp (- R1 * NTU1) in
    lift (a <- Py.div (- K) R1 ;;
          Ok (1 - exp a))
  else if (subtype =? "crossflow, mixed 2")%string then
    let K := 1 - exp (- NTU1) in
    lift (Py.div (1 - exp (- K * R1)) R1)
  else if (subtype =? "crossflow, mixed 1&2")%string then
    let K1 := 1 - exp (- NTU1) in
    let K2 := 1 - exp (- R1 * NTU1) in
    lift (a <- Py.div 1 K1 ;;
          b <- Py.div R1 K2 ;;
          c <- Py.div 1 NTU1 ;;
          Py.pow_int (a + b - c) (-1))
  else Throws (Exception "Subtype not recognized.").

(** The arrangement seen from the other stream: the two one-side-mixed
    crossflow arrangements trade places, the others stay. *)
Definition other_stream (subtype : string) : string :=
  if (subtype =? "crossflow, mixed 1")%string then "crossflow, mixed 2"
  else if (subtype =? "crossflow, mixed 2")%string then "crossflow, mixed 1"
  else subtype.

(** The arrangements whose formulas in [temperature_effectiveness_basic]
    are exact. *)
Definition exact_arrangements : list string :=
  ("counterflow" :: "parallel" :: "crossflow, mixed 1"
   :: "crossflow, mixed 2" :: "crossflow, mixed 1&2" :: nil)%string.

(** The name [effectiveness_from_NTU] has for an arrangement of
    [temperature_effectiveness_basic] when stream 1 is the stream of the
    smaller capacity rate. *)
Definition as_configuration (subtype : string) : string :=
  if (subtype =? "crossflow, mixed 1")%string then "crossflow, mixed Cmin"
  else if (subtype =? "crossflow, mixed 2")%string then "crossflow, mixed Cmax"
  else subtype.

(** ** Correction factor of the log-mean temperature difference *)

(** [F_LMTD_Fakheri(Thi, Tho, Tci, Tco, shells)], lines 1360-1368.  The
    powers of the literal 2 cannot raise and are written with [Rpower]. *)
Definition F_LMTD_Fakheri (Thi Tho Tci Tco : R) (shells : Z) : result R :=
  R <- Py.div (Thi - Tho) (Tco - Tci) ;;
  P <- Py.div (Tco - Tci) (Thi - Tci) ;;
  if Req_dec_T R 1 then
    W2 <- Py.div (IZR shells - IZR shells * P) (IZR shells - IZR shells * P + P) ;;
    n <- Py.div (Rpower 2 0.5 * (1 - W2)) W2 ;;
    w <- Py.div W2 (1 - W2) ;;
    q <- Py.div (w + Rpower 2 (-0.5)) (w - Rpower 2 (-0.5)) ;;
    l <- Py.log q ;;
    Py.div n l
  else
    b <- Py.div (1 - P * R) (1 - P) ;;
    e <- Py.div 1 (IZR shells) ;;
    W <- Py.pow b e ;;
    s <- Py.pow (R * R + 1) 0.5 ;;
    S <- Py.div s (R - 1) ;;
    l <- Py.log W ;;
    q <- Py.div (1 + W - S + S * W) (1 + W + S - S * W) ;;
    l' <- Py.log q ;;
    Py.div (S * l) l'.

(** ** Tube sizes and gauges of TEMA *)

(** The table of lines 1374-1378, one list per column; diameters and
    thicknesses are divided by 1000 as the list comprehensions do. *)
Definition _NPSs : list R :=
  0.25 :: 0.25 :: 0.375 :: 0.375 :: 0.375 :: 0.5 :: 0.5 :: 0.625 :: 0.625
  :: 0.625 :: 0.75 :: 0.75 :: 0.75 :: 0.75 :: 0.75 :: 0.875 :: 0.875 :: 0.875
  :: 0.875 :: 1 :: 1 :: 1 :: 1 :: 1.25 :: 1.25 :: 1.25 :: 1.25 :: 2 :: 2 :: nil.

Definition _Dos : list R :=
  map (fun i => i / 1000)
    (6.35 :: 6.35 :: 9.525 :: 9.525 :: 9.525 :: 12.7 :: 12.7 :: 15.875
     :: 15.875 :: 15.875 :: 19.05 :: 19.05 :: 19.05 :: 19.05 :: 19.05
     :: 22.225 :: 22.225 :: 22.225 :: 22.225 :: 25.4 :: 25.4 :: 25.4 :: 25.4
     :: 31.75 :: 31.75 :: 31.75 :: 31.75 :: 50.8 :: 50.8 :: nil).

Definition _BWGs : list Z :=
  (22 :: 24 :: 18 :: 20 :: 22 :: 18 :: 20 :: 16 :: 18 :: 20 :: 12 :: 14 :: 16
   :: 18 :: 20 :: 14 :: 16 :: 18 :: 20 :: 12 :: 14 :: 16 :: 18 :: 10 :: 12
   :: 14 :: 16 :: 12 :: 14 :: nil)%Z.

Definition _ts : list R :=
  map (fun i => i / 1000)
    (0.711 :: 0.559 :: 1.245 :: 0.889 :: 0.711 :: 1.245 :: 0.889 :: 1.651
     :: 1.245 :: 0.889 :: 2.769 :: 2.108 :: 1.651 :: 1.245 :: 0.889 :: 2.108
     :: 1.651 :: 1.245 :: 0.889 :: 2.769 :: 2.108 :: 1.651 :: 1.245 :: 3.404
     :: 2.769 :: 2.108 :: 1.651 :: 2.769 :: 2.108 :: nil).

Definition _Dis : list R :=
  map (fun i => i / 1000)
    (4.928 :: 5.232 :: 7.035 :: 7.747 :: 8.103 :: 10.21 :: 10.922 :: 12.573
     :: 13.385 :: 14.097 :: 13.512 :: 14.834 :: 15.748 :: 16.56 :: 17.272
     :: 18.009 :: 18.923 :: 19.735 :: 20.447 :: 19.862 :: 21.184 :: 22.098
     :: 22.91 :: 24.942 :: 26.212 :: 27.534 :: 28.448 :: 45.262 :: 46.584
     :: nil).

(** The dictionary [TEMA_tubing] of lines 1381-1384: the gauges listed for
    each nominal size, in the order of the source. *)
Definition TEMA_tubing : list (R * list Z) :=
  (0.25, (22 :: 24 :: nil)%Z) :: (0.375, (18 :: 20 :: 22 :: nil)%Z)
  :: (0.5, (18 :: 20 :: nil)%Z) :: (0.625, (16 :: 18 :: 20 :: nil)%Z)
  :: (0.75, (12 :: 14 :: 16 :: 18 :: 20 :: nil)%Z)
  :: (0.875, (14 :: 16 :: 18 :: 20 :: nil)%Z)
  :: (1, (12 :: 14 :: 16 :: 18 :: nil)%Z)
  :: (1.25, (10 :: 12 :: 14 :: 16 :: nil)%Z) :: (2, (12 :: 14 :: nil)%Z) :: nil.

(** [d[key]] for a dictionary with float keys; [None] for a missing key. *)
Fixpoint lookup {A : Type} (key : R) (d : list (R * A)) : option A :=
  match d with
  | nil => None
  | (k, v) :: d' => if Builtins.eq k key then Some v else lookup key d'
  end.

(** A gauge as the functions pass it around: an integer, or a list of
    integers where [get_tube_TEMA] wraps its result in one. *)
Inductive gauge : Type :=
| Gauge (n : Z)
| Gauges (l : list Z).

(** [BWG in t] for a tuple [t] of integers: a list equals no integer. *)
Definition listed (BWG : gauge) (t : list Z) : bool :=
  match BWG with
  | Gauge n => existsb (Z.eqb n) t
  | Gauges _ => false
  end.

(** [check_tubing_TEMA(NPS, BWG)], lines 1404-1407. *)
Definition check_tubing_TEMA (NPS : R) (BWG : gauge) : bool :=
  match lookup NPS TEMA_tubing with
  | Some t => listed BWG t
  | None => false
  end.

(** The tuple [(NPS, BWG, Do, Di, t)] that [get_tube_TEMA] returns. *)
Record tube : Type := Tube {
  tube_NPS : R; tube_BWG : gauge; tube_Do : R; tube_Di : R; tube_t : R
}.

(** The loop of lines 1451-1453, [for t in ts: if tmin <= t: break], on
    the variable [t], which is [None] while it is unassigned. *)
Fixpoint first_thick_enough (tmin : R) (ts : list R) (t : option R)
  : option R :=
  match ts with
  | nil => t
  | x :: ts' => if Builtins.le tmin x then Some x
                else first_thick_enough tmin ts' (Some x)
  end.

Section Gauges.

(** The two parallel lists [BWG_integers] and [BWG_SI] of [fluids.piping]:
    the gauge numbers and the wall thickness of each one in metres.  They
    are not part of the repository and are taken as parameters. *)
Variable BWG_integers : list Z.
Variable BWG_SI : list R.

(** [BWG_SI[BWG_integers.index(BWG)]]. *)
Definition thickness_of_gauge (BWG : Z) : outcome R :=
  i <~ Builtins.index_int BWG BWG_integers ;;
  Builtins.item BWG_SI i.

(** [BWG_integers[BWG_SI.index(t)]]. *)
Definition gauge_of_thickness (t : R) : outcome Z :=
  i <~ Builtins.index t BWG_SI ;;
  Builtins.item BWG_integers i.

(** The body of [get_tube_TEMA(NPS, BWG, Do, Di, tmin)], lines 1413-1468,
    with the function it calls at line 1458 as [self].  All five arguments
    default to [None] and are tested for truth; inside a branch the
    arguments that were tested are numbers, and the [TypeError]
    alternatives of the matches are out of reach. *)
Definition get_tube_TEMA_body
    (self : option R -> option Z -> option R -> option R -> option R
            -> outcome tube)
    (NPS : option R) (BWG : option Z) (Do Di tmin : option R) : outcome tube :=
  let unlisted := Exception "NPS and BWG Specified are not listed in TEMA" in
  if Py.truthy NPS && Builtins.truthy_int BWG then
    match NPS, BWG with
    | Some NPS, Some BWG =>
        if negb (check_tubing_TEMA NPS (Gauge BWG)) then Throws unlisted
        else
          let Do := 0.0254 * NPS in
          t <~ thickness_of_gauge BWG ;;
          let Di := Do - 2 * t in
          Returns (Tube NPS (Gauge BWG) Do Di t)
    | _, _ => Throws (Builtin TypeError)
    end
  else if Py.truthy Do && Builtins.truthy_int BWG then
    match Do, BWG with
    | Some Do, Some BWG =>
        let NPS := Do / 0.0254 in
        if negb (check_tubing_TEMA NPS (Gauge BWG)) then Throws unlisted
        else
          t <~ thickness_of_gauge BWG ;;
          let Di := Do - 2 * t in
          Returns (Tube NPS (Gauge BWG) Do Di t)
    | _, _ => Throws (Builtin TypeError)
    end
  else if Builtins.truthy_int BWG && Py.truthy Di then
    match BWG, Di with
    | Some BWG, Some Di =>
        t <~ thickness_of_gauge BWG ;;
        let Do := t * 2 + Di in
        let NPS := Do / 0.0254 in
        if negb (check_tubing_TEMA NPS (Gauge BWG)) then Throws unlisted
        else Returns (Tube NPS (Gauge BWG) Do Di t)
    | _, _ => Throws (Builtin TypeError)
    end
  else if Py.truthy NPS && Py.truthy Di then
    match NPS, Di with
    | Some NPS, Some Di =>
        let Do := 0.0254 * NPS in
        let t := (Do - Di) / 2 in
        g <~ gauge_of_thickness t ;;
        let BWG := Gauges (g :: nil) in
        if negb (check_tubing_TEMA NPS BWG) then Throws unlisted
        else Returns (Tube NPS BWG Do Di t)
    | _, _ => Throws (Builtin TypeError)
    end
  else if Py.truthy Di && Py.truthy Do then
    match Di, Do with
    | Some Di, Some Do =>
        let NPS := Do / 0.0254 in
        let t := (Do - Di) / 2 in
        g <~ gauge_of_thickness t ;;
        let BWG := Gauges (g :: nil) in
        if negb (check_tubing_TEMA NPS BWG) then Throws unlisted
        else Returns (Tube NPS BWG Do Di t)
    | _, _ => Throws (Builtin TypeError)
    end
  else if Py.truthy NPS && Py.truthy tmin then
    match NPS, tmin with
    | Some NPS, Some tmin =>
        let Do := 0.0254 * NPS in
        gauges <~ match lookup NPS TEMA_tubing with
                  | Some gauges => Returns gauges
                  | None => Throws KeyError
                  end ;;
        ts <~ Builtins.comprehension thickness_of_gauge gauges ;;
        let ts := rev ts in
        thickest <~ Builtins.last_item ts ;;
        if Builtins.gt tmin thickest then
          Throws (Exception
            "Specified minimum thickness is larger than available in TEMA")
        else
          t <~ match first_thick_enough tmin ts None with
               | Some t => Returns t
               | None => Throws (Builtin UnboundLocalError)
               end ;;
          g <~ gauge_of_thickness t ;;
          let BWG := Gauges (g :: nil) in
          let Di := Do - 2 * t in
          Returns (Tube NPS BWG Do Di t)
    | _, _ => Throws (Builtin TypeError)
    end
  else if Py.truthy Do && Py.truthy tmin then
    match Do with
    | Some Do =>
        let NPS := Do / 0.0254 in
        self (Some NPS) None None None tmin
    | None => Throws (Builtin TypeError)
    end
  else if Py.truthy Di && Py.truthy tmin then
    Throws (Exception
      "Not funny defined input for TEMA Schedule; multiple solutions")
  else if Py.truthy NPS then
    match NPS with
    | Some NPS =>
        gauges <~ match lookup NPS TEMA_tubing with
                  | Some gauges => Returns gauges
                  | None => Throws KeyError
                  end ;;
        BWG <~ Builtins.item gauges 0 ;;
        let Do := 0.0254 * NPS in
        t <~ thickness_of_gauge BWG ;;
        let Di := Do - 2 * t in
        Returns (Tube NPS (Gauge BWG) Do Di t)
    | None => Throws (Builtin TypeError)
    end
  else Throws (Exception "Insufficient information provided").

(** [get_tube_TEMA].  The call of line 1458 passes [NPS] and [tmin] only:
    the callee cannot reach line 1458 again, so two levels of the body are
    all the recursion there is. *)
Definition get_tube_TEMA : option R -> option Z -> option R -> option R
                           -> option R -> outcome tube :=
  get_tube_TEMA_body
    (get_tube_TEMA_body (fun _ _ _ _ _ => Throws RecursionError)).

End Gauges.

(** ** Bundles, shells and baffles *)

(** [DBundle_min(Do)], lines 1520-1532. *)
Definition DBundle_min (Do : R) : R :=
  if Builtins.le Do 0.006 then 0.1
  else if Builtins.le Do 0.01 then 0.1
  else if Builtins.le Do 0.014 then 0.3
  else if Builtins.le Do 0.02 then 0.5
  else if Builtins.le Do 0.03 then 1
  else 1.5.

(** [shell_clearance(DBundle, DShell)], lines 1566-1595.  Both arguments
    default to [None]; the tests [if DShell:] and [elif DBundle:] are tests
    of truth. *)
Definition shell_clearance (DBundle DShell : option R) : outcome R :=
  if Py.truthy DShell then
    DShell <~ lift (Py.num DShell) ;;
    Returns (if Builtins.lt DShell 0.457 then 0.0032
             else if Builtins.lt DShell 1.016 then 0.0048
             else if Builtins.lt DShell 1.397 then 0.0064
             else if Builtins.lt DShell 1.778 then 0.0079
             else if Builtins.lt DShell 2.159 then 0.0095
             else 0.011)
  else if Py.truthy DBundle then
    DBundle <~ lift (Py.num DBundle) ;;
    Returns (if Builtins.lt DBundle (0.457 - 0.0048) then 0.0032
             else if Builtins.lt DBundle (1.016 - 0.0064) then 0.0048
             else if Builtins.lt DBundle (1.397 - 0.0079) then 0.0064
             else if Builtins.lt DBundle (1.778 - 0.0095) then 0.0079
             else if Builtins.lt DBundle (2.159 - 0.011) then 0.0095
             else 0.011)
  else Throws (Exception "DShell or DBundle must be specified").

(** The tables of lines 1598-1608. *)
Definition _TEMA_baffles_refinery : list (list R) :=
  (0.0032 :: 0.0048 :: 0.0064 :: 0.0095 :: 0.0095 :: nil)
  :: (0.0048 :: 0.0064 :: 0.0095 :: 0.0095 :: 0.0127 :: nil)
  :: (0.0064 :: 0.0075 :: 0.0095 :: 0.0127 :: 0.0159 :: nil)
  :: (0.0064 :: 0.0095 :: 0.0127 :: 0.0159 :: 0.0159 :: nil)
  :: (0.0095 :: 0.0127 :: 0.0159 :: 0.0191 :: 0.0191 :: nil) :: nil.

Definition _TEMA_baffles_other : list (list R) :=
  (0.0016 :: 0.0032 :: 0.0048 :: 0.0064 :: 0.0095 :: 0.0095 :: nil)
  :: (0.0032 :: 0.0048 :: 0.0064 :: 0.0095 :: 0.0095 :: 0.0127 :: nil)
  :: (0.0048 :: 0.0064 :: 0.0075 :: 0.0095 :: 0.0127 :: 0.0159 :: nil)
  :: (0.0064 :: 0.0064 :: 0.0095 :: 0.0127 :: 0.0159 :: 0.0159 :: nil)
  :: (0.0064 :: 0.0095 :: 0.0127 :: 0.0127 :: 0.0191 :: 0.0191 :: nil) :: nil.

(** Lines 1644-1653 of [baffle_thickness]: the row [j] of the tables, from
    the shell diameter. *)
Definition baffle_row (Dshell : R) : nat :=
  if Builtins.lt Dshell 0.381 then 0
  else if Builtins.le 0.381 Dshell && Builtins.lt Dshell 0.737 then 1
  else if Builtins.le 0.737 Dshell && Builtins.lt Dshell 0.991 then 2
  else if Builtins.le 0.991 Dshell && Builtins.lt Dshell 1.524 then 3
  else 4.

(** Lines 1656-1665: the column [i] of the refinery table, from the
    unsupported length. *)
Definition refinery_column (L_unsupported : R) : nat :=
  if Builtins.le L_unsupported 0.61 then 0
  else if Builtins.lt 0.61 L_unsupported && Builtins.le L_unsupported 0.914
  then 1
  else if Builtins.lt 0.914 L_unsupported && Builtins.le L_unsupported 1.219
  then 2
  else if Builtins.lt 1.219 L_unsupported && Builtins.le L_unsupported 1.524
  then 3
  else 4.

(** Lines 1669-1680: the column [i] of the table of the other services. *)
Definition other_column (L_unsupported : R) : nat :=
  if Builtins.le L_unsupported 0.305 then 0
  else if Builtins.lt 0.305 L_unsupported && Builtins.le L_unsupported 0.610
  then 1
  else if Builtins.lt 0.61 L_unsupported && Builtins.le L_unsupported 0.914
  then 2
  else if Builtins.lt 0.914 L_unsupported && Builtins.le L_unsupported 1.219
  then 3
  else if Builtins.lt 1.219 L_unsupported && Builtins.le L_unsupported 1.524
  then 4
  else 5.

(** [baffle_thickness(Dshell, L_unsupported, service)], lines 1644-1682.
    The two numbers are compared at once, so they are floats here; a
    [service] that is none of ['R'], ['C'], ['B'] leaves [t] unassigned and
    [return t] raises. *)
Definition baffle_thickness (Dshell L_unsupported : R) (service : string)
  : outcome R :=
  let j := baffle_row Dshell in
  if (service =? "R")%string then
    let i := refinery_column L_unsupported in
    row <~ Builtins.item _TEMA_baffles_refinery j ;;
    Builtins.item row i
  else if ((service =? "C") || (service =? "B"))%string then
    let i := other_column L_unsupported in
    row <~ Builtins.item _TEMA_baffles_other j ;;
    Builtins.item row i
  else Throws (Builtin UnboundLocalError).

(** [D_baffle_holes(do, L_unsupported)], lines 1719-1724. *)
Definition D_baffle_holes (do L_unsupported : R) : R :=
  let extra :=
    if Builtins.gt do 0.0318 || Builtins.le L_unsupported 0.914
    then 0.0008 else 0.0004 in
  do + extra.

(** The lists of lines 1727-1729. *)
Definition _L_unsupported_steel : list R :=
  0.66 :: 0.889 :: 1.118 :: 1.321 :: 1.524 :: 1.753 :: 1.88 :: 2.235 :: 2.54
  :: 3.175 :: 3.175 :: 3.175 :: nil.

Definition _L_unsupported_aluminium : list R :=
  0.559 :: 0.762 :: 0.965 :: 1.143 :: 1.321 :: 1.524 :: 1.626 :: 1.93 :: 2.21
  :: 2.794 :: 2.794 :: 2.794 :: nil.

Definition _L_unsupported_lengths : list R :=
  0.25 :: 0.375 :: 0.5 :: 0.628 :: 0.75 :: 0.875 :: 1 :: 1.25 :: 1.5 :: 2
  :: 2.5 :: 3 :: nil.

(** [L_unsupported_max(NPS, material)], lines 1761-1769. *)
Definition L_unsupported_max (NPS : R) (material : string) : outcome R :=
  if Builtins.mem NPS _L_unsupported_lengths then
    i <~ Builtins.index NPS _L_unsupported_lengths ;;
    if (material =? "CS")%string then Builtins.item _L_unsupported_steel i
    else Builtins.item _L_unsupported_aluminium i
  else Throws (Exception "Tube size not in list length unsupported list").

(** ** Tube counts *)

(** [Ntubes_Perrys(DBundle, do, Ntp, angle)], lines 1812-1837.  [Nt] is
    [None] while it is unassigned: an [angle] that is none of 30, 60, 45, 90
    enters no branch and [int(Nt)] raises. *)
Definition Ntubes_Perrys (DBundle do Ntp angle : R) : outcome Z :=
  Nt <~ (if Builtins.eq angle 30 || Builtins.eq angle 60 then
           d <~ lift (Py.div (0.75 * DBundle) do) ;;
           let C := d - 36 in
           if Builtins.eq Ntp 1 then
             Returns (Some (1298 + 74.86 * C + 1.283 * C ^ 2
                            - 0.0078 * C ^ 3 - 0.0006 * C ^ 4))
           else if Builtins.eq Ntp 2 then
             Returns (Some (1266 + 73.58 * C + 1.234 * C ^ 2
                            - 0.0071 * C ^ 3 - 0.0005 * C ^ 4))
           else if Builtins.eq Ntp 4 then
             Returns (Some (1196 + 70.79 * C + 1.180 * C ^ 2
                            - 0.0059 * C ^ 3 - 0.0004 * C ^ 4))
           else if Builtins.eq Ntp 6 then
             Returns (Some (1166 + 70.72 * C + 1.269 * C ^ 2
                            - 0.0074 * C ^ 3 - 0.0006 * C ^ 4))
           else Throws (Exception "N passes not 1, 2, 4 or 6")
         else if Builtins.eq angle 45 || Builtins.eq angle 90 then
           d <~ lift (Py.div DBundle do) ;;
           let C := d - 36 in
           if Builtins.eq Ntp 1 then
             Returns (Some (593.6 + 33.52 * C + 0.3782 * C ^ 2
                            - 0.0012 * C ^ 3 + 0.0001 * C ^ 4))
           else if Builtins.eq Ntp 2 then
             Returns (Some (578.8 + 33.36 * C + 0.3847 * C ^ 2
                            - 0.0013 * C ^ 3 + 0.0001 * C ^ 4))
           else if Builtins.eq Ntp 4 then
             Returns (Some (562.0 + 33.04 * C + 0.3661 * C ^ 2
                            - 0.0016 * C ^ 3 + 0.0002 * C ^ 4))
           else if Builtins.eq Ntp 6 then
             Returns (Some (550.4 + 32.49 * C + 0.3873 * C ^ 2
                            - 0.0013 * C ^ 3 + 0.0001 * C ^ 4))
           else Throws (Exception "N passes not 1, 2, 4 or 6")
         else Returns None) ;;
  Nt <~ lift (Py.load Nt) ;;
  Returns (Builtins.int Nt).


(** [Ntubes_HEDH(DBundle, do, pitch, angle)], lines 2155-2164. *)
Definition Ntubes_HEDH (DBundle do pitch angle : R) : outcome Z :=
  C1 <~ (if Builtins.eq angle 30 || Builtins.eq angle 60 then Returns (13 / 15)
         else if Builtins.eq angle 45 || Builtins.eq angle 90 then Returns 1
         else Throws (Exception
                "Only 30, 60, 45 and 90 degree layouts are supported")) ;;
  let Dctl := DBundle - do in
  a <~ lift (Py.div (0.78 * Dctl ^ 2) C1) ;;
  Nt <~ lift (Py.div a (pitch ^ 2)) ;;
  Returns (Builtins.int Nt).


(** * Properties *)

(** ** The Python primitives on the cases that matter *)

Lemma div_ok (x y : R) : y <> 0 -> Py.div x y = Ok (x / y).
Proof. intros H. unfold Py.div. destruct (Req_dec_T y 0); [contradiction | reflexivity]. Qed.

Lemma div_zero (x y : R) : y = 0 -> Py.div x y = Raise ZeroDivisionError.
Proof. intros H. unfold Py.div. destruct (Req_dec_T y 0); [reflexivity | contradiction]. Qed.

Lemma log_ok (x : R) : 0 < x -> Py.log x = Ok (ln x).
Proof. intros H. unfold Py.log. destruct (Rlt_dec 0 x); [reflexivity | contradiction]. Qed.

Lemma log_domain (x : R) : x <= 0 -> Py.log x = Raise ValueError.
Proof. intros H. unfold Py.log. destruct (Rlt_dec 0 x); [lra | reflexivity]. Qed.

Lemma sqrt_ok (x : R) : 0 <= x -> Py.sqrt x = Ok (sqrt x).
Proof. intros H. unfold Py.sqrt. destruct (Rle_dec 0 x); [reflexivity | contradiction]. Qed.

Lemma pow_pos (x y : R) : 0 < x -> Py.pow x y = Ok (Rpower x y).
Proof. intros H. unfold Py.pow. destruct (Rlt_dec 0 x); [reflexivity | contradiction]. Qed.

Lemma pow_zero (y : R) : 0 < y -> Py.pow 0 y = Ok 0.
Proof.
  intros H. unfold Py.pow.
  destruct (Rlt_dec 0 0); [lra |].
  destruct (Req_dec_T 0 0); [| lra].
  destruct (Rlt_dec y 0); [lra |].
  destruct (Req_dec_T y 0); [lra | reflexivity].
Qed.

Lemma pow_int_nonzero (x : R) (k : Z) : x <> 0 -> Py.pow_int x k = Ok (powerRZ x k).
Proof. intros H. unfold Py.pow_int. destruct (Req_dec_T x 0); [contradiction | reflexivity]. Qed.

Lemma pow_int_zero_neg (k : Z) : (k < 0)%Z -> Py.pow_int 0 k = Raise ZeroDivisionError.
Proof.
  intros H. unfold Py.pow_int. destruct (Req_dec_T 0 0); [| lra].
  apply Z.ltb_lt in H. rewrite H. reflexivity.
Qed.

Lemma bind_assoc {A B C : Type} (m : result A) (f : A -> result B)
    (g : B -> result C) :
  bind (bind m f) g = bind m (fun x => bind (f x) g).
Proof. destruct m; reflexivity. Qed.

Lemma Ok_inj {A : Type} (a b : A) : Ok a = Ok b -> a = b.
Proof. intros H. injection H. exact (fun e => e). Qed.

(** ** Facts about the reals *)

Lemma exp_ge_1 (x : R) : 0 <= x -> 1 <= exp x.
Proof.
  intros [H | <-]; [| rewrite exp_0; lra].
  left. rewrite <- exp_0 at 1. apply exp_increasing. exact H.
Qed.

Lemma exp_le_1 (x : R) : x <= 0 -> exp x <= 1.
Proof.
  intros [H | ->]; [| rewrite exp_0; lra].
  left. rewrite <- exp_0. apply exp_increasing. exact H.
Qed.

Lemma exp_gt_1 (x : R) : 0 < x -> 1 < exp x.
Proof. intros H. rewrite <- exp_0 at 1. apply exp_increasing. exact H. Qed.

Lemma exp_lt_1 (x : R) : x < 0 -> exp x < 1.
Proof. intros H. rewrite <- exp_0. apply exp_increasing. exact H. Qed.

Lemma exp_times_exp_opp (c : R) : exp c * exp (- c) = 1.
Proof. rewrite <- exp_plus, Rplus_opp_r. apply exp_0. Qed.

Lemma powerRZ_exp (a : R) (n : Z) : powerRZ (exp a) n = exp (IZR n * a).
Proof.
  rewrite powerRZ_Rpower by apply exp_pos.
  unfold Rpower. rewrite ln_exp. reflexivity.
Qed.

Lemma Rpower_half (x : R) : 0 < x -> Rpower x 0.5 = sqrt x.
Proof.
  intros H. replace 0.5 with (/ 2) by lra. apply Rpower_sqrt. exact H.
Qed.

Lemma Rpower_base_1 (y : R) : Rpower 1 y = 1.
Proof. unfold Rpower. rewrite ln_1, Rmult_0_r. apply exp_0. Qed.

Lemma sum_of_square_pos (x : R) : 0 < 1 + x ^ 2.
Proof. pose proof (pow2_ge_0 x). lra. Qed.

Lemma root_at_least_one (Cr : R) : 1 <= Rpower (1 + Cr ^ 2) 0.5.
Proof.
  rewrite Rpower_half by apply sum_of_square_pos.
  rewrite <- sqrt_1 at 1. apply sqrt_le_1_alt. pose proof (pow2_ge_0 Cr). lra.
Qed.

Lemma root_inverse (Cr : R) :
  Rpower (1 + Cr ^ 2) (-0.5) = / Rpower (1 + Cr ^ 2) 0.5.
Proof.
  replace (-0.5) with (- (0.5)) by lra. apply Rpower_Ropp.
Qed.

Lemma IZR_shells_pos (shells : Z) : (1 <= shells)%Z -> 1 <= IZR shells.
Proof. intros H. apply IZR_le in H. exact H. Qed.

Lemma carried_forward (c t x : R) : c <> 0 -> c * (t + x / c - t) = x.
Proof. intros H. field. exact H. Qed.

Lemma carried_back (c t x : R) : c <> 0 -> c * (t - (t - x / c)) = x.
Proof. intros H. field. exact H. Qed.

Lemma Rmin_unit : Rmin (1 * 1) (1 * 1) = 1.
Proof. unfold Rmin. destruct (Rle_dec (1 * 1) (1 * 1)); lra. Qed.

Lemma Rmax_unit_eq : Rmax (1 * 1) (1 * 1) = 1.
Proof. unfold Rmax. destruct (Rle_dec (1 * 1) (1 * 1)); lra. Qed.

Lemma Rmax_unit : Rmax (1 * 1) (1 * 1) <> 0.
Proof. unfold Rmax. destruct (Rle_dec (1 * 1) (1 * 1)); lra. Qed.

(** ** Tactics *)

Ltac unfold_method :=
  unfold effectiveness_NTU_method, calc_Cr, calc_Cmin, calc_Cmax,
    NTU_from_UA, UA_from_NTU.

Ltac unfold_py :=
  unfold Py.div, Py.log, Py.sqrt, Py.pow, Py.pow_int, Py.load, Py.num.

(** One step of case analysis at the head of a monadic computation. *)
Ltac step_head t :=
  lazymatch t with
  | bind (Ok _) _ => cbn [bind]
  | bind (Raise _) _ => cbn [bind]
  | bind (if ?c then _ else _) _ => destruct c
  | bind ?m _ => destruct m
  | (if ?c then _ else _) => destruct c
  | (let x := _ in _) => cbv zeta
  end.

Ltac step_bind :=
  match goal with
  | |- ?t <> _ => step_head t
  | |- ?t = _ => step_head t
  end.

(** Evaluate tests on configuration strings that are closed terms. *)
Ltac eval_tag :=
  repeat match goal with
  | |- context [String.eqb ?a ?b] =>
      let v := eval vm_compute in (String.eqb a b) in
      progress change (String.eqb a b) with v
  | |- context [Py.contains ?a ?b] =>
      let v := eval vm_compute in (Py.contains a b) in
      progress change (Py.contains a b) with v
  | |- context [shell_count ?a] =>
      let v := eval vm_compute in (shell_count a) in
      progress change (shell_count a) with v
  end;
  cbn [orb andb negb].

(** Positivity side conditions of powers. *)
Ltac pos_base :=
  first [ apply exp_pos
        | match goal with |- 0 < 1 + ?x ^ 2 / _ => pose proof (pow2_ge_0 x); lra end
        | match goal with |- 0 < 1 + ?x ^ 2 => pose proof (pow2_ge_0 x); lra end
        | lra ].

(** Run the head of a computation, splitting on every division. *)
Ltac run_head t :=
  lazymatch t with
  | bind (Ok _) _ => cbn [bind]
  | bind (Raise _) _ => cbn [bind]
  | bind (bind _ _) _ => rewrite bind_assoc
  | bind (Py.pow ?x ?y) _ => rewrite (pow_pos x y) by pos_base
  | bind (Py.pow_int ?x ?k) _ =>
      rewrite (pow_int_nonzero x k) by (apply Rgt_not_eq; pos_base)
  | bind (Py.div ?x ?y) _ =>
      let H := fresh "Hd" in
      destruct (Req_dec_T y 0) as [H | H];
      [rewrite (div_zero x y H) | rewrite (div_ok x y H)]
  | Py.div ?x ?y =>
      let H := fresh "Hd" in
      destruct (Req_dec_T y 0) as [H | H];
      [rewrite (div_zero x y H) | rewrite (div_ok x y H)]
  | bind (Py.load (Some _)) _ => cbn [Py.load]
  | bind (Py.load None) _ => cbn [Py.load]
  | bind (Py.load ?v) _ => destruct v
  | bind (Py.num (Some _)) _ => cbn [Py.num]
  | bind (Py.num None) _ => cbn [Py.num]
  | bind (Py.num ?v) _ => destruct v
  | bind (if ?c then _ else _) _ => destruct c
  | (if ?c then _ else _) => destruct c
  | (let x := _ in _) => cbv zeta
  end.

Ltac run :=
  match goal with
  | |- ?t <> _ => run_head t
  | |- ?t = _ -> _ => run_head t
  | |- ?t = _ => run_head t
  end.

Ltac take_result :=
  let H := fresh "H" in intros H; apply Ok_inj in H; rewrite <- H; clear H.

(** [lra] after splitting absolute values. *)
Ltac lra_abs :=
  unfold Rabs in *;
  repeat match goal with
  | H : context [Rcase_abs ?x] |- _ => destruct (Rcase_abs x)
  | |- context [Rcase_abs ?x] => destruct (Rcase_abs x)
  end;
  lra.

Ltac absurd_R := exfalso; first [lra | lra_abs].

(** Evaluate the head of a computation on concrete numbers. *)
Ltac eval_head t :=
  lazymatch t with
  | bind (Ok _) _ => cbn [bind]
  | bind (Raise _) _ => cbn [bind]
  | bind (bind _ _) _ => rewrite bind_assoc
  | bind ?m _ => eval_head m
  | Py.div ?x ?y =>
      first [rewrite (div_ok x y) by lra | rewrite (div_zero x y) by lra]
  | Py.log ?x =>
      first [rewrite (log_ok x) by lra | rewrite (log_domain x) by lra]
  | Py.load _ => cbn [Py.load]
  | Py.num _ => cbn [Py.num]
  | (if ?c then _ else _) =>
      lazymatch type of c with
      | bool =>
          first [ progress cbn [negb andb orb Py.truthy is_some existsb fst snd]
                | match c with
                  | context [Req_dec_T ?x ?y] =>
                      destruct (Req_dec_T x y); [try absurd_R | try absurd_R]
                  end ]
      | _ => destruct c; [try absurd_R | try absurd_R]
      end
  | (let x := _ in _) => cbv zeta
  end.

Ltac eval_py :=
  repeat match goal with
  | |- ?t = _ => eval_head t
  end.

(** ** Configuration strings *)

Lemma int_raises (s : string) (e : exn) : Py.int s = Raise e -> e = ValueError.
Proof.
  assert (Hu : forall s' e', Py.unsigned s' = Raise e' -> e' = ValueError).
  { intros s' e'. unfold Py.unsigned.
    destruct s'; [intros H; inversion H; reflexivity |].
    destruct (Py.digits 0 (String a s')); intros H; inversion H; reflexivity. }
  unfold Py.int. destruct (Py.strip s) as [| c s']; [apply Hu |].
  destruct c as [[] [] [] [] [] [] [] []]; try apply Hu.
  destruct (Py.unsigned s') eqn:H; cbn [bind]; intros H'; inversion H'.
  subst. apply (Hu _ _ H).
Qed.

Lemma shell_count_raises (subtype : string) (e : exn) :
  shell_count subtype = Raise e -> e = ValueError.
Proof.
  unfold shell_count.
  destruct (Py.split_head "S&T" subtype =? "")%string; [discriminate |].
  apply int_raises.
Qed.

Lemma shell_and_tube_dispatch (subtype : string) (shells : Z) :
  shell_and_tube subtype shells ->
  (subtype =? "counterflow")%string = false /\
  (subtype =? "parallel")%string = false.
Proof.
  intros [Hc _]. split.
  - destruct (String.eqb_spec subtype "counterflow") as [-> |]; [| reflexivity].
    vm_compute in Hc. discriminate.
  - destruct (String.eqb_spec subtype "parallel") as [-> |]; [| reflexivity].
    vm_compute in Hc. discriminate.
Qed.

(** The forward function on a shell-and-tube configuration. *)
Lemma effectiveness_shell_and_tube (NTU Cr : R) (subtype : string) (shells : Z) :
  shell_and_tube subtype shells -> Cr <= 1 ->
  effectiveness_from_NTU NTU Cr subtype
  = shell_and_tube_effectiveness NTU Cr shells.
Proof.
  intros Hst HCr. destruct (shell_and_tube_dispatch _ _ Hst) as [H1 H2].
  destruct Hst as [Hc Hn]. unfold effectiveness_from_NTU.
  destruct (Rgt_dec Cr 1); [lra |].
  rewrite H1, H2, Hc, Hn. reflexivity.
Qed.

(** The inverse function on a shell-and-tube configuration. *)
Lemma NTU_shell_and_tube ridder (eff Cr : R) (subtype : string) (shells : Z) :
  shell_and_tube subtype shells -> Cr <= 1 ->
  NTU_from_effectiveness ridder eff Cr subtype
  = shell_and_tube_NTU eff Cr shells.
Proof.
  intros Hst HCr. destruct (shell_and_tube_dispatch _ _ Hst) as [H1 H2].
  destruct Hst as [Hc Hn]. unfold NTU_from_effectiveness.
  destruct (Rgt_dec Cr 1); [lra |].
  rewrite H1, H2, Hc, Hn. reflexivity.
Qed.

Lemma digits_of_uint (d : Decimal.uint) (a : nat) :
  Py.digits (Z.of_nat a) (NilEmpty.string_of_uint d)
  = Some (Z.of_nat (Nat.of_uint_acc d a)).
Proof.
  revert a. induction d; intros a; cbn [NilEmpty.string_of_uint Py.digits];
    try reflexivity;
    match goal with
    | |- context [Py.is_digit ?c] => change (Py.is_digit c) with true
    end;
    cbv iota; cbn [Nat.of_uint_acc]; rewrite <- IHd; f_equal;
    rewrite Nat.tail_mul_spec;
    match goal with
    | |- context [(nat_of_ascii ?c - 48)%nat] =>
        let v := eval vm_compute in (nat_of_ascii c - 48)%nat in
        change (nat_of_ascii c - 48)%nat with v
    end;
    lia.
Qed.

Lemma index_after_digits (d : Decimal.uint) :
  index 0 "S&T" (NilEmpty.string_of_uint d ++ "S&T")
  = Some (String.length (NilEmpty.string_of_uint d)).
Proof.
  induction d; cbn [NilEmpty.string_of_uint append String.length];
    try reflexivity;
    cbn [index]; rewrite IHd;
    match goal with
    | |- context [prefix ?a ?b] => change (prefix a b) with false
    end;
    reflexivity.
Qed.

Lemma substring_append (s t : string) :
  substring 0 (String.length s) (s ++ t) = s.
Proof.
  induction s as [| c s IH]; cbn [String.length append substring].
  - destruct t; reflexivity.
  - rewrite IH. reflexivity.
Qed.

Lemma rev_acc_twice (s acc acc' : string) :
  Py.rev_acc (Py.rev_acc s acc) acc' = Py.rev_acc acc (s ++ acc').
Proof.
  revert acc acc'. induction s as [| c s IH]; intros acc acc';
    cbn [Py.rev_acc append]; [reflexivity |].
  rewrite IH. reflexivity.
Qed.

Lemma lstrip_solid (s : string) : solid s = true -> Py.lstrip s = s.
Proof.
  destruct s as [| c s]; [reflexivity |].
  cbn [solid Py.lstrip]. destruct (Py.is_space c); [discriminate | reflexivity].
Qed.

Lemma rev_acc_solid (s acc : string) :
  solid s = true -> solid acc = true -> solid (Py.rev_acc s acc) = true.
Proof.
  revert acc. induction s as [| c s IH]; intros acc Hs Hacc;
    cbn [Py.rev_acc]; [exact Hacc |].
  cbn [solid] in Hs. apply andb_prop in Hs. destruct Hs as [Hc Hs].
  apply IH; [exact Hs |]. cbn [solid]. rewrite Hc, Hacc. reflexivity.
Qed.

Lemma strip_solid (s : string) : solid s = true -> Py.strip s = s.
Proof.
  intros Hs. unfold Py.strip.
  rewrite (lstrip_solid s Hs).
  rewrite lstrip_solid by (apply rev_acc_solid; [exact Hs | reflexivity]).
  rewrite rev_acc_twice. cbn [Py.rev_acc].
  clear Hs. induction s as [| c s IH]; cbn [append]; [reflexivity |].
  rewrite IH. reflexivity.
Qed.

Lemma digits_solid (d : Decimal.uint) :
  solid (NilEmpty.string_of_uint d) = true.
Proof.
  induction d; cbn [NilEmpty.string_of_uint solid]; try reflexivity;
    rewrite IHd; reflexivity.
Qed.

Lemma int_of_digits (d : Decimal.uint) :
  d <> Decimal.Nil ->
  Py.int (NilEmpty.string_of_uint d) = Ok (Z.of_nat (Nat.of_uint d)).
Proof.
  intros Hd. unfold Py.int. rewrite (strip_solid _ (digits_solid d)).
  pose proof (digits_of_uint d 0) as Hdig. fold (Nat.of_uint d) in Hdig.
  destruct d; [contradiction | ..];
    cbn [NilEmpty.string_of_uint] in Hdig |- *;
    unfold Py.unsigned; cbn [Z.of_nat] in Hdig; rewrite Hdig; reflexivity.
Qed.

(** Every shell count has a configuration string that both correlation
    functions read as that count. *)
Lemma shells_tag_reads_back (n : nat) :
  shell_and_tube (shells_tag n) (Z.of_nat n).
Proof.
  unfold shell_and_tube, shells_tag, shell_count, Py.contains, Py.split_head.
  rewrite index_after_digits, substring_append.
  split; [reflexivity |].
  assert (Hnil : Nat.to_uint n <> Decimal.Nil).
  { intros H. pose proof (DecimalNat.Unsigned.of_to n) as Hn.
    rewrite H in Hn. cbn in Hn. subst n. discriminate H. }
  rewrite int_of_digits by exact Hnil.
  rewrite DecimalNat.Unsigned.of_to.
  destruct (Nat.to_uint n); [contradiction | ..]; reflexivity.
Qed.

(** ** The guard on the capacity-rate ratio *)

(** After the test [Cr > 1] has failed, one of [Cr < 1] and [Cr == 1]
    holds: the counterflow branch of the forward function never falls
    through to the end of the function. *)
Lemma effectiveness_from_NTU_never_falls_through :
  forall (NTU Cr : R) (subtype : string),
    effectiveness_from_NTU NTU Cr subtype <> Raise ReturnedNone.
Proof.
  intros NTU Cr subtype.
  unfold effectiveness_from_NTU, shell_and_tube_effectiveness. unfold_py.
  pose proof (shell_count_raises subtype) as Hs.
  destruct (shell_count subtype) as [shells | e];
    [| rewrite (Hs e eq_refl)];
    repeat step_bind; try discriminate; lra.
Qed.

(** C4.  Whenever [Cr > 1], [effectiveness_from_NTU] and
    [NTU_from_effectiveness] both raise the capacity-rate exception, for
    every first argument and every configuration string (recognised or
    not): the test comes before the dispatch on the configuration. *)
Theorem Cr_above_one_rejected :
  forall ridder (x Cr : R) (subtype : string),
    Cr > 1 ->
    effectiveness_from_NTU x Cr subtype = Raise InvalidInput /\
    NTU_from_effectiveness ridder x Cr subtype = Raise InvalidInput.
Proof.
  intros ridder x Cr subtype H.
  unfold effectiveness_from_NTU, NTU_from_effectiveness.
  destruct (Rgt_dec Cr 1); [split; reflexivity | contradiction].
Qed.

Lemma Cr_above_one_rejected_witness :
  effectiveness_from_NTU 5 2 "parallel" = Raise InvalidInput /\
  NTU_from_effectiveness ridder_unused 0.5 2 "no such exchanger" = Raise InvalidInput.
Proof.
  split.
  - apply (Cr_above_one_rejected ridder_unused 5 2 "parallel"). lra.
  - apply (Cr_above_one_rejected ridder_unused 0.5 2 "no such exchanger"). lra.
Defined.

(** ** Boundary values of the effectiveness *)

(** At [NTU = 0] the shell-and-tube correlation divides by
    [1 - exp(0) = 0], whatever the shell count. *)
Lemma shell_and_tube_zero_NTU (Cr : R) (shells : Z) :
  shell_and_tube_effectiveness 0 Cr shells = Raise ZeroDivisionError.
Proof.
  unfold shell_and_tube_effectiveness.
  destruct (Req_dec_T (IZR shells) 0) as [Hz | Hnz].
  - rewrite div_zero by assumption. reflexivity.
  - rewrite div_ok by assumption. cbn [bind].
    rewrite pow_pos by apply sum_of_square_pos. cbn [bind]. cbv zeta.
    rewrite div_zero; [reflexivity |].
    replace (- (0 / IZR shells) * Rpower (1 + Cr ^ 2) 0.5) with 0
      by (unfold Rdiv; ring).
    rewrite exp_0. lra.
Qed.

(** C5.  At [NTU = 0] and for every [Cr] in [0, 1],
    [effectiveness_from_NTU] returns 0 for counterflow, parallel, boiler
    and condenser, and for the three crossflow configurations when
    [Cr > 0]. *)
Theorem zero_NTU_zero_effectiveness :
  forall (Cr : R) (subtype : string),
    0 <= Cr <= 1 ->
    In subtype plain_configurations \/
    (0 < Cr /\ In subtype crossflow_configurations) ->
    effectiveness_from_NTU 0 Cr subtype = Ok 0.
Proof.
  intros Cr subtype [H0 H1] Hcfg.
  unfold effectiveness_from_NTU.
  destruct (Rgt_dec Cr 1); [lra |].
  unfold plain_configurations, crossflow_configurations in Hcfg.
  cbn [In] in Hcfg.
  destruct Hcfg as [[<- | [<- | [<- | [<- | []]]]]
                   | [Hpos [<- | [<- | [<- | []]]]]];
    eval_tag.
  - (* counterflow *)
    replace (- 0 * (1 - Cr)) with 0 by ring. rewrite exp_0.
    destruct (Rlt_dec Cr 1); [| destruct (Req_dec_T Cr 1); [| lra]].
    + rewrite div_ok by lra. f_equal. unfold Rdiv. ring.
    + rewrite div_ok by lra. f_equal. unfold Rdiv. ring.
  - (* parallel *)
    replace (- 0 * (1 + Cr)) with 0 by ring. rewrite exp_0.
    rewrite div_ok by lra. f_equal. unfold Rdiv. ring.
  - (* boiler *)
    rewrite Ropp_0, exp_0. f_equal. ring.
  - (* condenser *)
    rewrite Ropp_0, exp_0. f_equal. ring.
  - (* crossflow *)
    rewrite div_ok by lra. cbn [bind].
    rewrite !pow_zero by lra. cbn [bind]. f_equal.
    replace (1 / Cr * 0 * (exp (- Cr * 0) - 1)) with 0 by ring.
    rewrite exp_0. ring.
  - (* crossflow, mixed Cmin *)
    rewrite pow_int_nonzero by lra. cbn [bind]. f_equal.
    replace (- Cr * 0) with 0 by ring. rewrite exp_0.
    replace (- powerRZ Cr (-1) * (1 - 1)) with 0 by ring.
    rewrite exp_0. ring.
  - (* crossflow, mixed Cmax *)
    rewrite div_ok by lra. cbn [bind]. f_equal.
    rewrite Ropp_0, exp_0.
    replace (- Cr * (1 - 1)) with 0 by ring. rewrite exp_0. ring.
Qed.

Lemma zero_NTU_zero_effectiveness_witness :
  effectiveness_from_NTU 0 0.7 "crossflow, mixed Cmin" = Ok 0.
Proof.
  apply zero_NTU_zero_effectiveness.
  - lra.
  - right. split; [lra |]. right. left. reflexivity.
Defined.

(** At [NTU = 0] the correlation of a single shell-and-tube exchanger
    raises ZeroDivisionError, and so does the crossflow correlation at
    [Cr = 0]. *)
Lemma zero_NTU_division_by_zero :
  effectiveness_from_NTU 0 0.7 "S&T" = Raise ZeroDivisionError /\
  effectiveness_from_NTU 0 0 "crossflow" = Raise ZeroDivisionError.
Proof.
  split.
  - rewrite (effectiveness_shell_and_tube 0 0.7 "S&T" 1).
    + apply shell_and_tube_zero_NTU.
    + split; reflexivity.
    + lra.
  - unfold effectiveness_from_NTU.
    destruct (Rgt_dec 0 1); [lra |].
    eval_tag. rewrite div_zero by reflexivity. reflexivity.
Qed.

(** At [Cr = 0] the shell-and-tube correlation reduces to
    [1 - exp(-NTU)], whatever the number of shells. *)
Lemma shell_and_tube_zero_Cr (NTU : R) (shells : Z) :
  0 < NTU -> (1 <= shells)%Z ->
  shell_and_tube_effectiveness NTU 0 shells = Ok (1 - exp (- NTU)).
Proof.
  intros HN Hn. pose proof (IZR_shells_pos shells Hn) as Hn'.
  unfold shell_and_tube_effectiveness.
  rewrite div_ok by lra. cbn [bind].
  rewrite pow_pos by apply sum_of_square_pos. cbn [bind]. cbv zeta.
  replace (1 + 0 ^ 2) with 1 by ring. rewrite Rpower_base_1.
  set (N1 := NTU / IZR shells).
  assert (HN1 : 0 < N1) by (apply Rdiv_lt_0_compat; lra).
  replace (- N1 * 1) with (- N1) by ring.
  pose proof (exp_pos (- N1)) as Hx0.
  assert (Hx1 : exp (- N1) < 1) by (apply exp_lt_1; lra).
  set (x := exp (- N1)) in *.
  rewrite div_ok by lra. cbn [bind].
  assert (He1 : 1 + 0 + 1 * (1 + x) / (1 - x) = 2 / (1 - x))
    by (field; lra).
  rewrite He1.
  assert (Hpos : 0 < 2 / (1 - x)) by (apply Rdiv_lt_0_compat; lra).
  rewrite div_ok by lra. cbn [bind].
  replace (2 / (2 / (1 - x))) with (1 - x) by (field; lra).
  destruct (1 <? shells)%Z eqn:Hs.
  - rewrite div_ok by lra. cbn [bind].
    replace ((1 - (1 - x) * 0) / (1 - (1 - x))) with (exp N1).
    2:{ unfold x. rewrite exp_Ropp. pose proof (exp_pos N1).
        field. split; lra. }
    rewrite pow_int_nonzero by (apply Rgt_not_eq, exp_pos). cbn [bind].
    rewrite powerRZ_exp.
    replace (IZR shells * N1) with NTU by (unfold N1; field; lra).
    pose proof (exp_pos NTU).
    rewrite div_ok by lra. f_equal.
    rewrite exp_Ropp. field. lra.
  - apply Z.ltb_ge in Hs. assert (shells = 1%Z) by lia. subst shells.
    f_equal. unfold x, N1. replace (NTU / 1) with NTU by field. reflexivity.
Qed.

(** C6.  At [Cr = 0] and for every [NTU >= 0], [effectiveness_from_NTU]
    returns [1 - exp(-NTU)] for counterflow, parallel, boiler and
    condenser, and for every shell-and-tube configuration with at least
    one shell when [NTU > 0]. *)
Theorem zero_Cr_effectiveness :
  forall (NTU : R) (subtype : string),
    0 <= NTU ->
    In subtype plain_configurations \/
    (0 < NTU /\ exists shells, (1 <= shells)%Z /\ shell_and_tube subtype shells) ->
    effectiveness_from_NTU NTU 0 subtype = Ok (1 - exp (- NTU)).
Proof.
  intros NTU subtype HN [Hcfg | [Hpos [shells [Hn Hst]]]].
  - unfold effectiveness_from_NTU.
    destruct (Rgt_dec 0 1); [lra |].
    unfold plain_configurations in Hcfg. cbn [In] in Hcfg.
    destruct Hcfg as [<- | [<- | [<- | [<- | []]]]]; eval_tag.
    + destruct (Rlt_dec 0 1); [| lra].
      replace (- NTU * (1 - 0)) with (- NTU) by ring.
      rewrite div_ok by lra. f_equal. field.
    + replace (- NTU * (1 + 0)) with (- NTU) by ring.
      rewrite div_ok by lra. f_equal. field.
    + reflexivity.
    + reflexivity.
  - rewrite (effectiveness_shell_and_tube NTU 0 subtype shells Hst) by lra.
    apply shell_and_tube_zero_Cr; assumption.
Qed.

Lemma zero_Cr_effectiveness_witness :
  effectiveness_from_NTU 5 0 "50S&T" = Ok (1 - exp (- 5)).
Proof.
  apply zero_Cr_effectiveness.
  - lra.
  - right. split; [lra |]. exists 50%Z. split; [lia |]. split; reflexivity.
Defined.

(** At [Cr = 0] the three crossflow correlations divide by [Cr]. *)
Lemma zero_Cr_crossflow_division_by_zero :
  effectiveness_from_NTU 1 0 "crossflow" = Raise ZeroDivisionError /\
  effectiveness_from_NTU 1 0 "crossflow, mixed Cmin" = Raise ZeroDivisionError /\
  effectiveness_from_NTU 1 0 "crossflow, mixed Cmax" = Raise ZeroDivisionError.
Proof.
  unfold effectiveness_from_NTU.
  destruct (Rgt_dec 0 1); [lra |].
  eval_tag.
  rewrite div_zero by reflexivity.
  rewrite pow_int_zero_neg by lia.
  repeat split.
Qed.

(** ** Round trip through the two correlation functions *)

Lemma round_trip_counterflow ridder (NTU Cr : R) :
  0 <= Cr <= 1 -> 0 <= NTU ->
  round_trip ridder NTU Cr "counterflow" = Ok NTU.
Proof.
  intros HCr HN. unfold round_trip, effectiveness_from_NTU, NTU_from_effectiveness.
  destruct (Rgt_dec Cr 1); [lra |]. eval_tag.
  destruct (Rlt_dec Cr 1) as [Hlt | Hge].
  - assert (He1 : exp (- NTU * (1 - Cr)) <= 1) by (apply exp_le_1; nra).
    pose proof (exp_pos (- NTU * (1 - Cr))) as He0.
    set (e := exp (- NTU * (1 - Cr))) in *.
    assert (HD : 0 < 1 - Cr * e) by nra.
    rewrite div_ok by lra. cbn [bind].
    rewrite div_ok by lra. cbn [bind].
    assert (Hden : (1 - e) / (1 - Cr * e) * Cr - 1 = (Cr - 1) / (1 - Cr * e))
      by (field; lra).
    rewrite div_ok.
    2:{ rewrite Hden. intros Hz.
        apply (Rmult_eq_compat_r (1 - Cr * e)) in Hz.
        replace ((Cr - 1) / (1 - Cr * e) * (1 - Cr * e)) with (Cr - 1) in Hz
          by (field; lra). lra. }
    cbn [bind].
    replace (((1 - e) / (1 - Cr * e) - 1) / ((1 - e) / (1 - Cr * e) * Cr - 1))
      with e by (field; split; lra).
    rewrite log_ok by lra. cbn [bind]. f_equal.
    unfold e. rewrite ln_exp. field. lra.
  - destruct (Req_dec_T Cr 1) as [-> | Hne]; [| lra].
    rewrite div_ok by lra. cbn [bind].
    rewrite div_ok.
    + f_equal. field. split; lra.
    + replace (1 - NTU / (1 + NTU)) with (1 / (1 + NTU)) by (field; lra).
      apply Rgt_not_eq. apply Rdiv_lt_0_compat; lra.
Qed.

Lemma round_trip_parallel ridder (NTU Cr : R) :
  0 <= Cr <= 1 -> 0 <= NTU ->
  round_trip ridder NTU Cr "parallel" = Ok NTU.
Proof.
  intros HCr HN. unfold round_trip, effectiveness_from_NTU, NTU_from_effectiveness.
  destruct (Rgt_dec Cr 1); [lra |]. eval_tag.
  pose proof (exp_pos (- NTU * (1 + Cr))) as He0.
  set (e := exp (- NTU * (1 + Cr))) in *.
  rewrite div_ok by lra. cbn [bind].
  replace ((1 - e) / (1 + Cr) * (1 + Cr)) with (1 - e) by (field; lra).
  destruct (Rgt_dec (1 - e) 1); [lra |].
  replace (1 - (1 - e)) with e by ring.
  rewrite log_ok by lra. cbn [bind].
  rewrite div_ok by lra. f_equal.
  unfold e. rewrite ln_exp. field. lra.
Qed.

Lemma round_trip_mixed_Cmin ridder (NTU Cr : R) :
  0 < Cr <= 1 -> 0 <= NTU ->
  round_trip ridder NTU Cr "crossflow, mixed Cmin" = Ok NTU.
Proof.
  intros HCr HN. unfold round_trip, effectiveness_from_NTU, NTU_from_effectiveness.
  destruct (Rgt_dec Cr 1); [lra |]. eval_tag.
  rewrite pow_int_nonzero by lra. cbn [bind].
  change (powerRZ Cr (-1)) with (/ (Cr ^ 1)).
  replace (Cr ^ 1) with Cr by ring.
  pose proof (exp_pos (- Cr * NTU)) as He0.
  assert (He1 : exp (- Cr * NTU) <= 1) by (apply exp_le_1; nra).
  set (e := exp (- Cr * NTU)) in *.
  replace (1 - (1 - exp (- / Cr * (1 - e)))) with (exp (- / Cr * (1 - e)))
    by ring.
  rewrite log_ok by apply exp_pos. cbn [bind].
  rewrite ln_exp.
  replace (Cr * (- / Cr * (1 - e)) + 1) with e by (field; lra).
  destruct (Rlt_dec (Cr * (- / Cr * (1 - e))) (-1)) as [Hlt | _].
  { exfalso. replace (Cr * (- / Cr * (1 - e))) with (e - 1) in Hlt
      by (field; lra). lra. }
  rewrite div_ok by lra. cbn [bind].
  rewrite log_ok by lra. cbn [bind]. f_equal.
  unfold e. rewrite ln_exp. field. lra.
Qed.

Lemma round_trip_mixed_Cmax ridder (NTU Cr : R) :
  0 < Cr <= 1 -> 0 <= NTU ->
  round_trip ridder NTU Cr "crossflow, mixed Cmax" = Ok NTU.
Proof.
  intros HCr HN. unfold round_trip, effectiveness_from_NTU, NTU_from_effectiveness.
  destruct (Rgt_dec Cr 1); [lra |]. eval_tag.
  rewrite div_ok by lra. cbn [bind].
  rewrite div_ok by lra. cbn [bind].
  pose proof (exp_pos (- NTU)) as He0.
  assert (He1 : exp (- NTU) <= 1) by (apply exp_le_1; lra).
  set (e := exp (- NTU)) in *.
  replace (1 - 1 / Cr * (1 - exp (- Cr * (1 - e))) * Cr)
    with (exp (- Cr * (1 - e))) by (field; lra).
  rewrite log_ok by apply exp_pos. cbn [bind].
  rewrite ln_exp.
  replace (1 / Cr * (- Cr * (1 - e))) with (e - 1) by (field; lra).
  destruct (Rlt_dec (e - 1) (-1)); [lra |].
  replace (1 + (e - 1)) with e by ring.
  rewrite log_ok by lra. cbn [bind]. f_equal.
  unfold e. rewrite ln_exp. ring.
Qed.

Lemma round_trip_phase_change ridder (NTU Cr : R) (subtype : string) :
  Cr <= 1 -> subtype = "boiler"%string \/ subtype = "condenser"%string ->
  round_trip ridder NTU Cr subtype = Ok NTU.
Proof.
  intros HCr Hs. unfold round_trip, effectiveness_from_NTU, NTU_from_effectiveness.
  destruct (Rgt_dec Cr 1); [lra |].
  destruct Hs as [-> | ->]; eval_tag; cbn [bind];
    replace (1 - (1 - exp (- NTU))) with (exp (- NTU)) by ring;
    rewrite log_ok by apply exp_pos; cbn [bind];
    rewrite ln_exp; f_equal; ring.
Qed.

Lemma round_trip_shell_and_tube (NTU Cr : R) (shells : Z) :
  (1 <= shells)%Z -> 0 <= Cr < 1 -> 0 < NTU ->
  (eff <- shell_and_tube_effectiveness NTU Cr shells ;;
   shell_and_tube_NTU eff Cr shells) = Ok NTU.
Proof.
  intros Hshells HCr HN.
  pose proof (IZR_shells_pos shells Hshells) as Hn.
  pose proof (root_at_least_one Cr) as Hs.
  pose proof (root_inverse Cr) as Hinv.
  unfold shell_and_tube_effectiveness.
  rewrite div_ok by lra. cbn [bind].
  rewrite pow_pos by apply sum_of_square_pos. cbn [bind]. cbv zeta.
  set (s := Rpower (1 + Cr ^ 2) 0.5) in *.
  set (N1 := NTU / IZR shells).
  assert (HN1 : 0 < N1) by (apply Rdiv_lt_0_compat; lra).
  pose proof (exp_pos (- N1 * s)) as Hx0.
  assert (Hx1 : exp (- N1 * s) < 1) by (apply exp_lt_1; nra).
  assert (Hlnx : ln (exp (- N1 * s)) = - N1 * s) by apply ln_exp.
  set (x := exp (- N1 * s)) in *.
  rewrite div_ok by lra. cbn [bind].
  set (r := s * (1 + x) / (1 - x)).
  assert (Hr : r * (1 - x) = s * (1 + x)) by (unfold r; field; lra).
  assert (Hr1 : 1 < r) by nra.
  rewrite div_ok by lra. cbn [bind].
  set (e1 := 2 / (1 + Cr + r)).
  assert (He : e1 * (1 + Cr + r) = 2) by (unfold e1; field; lra).
  assert (He0 : 0 < e1) by (unfold e1; apply Rdiv_lt_0_compat; lra).
  assert (He1 : e1 < 1) by nra.
  set (b := (1 - e1 * Cr) / (1 - e1)).
  assert (Hb : b * (1 - e1) = 1 - e1 * Cr) by (unfold b; field; lra).
  assert (Hb1 : 1 < b) by nra.
  (* from the root [b] of the series term back to [NTU] *)
  assert (Htail : forall eff,
    eff - 1 <> 0 ->
    (eff * Cr - 1) / (eff - 1) = Rpower b (IZR shells) ->
    shell_and_tube_NTU eff Cr shells = Ok NTU).
  { intros eff Hne Hq. unfold shell_and_tube_NTU.
    rewrite div_ok by assumption. cbn [bind]. rewrite Hq.
    rewrite div_ok by lra. cbn [bind].
    rewrite pow_pos by apply exp_pos. cbn [bind].
    rewrite Rpower_mult.
    replace (IZR shells * (1 / IZR shells)) with 1 by (field; lra).
    rewrite Rpower_1 by lra.
    rewrite div_ok by lra. cbn [bind].
    replace ((b - 1) / (b - Cr)) with e1.
    2:{ apply (Rmult_eq_reg_r (b - Cr)); [| lra].
        replace ((b - 1) / (b - Cr) * (b - Cr)) with (b - 1) by (field; lra).
        apply (Rmult_eq_reg_r (1 - e1)); [| lra].
        replace ((b - 1) * (1 - e1)) with (b * (1 - e1) - (1 - e1)) by ring.
        replace (e1 * (b - Cr) * (1 - e1))
          with (e1 * (b * (1 - e1)) - e1 * Cr * (1 - e1)) by ring.
        rewrite Hb. ring. }
    rewrite div_ok by lra. cbn [bind].
    rewrite pow_pos by apply sum_of_square_pos. cbn [bind]. fold s.
    rewrite div_ok by lra. cbn [bind].
    replace ((2 / e1 - (1 + Cr)) / s) with ((1 + x) / (1 - x)).
    2:{ replace (2 / e1) with (1 + Cr + r) by (unfold e1; field; lra).
        unfold r. field. lra. }
    assert (Hg : ((1 + x) / (1 - x) - 1) / ((1 + x) / (1 - x) + 1) = x)
      by (field; lra).
    rewrite div_ok.
    2:{ replace ((1 + x) / (1 - x) + 1) with (2 / (1 - x)) by (field; lra).
        apply Rgt_not_eq. apply Rdiv_lt_0_compat; lra. }
    cbn [bind]. rewrite Hg.
    destruct (Rle_dec x 0); [lra |].
    rewrite pow_pos by apply sum_of_square_pos. cbn [bind].
    rewrite log_ok by lra. cbn [bind]. f_equal.
    rewrite Hinv, Hlnx. unfold N1. field. lra. }
  destruct (1 <? shells)%Z eqn:Hgt.
  - rewrite div_ok by lra. cbn [bind]. fold b.
    rewrite pow_int_nonzero by lra. cbn [bind].
    assert (Hterm : powerRZ b shells = Rpower b (IZR shells))
      by (apply powerRZ_Rpower; lra).
    assert (Hterm1 : 1 < Rpower b (IZR shells)).
    { unfold Rpower. apply exp_gt_1. apply Rmult_lt_0_compat; [lra |].
      rewrite <- ln_1. apply ln_increasing; lra. }
    rewrite Hterm. set (term := Rpower b (IZR shells)) in *.
    rewrite div_ok by lra. cbn [bind].
    apply Htail.
    + replace ((term - 1) / (term - Cr) - 1) with ((Cr - 1) / (term - Cr))
        by (field; lra).
      intros Hz. apply (Rmult_eq_compat_r (term - Cr)) in Hz.
      replace ((Cr - 1) / (term - Cr) * (term - Cr)) with (Cr - 1) in Hz
        by (field; lra). lra.
    + field. split; lra.
  - apply Z.ltb_ge in Hgt. assert (shells = 1%Z) by lia. subst shells.
    cbn [bind]. apply Htail.
    + lra.
    + rewrite Rpower_1 by lra. unfold b. field. split; lra.
Qed.

(** The approximate closed form of crossflow with both fluids unmixed, as
    the forward function and the residual evaluate it on [NTU > 0]. *)
Lemma crossflow_forward (NTU Cr : R) :
  0 < Cr <= 1 -> 0 < NTU ->
  effectiveness_from_NTU NTU Cr "crossflow"
  = Ok (1 - exp (1 / Cr * Rpower NTU 0.22 * (exp (- Cr * Rpower NTU 0.78) - 1))).
Proof.
  intros HCr HN. unfold effectiveness_from_NTU.
  destruct (Rgt_dec Cr 1); [lra |]. eval_tag.
  rewrite div_ok by lra. cbn [bind].
  rewrite !pow_pos by lra. reflexivity.
Qed.


(** The crossflow closed form is strictly increasing in [NTU]. *)
Lemma crossflow_increasing (Cr N1 N2 : R) :
  0 < Cr <= 1 -> 0 < N1 < N2 ->
  1 - exp (1 / Cr * Rpower N1 0.22 * (exp (- Cr * Rpower N1 0.78) - 1))
  < 1 - exp (1 / Cr * Rpower N2 0.22 * (exp (- Cr * Rpower N2 0.78) - 1)).
Proof.
  intros HCr HN.
  assert (Hp : Rpower N1 0.22 < Rpower N2 0.22) by (apply Rlt_Rpower_l; lra).
  assert (Hq : Rpower N1 0.78 < Rpower N2 0.78) by (apply Rlt_Rpower_l; lra).
  assert (Hp0 : 0 < Rpower N1 0.22) by apply exp_pos.
  assert (Hq0 : 0 < Rpower N1 0.78) by apply exp_pos.
  set (p1 := Rpower N1 0.22) in *. set (p2 := Rpower N2 0.22) in *.
  set (q1 := Rpower N1 0.78) in *. set (q2 := Rpower N2 0.78) in *.
  assert (Hg : exp (- Cr * q2) < exp (- Cr * q1)) by (apply exp_increasing; nra).
  assert (Hg1 : exp (- Cr * q1) < 1) by (apply exp_lt_1; nra).
  set (g1 := exp (- Cr * q1)) in *. set (g2 := exp (- Cr * q2)) in *.
  assert (Hc : 0 < 1 / Cr) by (apply Rdiv_lt_0_compat; lra).
  set (c := 1 / Cr) in *.
  assert (Hh : c * p2 * (g2 - 1) < c * p1 * (g1 - 1)).
  { assert (H1 : p2 * (g2 - 1) < p1 * (g1 - 1)) by nra.
    rewrite !Rmult_assoc. apply Rmult_lt_compat_l; assumption. }
  apply exp_increasing in Hh. lra.
Qed.







(** ** The feasibility test of the inverse correlations *)

Section ShellAndTubeBounds.

Variables (Cr : R) (shells : Z).
Hypothesis HCr : 0 < Cr < 1.
Hypothesis Hshells : (1 <= shells)%Z.

Local Abbreviation s := (sqrt (Cr ^ 2 + 1)).
Local Abbreviation x := ((- Cr + s + 1) / (Cr + s - 1)).
Local Abbreviation m := (powerRZ x shells).

Lemma root_above_one : 1 < s.
Proof.
  rewrite <- sqrt_1 at 1. apply sqrt_lt_1_alt.
  nra.
Qed.

Lemma ratio_above_one : 1 < x.
Proof.
  pose proof root_above_one as Hs.
  apply (Rmult_lt_reg_r (Cr + s - 1)); [lra |].
  unfold Rdiv. rewrite Rmult_assoc, Rinv_l by lra. lra.
Qed.

Lemma ratio_times_denominator : x * (Cr + s - 1) = - Cr + s + 1.
Proof.
  pose proof root_above_one as Hs. field. lra.
Qed.

Lemma series_term_above_one : 1 < m.
Proof.
  pose proof ratio_above_one as Hx.
  rewrite powerRZ_Rpower by lra.
  unfold Rpower. apply exp_gt_1.
  apply Rmult_lt_0_compat.
  - apply IZR_shells_pos in Hshells. lra.
  - rewrite <- ln_1. apply ln_increasing; lra.
Qed.

Lemma shell_and_tube_max_bounds : 0 < shell_and_tube_max Cr shells < 1.
Proof.
  pose proof series_term_above_one as Hm.
  unfold shell_and_tube_max. cbv zeta.
  split.
  - replace ((- m + 1) / (Cr - m)) with ((m - 1) / (m - Cr)) by (field; lra).
    apply Rdiv_lt_0_compat; lra.
  - apply (Rmult_lt_reg_r (m - Cr)); [lra |].
    replace ((- m + 1) / (Cr - m) * (m - Cr)) with (m - 1) by (field; lra).
    lra.
Qed.

Lemma root_as_power : Rpower (1 + Cr ^ 2) 0.5 = s.
Proof.
  rewrite Rpower_half by apply sum_of_square_pos.
  f_equal. ring.
Qed.

Lemma series_root (q : R) : m < q -> x < Rpower q (1 / IZR shells).
Proof.
  intros Hq.
  pose proof ratio_above_one as Hx. pose proof series_term_above_one as Hm.
  pose proof (IZR_shells_pos shells Hshells) as Hn.
  assert (Hroot : Rpower m (1 / IZR shells) = x).
  { rewrite powerRZ_Rpower by lra. rewrite Rpower_mult.
    replace (IZR shells * (1 / IZR shells)) with 1 by (field; lra).
    apply Rpower_1. lra. }
  rewrite <- Hroot. apply Rlt_Rpower_l.
  - apply Rdiv_lt_0_compat; lra.
  - lra.
Qed.

(** Above the maximum and below one, the test of line 483 fires and the
    message carries [shell_and_tube_max]. *)
Lemma shell_and_tube_guard (eff : R) :
  shell_and_tube_max Cr shells < eff -> eff < 1 ->
  shell_and_tube_NTU eff Cr shells
  = Raise (EffectivenessUnattainable (shell_and_tube_max Cr shells)).
Proof.
  intros Hlow Hhigh.
  pose proof root_above_one as Hs. pose proof ratio_above_one as Hx.
  pose proof series_term_above_one as Hm.
  pose proof ratio_times_denominator as Hxs.
  pose proof (IZR_shells_pos shells Hshells) as Hn.
  pose proof shell_and_tube_max_bounds as [Hmax0 _].
  unfold shell_and_tube_max in *. cbv zeta in *.
  unfold shell_and_tube_NTU.
  (* b *)
  rewrite div_ok by lra. cbn [bind].
  set (q := (eff * Cr - 1) / (eff - 1)).
  assert (Hq : m < q).
  { unfold q. apply (Rmult_lt_reg_r (1 - eff)); [lra |].
    replace ((eff * Cr - 1) / (eff - 1) * (1 - eff)) with (1 - eff * Cr)
      by (field; lra).
    assert (Hl : (- m + 1) < eff * (Cr - m) -> False).
    { intros Hc. apply (Rlt_irrefl eff).
      apply Rlt_trans with ((- m + 1) / (Cr - m)); [| exact Hlow].
      apply (Rmult_lt_reg_r (m - Cr)); [lra |].
      replace ((- m + 1) / (Cr - m) * (m - Cr)) with (m - 1) by (field; lra).
      lra. }
    assert (Hne : eff * (m - Cr) <> m - 1).
    { intros Heq. apply (Rlt_irrefl eff).
      replace eff with ((- m + 1) / (Cr - m)) at 1; [exact Hlow |].
      apply (Rmult_eq_reg_r (m - Cr)); [| lra].
      replace ((- m + 1) / (Cr - m) * (m - Cr)) with (m - 1) by (field; lra).
      lra. }
    nra. }
  (* 1/shells and F *)
  rewrite div_ok by lra. cbn [bind].
  rewrite pow_pos by lra. cbn [bind].
  pose proof (series_root q Hq) as HF.
  set (F := Rpower q (1 / IZR shells)) in *.
  (* e1 *)
  rewrite div_ok by lra. cbn [bind].
  set (e1 := (F - 1) / (F - Cr)).
  assert (He1 : 0 < e1) by (apply Rdiv_lt_0_compat; lra).
  rewrite div_ok by lra. cbn [bind].
  assert (Ht : 2 / e1 = 2 * (F - Cr) / (F - 1)) by (unfold e1; field; lra).
  rewrite Ht.
  (* s and E *)
  rewrite pow_pos by apply sum_of_square_pos. cbn [bind].
  rewrite root_as_power.
  rewrite div_ok by lra. cbn [bind].
  set (t := 2 * (F - Cr) / (F - 1)).
  assert (Ht2 : 2 < t).
  { unfold t. apply (Rmult_lt_reg_r (F - 1)); [lra |].
    replace (2 * (F - Cr) / (F - 1) * (F - 1)) with (2 * (F - Cr))
      by (field; lra). lra. }
  assert (Ht3 : t < 1 + Cr + s).
  { unfold t. apply (Rmult_lt_reg_r (F - 1)); [lra |].
    replace (2 * (F - Cr) / (F - 1) * (F - 1)) with (2 * (F - Cr))
      by (field; lra). nra. }
  set (E := (t - (1 + Cr)) / s).
  assert (HE0 : 0 < E) by (apply Rdiv_lt_0_compat; lra).
  assert (HE1 : E < 1).
  { unfold E. apply (Rmult_lt_reg_r s); [lra |].
    replace ((t - (1 + Cr)) / s * s) with (t - (1 + Cr)) by (field; lra).
    lra. }
  rewrite div_ok by lra. cbn [bind].
  destruct (Rle_dec ((E - 1) / (E + 1)) 0) as [_ | Hpos].
  2:{ exfalso. apply Hpos. left.
      apply (Rmult_lt_reg_r (E + 1)); [lra |].
      replace ((E - 1) / (E + 1) * (E + 1)) with (E - 1) by (field; lra).
      lra. }
  (* the maximum *)
  rewrite sqrt_ok by nra. cbn [bind].
  rewrite div_ok by lra. cbn [bind].
  rewrite pow_int_nonzero by lra. cbn [bind].
  rewrite div_ok by lra. cbn [bind].
  reflexivity.
Qed.

End ShellAndTubeBounds.

(** The maximum of five shells at [Cr = 0.7]. *)
Lemma five_shell_maximum :
  0.9741229 < shell_and_tube_max 0.7 5 < 0.9741231.
Proof.
  unfold shell_and_tube_max.
  replace (0.7 ^ 2 + 1) with 1.49 by lra.
  assert (Hs : 1.2206555 < sqrt 1.49 < 1.2206556).
  { pose proof (sqrt_pos 1.49) as H0.
    pose proof (sqrt_sqrt 1.49 ltac:(lra)) as H2.
    split; nra. }
  set (s := sqrt 1.49) in *.
  assert (Hx : 1.65170949 < (- (0.7) + s + 1) / (0.7 + s - 1) < 1.65170957).
  { split.
    - apply (Rmult_lt_reg_r (0.7 + s - 1)); [lra |].
      replace ((- (0.7) + s + 1) / (0.7 + s - 1) * (0.7 + s - 1))
        with (- (0.7) + s + 1) by (field; lra).
      lra.
    - apply (Rmult_lt_reg_r (0.7 + s - 1)); [lra |].
      replace ((- (0.7) + s + 1) / (0.7 + s - 1) * (0.7 + s - 1))
        with (- (0.7) + s + 1) by (field; lra).
      lra. }
  set (x := (- (0.7) + s + 1) / (0.7 + s - 1)) in *.
  change (powerRZ x 5) with (x ^ 5).
  assert (H2 : 2.72814423 < x * x < 2.72814451) by (split; nra).
  set (x2 := x * x) in *.
  assert (H4 : 7.4427709 < x2 * x2 < 7.4427725) by (split; nra).
  set (x4 := x2 * x2) in *.
  assert (H5 : 12.293295 < x4 * x < 12.293299) by (split; nra).
  replace (x ^ 5) with (x4 * x) by (unfold x4, x2; ring).
  set (m := x4 * x) in *.
  split.
  - apply (Rmult_lt_reg_r (m - 0.7)); [lra |].
    replace ((- m + 1) / (0.7 - m) * (m - 0.7)) with (m - 1) by (field; lra).
    lra.
  - apply (Rmult_lt_reg_r (m - 0.7)); [lra |].
    replace ((- m + 1) / (0.7 - m) * (m - 0.7)) with (m - 1) by (field; lra).
    lra.
Qed.

Lemma parallel_guard ridder (eff Cr : R) :
  0 < Cr <= 1 -> 1 / (Cr + 1) < eff ->
  NTU_from_effectiveness ridder eff Cr "parallel"
  = Raise (EffectivenessUnattainable (1 / (Cr + 1))).
Proof.
  intros HCr Heff. unfold NTU_from_effectiveness.
  destruct (Rgt_dec Cr 1); [lra |]. eval_tag.
  destruct (Rgt_dec (eff * (1 + Cr)) 1) as [_ | Hn].
  - rewrite div_ok by lra. reflexivity.
  - exfalso. apply Hn.
    apply (Rmult_lt_compat_r (1 + Cr)) in Heff; [| lra].
    replace (1 / (Cr + 1) * (1 + Cr)) with 1 in Heff by (field; lra).
    lra.
Qed.

Lemma mixed_Cmin_guard ridder (eff Cr : R) :
  0 < Cr <= 1 -> 1 - exp (-1 / Cr) < eff -> eff < 1 ->
  NTU_from_effectiveness ridder eff Cr "crossflow, mixed Cmin"
  = Raise (EffectivenessUnattainable (1 - exp (-1 / Cr))).
Proof.
  intros HCr Hlow Hhigh. unfold NTU_from_effectiveness.
  destruct (Rgt_dec Cr 1); [lra |]. eval_tag.
  rewrite log_ok by lra. cbn [bind].
  destruct (Rlt_dec (Cr * ln (1 - eff)) (-1)) as [_ | Hn].
  - rewrite div_ok by lra. reflexivity.
  - exfalso. apply Hn.
    assert (Hln : ln (1 - eff) < -1 / Cr).
    { rewrite <- (ln_exp (-1 / Cr)). apply ln_increasing; lra. }
    apply (Rmult_lt_compat_l Cr) in Hln; [| lra].
    replace (Cr * (-1 / Cr)) with (-1) in Hln by (field; lra).
    exact Hln.
Qed.

Lemma mixed_Cmax_guard ridder (eff Cr : R) :
  0 < Cr <= 1 -> (exp Cr - 1) * exp (- Cr) / Cr < eff -> eff < 1 ->
  NTU_from_effectiveness ridder eff Cr "crossflow, mixed Cmax"
  = Raise (EffectivenessUnattainable ((exp Cr - 1) * exp (- Cr) / Cr)).
Proof.
  intros HCr Hlow Hhigh. unfold NTU_from_effectiveness.
  destruct (Rgt_dec Cr 1); [lra |]. eval_tag.
  pose proof (exp_times_exp_opp Cr) as Hee.
  pose proof (exp_pos (- Cr)) as Hen.
  assert (Hlow' : 1 - exp (- Cr) < eff * Cr).
  { apply (Rmult_lt_compat_r Cr) in Hlow; [| lra].
    replace ((exp Cr - 1) * exp (- Cr) / Cr * Cr)
      with (exp Cr * exp (- Cr) - exp (- Cr)) in Hlow by (field; lra).
    lra. }
  assert (Hprod : eff * Cr < 1) by nra.
  rewrite div_ok by lra. cbn [bind].
  rewrite log_ok by lra. cbn [bind].
  destruct (Rlt_dec (1 / Cr * ln (1 - eff * Cr)) (-1)) as [_ | Hn].
  - rewrite div_ok by lra. reflexivity.
  - exfalso. apply Hn.
    assert (Hln : ln (1 - eff * Cr) < - Cr).
    { rewrite <- (ln_exp (- Cr)). apply ln_increasing; lra. }
    apply (Rmult_lt_compat_l (1 / Cr)) in Hln.
    + replace (1 / Cr * - Cr) with (-1) in Hln by (field; lra). exact Hln.
    + apply Rdiv_lt_0_compat; lra.
Qed.

Lemma guarded_maximum_below_one (subtype : string) (Cr mx : R) :
  guarded_maximum subtype Cr mx -> 0 < mx < 1.
Proof.
  intros H. destruct H as [Cr HCr | subtype shells Cr Hst Hn HCr | Cr HCr | Cr HCr].
  - split.
    + apply Rdiv_lt_0_compat; lra.
    + apply (Rmult_lt_reg_r (Cr + 1)); [lra |].
      replace (1 / (Cr + 1) * (Cr + 1)) with 1 by (field; lra). lra.
  - apply shell_and_tube_max_bounds; assumption.
  - assert (H : -1 / Cr < 0).
    { replace (-1 / Cr) with (- (1 / Cr)) by (field; lra).
      apply Ropp_lt_gt_0_contravar. apply Rdiv_lt_0_compat; lra. }
    pose proof (exp_pos (-1 / Cr)). pose proof (exp_lt_1 _ H). lra.
  - pose proof (exp_times_exp_opp Cr) as Hee.
    pose proof (exp_pos (- Cr)) as Hen.
    assert (H1 : exp (- Cr) < 1) by (apply exp_lt_1; lra).
    assert (H2 : 1 + - Cr < exp (- Cr)) by (apply exp_ineq1; lra).
    replace ((exp Cr - 1) * exp (- Cr))
      with (exp Cr * exp (- Cr) - exp (- Cr)) by ring.
    rewrite Hee. split.
    + apply Rdiv_lt_0_compat; lra.
    + apply (Rmult_lt_reg_r Cr); [lra |].
      replace ((1 - exp (- Cr)) / Cr * Cr) with (1 - exp (- Cr)) by (field; lra).
      lra.
Qed.

(** C2.  [NTU_from_effectiveness] tests feasibility in its parallel,
    shell-and-tube and mixed-crossflow branches (the counterflow branch has
    no test).  For [0 < Cr <= 1] ([Cr < 1] for shell-and-tube, at least one
    shell) the maximum of the branch lies strictly between 0 and 1, and an
    effectiveness above it and below 1 (parallel: any effectiveness above
    it) raises the unattainable-effectiveness exception carrying that
    maximum.  In particular [NTU_from_effectiveness(0.99, 0.7, '5S&T')]
    raises it with a maximum within [1e-6] of 0.974123. *)
Theorem unattainable_effectiveness_rejected :
  (forall ridder (subtype : string) (Cr mx : R),
      guarded_maximum subtype Cr mx ->
      0 < mx < 1 /\
      forall eff : R,
        mx < eff -> eff < 1 \/ subtype = "parallel"%string ->
        NTU_from_effectiveness ridder eff Cr subtype
        = Raise (EffectivenessUnattainable mx)) /\
  (forall ridder, exists mx : R,
      NTU_from_effectiveness ridder 0.99 0.7 "5S&T"
      = Raise (EffectivenessUnattainable mx) /\
      Rabs (mx - 0.974123) < 1e-6).
Proof.
  assert (Hgen : forall ridder (subtype : string) (Cr mx : R),
      guarded_maximum subtype Cr mx ->
      0 < mx < 1 /\
      forall eff : R,
        mx < eff -> eff < 1 \/ subtype = "parallel"%string ->
        NTU_from_effectiveness ridder eff Cr subtype
        = Raise (EffectivenessUnattainable mx)).
  { intros ridder subtype Cr mx Hg.
    split; [exact (guarded_maximum_below_one _ _ _ Hg) |].
    intros eff Hlow Hhigh.
    destruct Hg as [Cr HCr | subtype shells Cr Hst Hn HCr | Cr HCr | Cr HCr].
    - apply parallel_guard; assumption.
    - destruct Hhigh as [Hhigh | ->].
      + rewrite (NTU_shell_and_tube ridder eff Cr subtype shells Hst) by lra.
        apply shell_and_tube_guard; assumption.
      + destruct (shell_and_tube_dispatch _ _ Hst) as [_ H]. discriminate H.
    - destruct Hhigh as [Hhigh | H]; [| discriminate H].
      apply mixed_Cmin_guard; assumption.
    - destruct Hhigh as [Hhigh | H]; [| discriminate H].
      apply mixed_Cmax_guard; assumption. }
  split; [exact Hgen |].
  intros ridder. exists (shell_and_tube_max 0.7 5).
  pose proof five_shell_maximum as [Hlo Hhi].
  split.
  - apply Hgen.
    + apply (max_shell_and_tube "5S&T" 5 0.7); [split; reflexivity | lia | lra].
    + lra.
    + left. lra.
  - unfold Rabs. destruct (Rcase_abs _); lra.
Qed.

Lemma unattainable_effectiveness_rejected_witness :
  0 < shell_and_tube_max 0.7 5 < 1 /\
  NTU_from_effectiveness ridder_unused 0.99 0.7 "5S&T"
  = Raise (EffectivenessUnattainable (shell_and_tube_max 0.7 5)).
Proof.
  pose proof five_shell_maximum as [Hlo Hhi].
  pose proof (proj1 unattainable_effectiveness_rejected ridder_unused
                "5S&T"%string 0.7 (shell_and_tube_max 0.7 5)
                (max_shell_and_tube "5S&T" 5 0.7 (conj eq_refl eq_refl)
                   ltac:(lia) ltac:(lra))) as [Hb Hr].
  split; [exact Hb |].
  apply Hr; [lra | left; lra].
Defined.

(** The counterflow branch has no feasibility test: an effectiveness of 2
    at [Cr = 0.75] yields a (negative) number of transfer units.  In the
    mixed-Cmin branch an effectiveness of 1 fails in [math.log] before the
    test is reached. *)
Lemma feasibility_test_gaps :
  NTU_from_effectiveness ridder_unused 2 0.75 "counterflow"
  = Ok (1 / (0.75 - 1) * ln ((2 - 1) / (2 * 0.75 - 1))) /\
  NTU_from_effectiveness ridder_unused 1 0.5 "crossflow, mixed Cmin"
  = Raise ValueError.
Proof.
  unfold NTU_from_effectiveness. split.
  - destruct (Rgt_dec 0.75 1); [lra |]. eval_tag.
    destruct (Rlt_dec 0.75 1); [| lra].
    rewrite !div_ok by lra. cbn [bind].
    rewrite log_ok; [reflexivity |].
    apply Rdiv_lt_0_compat; lra.
  - destruct (Rgt_dec 0.5 1); [lra |]. eval_tag.
    rewrite log_domain by lra. reflexivity.
Qed.

(** ** Energy balance of the solver's result *)

(** With [UA] given, lines 869-876 compute one temperature of each stream
    from the other one and [Q]: both streams carry exactly [Q]. *)
Lemma finish_with_UA_balance :
  forall (UA Cr Cmin Cmax eff NTU Cc Ch : R) (Q Thi Tho Tci Tco : option R)
         (r : Solved.t),
    finish_with_UA UA Cr Cmin Cmax eff NTU Cc Ch Q Thi Tho Tci Tco = Ok r ->
    Ch * (Solved.Thi r - Solved.Tho r) = Solved.Q r /\
    Cc * (Solved.Tco r - Solved.Tci r) = Solved.Q r.
Proof.
  intros UA Cr Cmin Cmax eff NTU Cc Ch Q Thi Tho Tci Tco r.
  unfold finish_with_UA.
  repeat run; try discriminate; take_result;
    cbn [Solved.Thi Solved.Tho Solved.Tci Solved.Tco Solved.Q fst snd];
    split; field; assumption.
Qed.

(** Without [UA], when the join of line 904 is reached with a temperature
    the solver computed itself, both streams carry exactly [Q]. *)
Lemma temperatures_without_UA_balance :
  forall (mh mc Cph Cpc : R) (Thi Tho Tci Tco : option R) (l : Locals.t),
    temperatures_without_UA mh mc Cph Cpc Thi Tho Tci Tco = Ok l ->
    is_some Thi && is_some Tho && is_some Tci && is_some Tco = false ->
    forall q thi tho tci tco,
      Locals.Q l = Some q -> Locals.Thi l = Some thi -> Locals.Tho l = Some tho ->
      Locals.Tci l = Some tci -> Locals.Tco l = Some tco ->
      mh * Cph * (thi - tho) = q /\ mc * Cpc * (tco - tci) = q.
Proof.
  intros mh mc Cph Cpc Thi Tho Tci Tco l.
  unfold temperatures_without_UA.
  destruct Thi, Tho, Tci, Tco; cbn [is_some andb]; cbv zeta;
    repeat run; try discriminate; take_result; try discriminate; intros _;
    cbn [Locals.Q Locals.Thi Locals.Tho Locals.Tci Locals.Tco];
    intros q thi tho tci tco H1 H2 H3 H4 H5;
    try discriminate;
    injection H1 as <-; injection H2 as <-; injection H3 as <-;
    injection H4 as <-; injection H5 as <-;
    split; try reflexivity;
    first [apply carried_forward | apply carried_back]; assumption.
Qed.

(** C3.  For every result [effectiveness_NTU_method] returns, the duty
    given up by the hot stream and the duty taken up by the cold stream
    are compared with the returned [Q].  When [UA] is given, or when at
    most three temperatures are given, one temperature of each stream is
    computed from [Q], both duties equal [Q] and the relative imbalance is
    below [1e-6] (it is zero in exact arithmetic).  When [UA] is absent and
    all four temperatures are given, none is recomputed: [Q] is the hot
    duty, it is not zero, and the relative imbalance is at most the
    tolerance [0.01] of the cross-check of line 890. *)
Theorem energy_balance :
  forall ridder (mh mc Cph Cpc : R) (subtype : string)
         (Thi Tho Tci Tco UA : option R) (r : Solved.t),
    effectiveness_NTU_method ridder mh mc Cph Cpc subtype Thi Tho Tci Tco UA
    = Ok r ->
    let hot := mh * Cph * (Solved.Thi r - Solved.Tho r) in
    let cold := mc * Cpc * (Solved.Tco r - Solved.Tci r) in
    let cross_checked :=
      negb (is_some UA) && (is_some Thi && is_some Tho && is_some Tci && is_some Tco) in
    (cross_checked = false ->
       hot = Solved.Q r /\ cold = Solved.Q r /\
       Rabs (hot - cold) / Rabs (Solved.Q r) < 1e-6) /\
    (cross_checked = true ->
       hot = Solved.Q r /\ Solved.Q r <> 0 /\
       Rabs (hot - cold) / Rabs (Solved.Q r) <= 0.01).
Proof.
  intros ridder mh mc Cph Cpc subtype Thi Tho Tci Tco UA r Hcall hot cold cc.
  assert (Hzero : hot = Solved.Q r -> cold = Solved.Q r ->
                  Rabs (hot - cold) / Rabs (Solved.Q r) < 1e-6).
  { intros -> ->. unfold Rminus. rewrite Rplus_opp_r, Rabs_R0.
    unfold Rdiv. rewrite Rmult_0_l. lra. }
  unfold effectiveness_NTU_method in Hcall.
  destruct (calc_Cr mh mc Cph Cpc) as [Cr |]; cbn [bind] in Hcall;
    [| discriminate].
  destruct UA as [UA |].
  - (* UA given *)
    split; [intros _ | unfold cc; cbn [is_some negb andb]; discriminate].
    destruct (NTU_from_UA UA (calc_Cmin mh mc Cph Cpc)) as [NTU |];
      cbn [bind] in Hcall; [| discriminate].
    destruct (effectiveness_from_NTU NTU Cr subtype) as [eff |];
      cbn [bind] in Hcall; [| discriminate].
    destruct (negb _) in Hcall; [discriminate |].
    destruct (duty_from_UA _ _ _ _ _ _ _ _) as [Q |] in Hcall;
      cbn [bind] in Hcall; [| discriminate].
    destruct (finish_with_UA_balance _ _ _ _ _ _ _ _ _ _ _ _ _ _ Hcall)
      as [Hh Hc].
    split; [exact Hh |]. split; [exact Hc |]. apply Hzero; assumption.
  - (* UA absent *)
    destruct (temperatures_without_UA mh mc Cph Cpc Thi Tho Tci Tco)
      as [l |] eqn:Hl; cbn [bind] in Hcall; [| discriminate].
    revert Hcall. unfold finish_without_UA.
    destruct (Locals.Q l) as [q |] eqn:HQ; cbn [Py.load bind]; [| discriminate].
    destruct (Py.div q (calc_Cmin mh mc Cph Cpc)); cbn [bind]; [| discriminate].
    destruct (Locals.Thi l) as [thi |] eqn:H1; cbn [Py.num bind]; [| discriminate].
    destruct (Locals.Tci l) as [tci |] eqn:H2; cbn [Py.num bind]; [| discriminate].
    destruct (Py.div a (thi - tci)); cbn [bind]; [| discriminate].
    destruct (NTU_from_effectiveness ridder a0 Cr subtype); cbn [bind];
      [| discriminate].
    destruct (Locals.Tho l) as [tho |] eqn:H3; cbn [Py.num bind]; [| discriminate].
    destruct (Locals.Tco l) as [tco |] eqn:H4; cbn [Py.num bind]; [| discriminate].
    intros Hr. apply Ok_inj in Hr.
    assert (Hf : Solved.Q r = q /\ Solved.Thi r = thi /\ Solved.Tho r = tho /\
                 Solved.Tci r = tci /\ Solved.Tco r = tco).
    { rewrite <- Hr. cbn. repeat split. }
    destruct Hf as (Eq & E1 & E2 & E3 & E4).
    unfold hot, cold in *. rewrite Eq, E1, E2, E3, E4 in *.
    unfold cc. cbn [is_some negb andb].
    split.
    + intros Hcc.
      destruct (temperatures_without_UA_balance _ _ _ _ _ _ _ _ _ Hl Hcc
                  q thi tho tci tco HQ H1 H3 H2 H4) as [Hh Hc].
      split; [exact Hh |]. split; [exact Hc |]. apply Hzero; assumption.
    + intros Hcc.
      destruct Thi as [thi' |], Tho as [tho' |], Tci as [tci' |], Tco as [tco' |];
        try discriminate Hcc.
      revert Hl. unfold temperatures_without_UA. cbv zeta.
      unfold Py.div.
      destruct (Req_dec_T (mh * Cph * (thi' - tho')) 0) as [Hz | Hnz];
        cbn [bind]; [discriminate |].
      destruct (Rgt_dec _ 0.01) as [Hgt | Hle]; [discriminate |].
      intros Hl'. apply Ok_inj in Hl'. rewrite <- Hl' in *.
      cbn [Locals.Q Locals.Thi Locals.Tho Locals.Tci Locals.Tco] in *.
      injection HQ as <-. injection H1 as <-. injection H2 as <-.
      injection H3 as <-. injection H4 as <-.
      split; [reflexivity |]. split; [exact Hnz |].
      unfold Rdiv at 1. rewrite <- Rabs_inv, <- Rabs_mult. fold (Rdiv (mh * Cph * (thi' - tho') - mc * Cpc * (tco' - tci')) (mh * Cph * (thi' - tho'))). lra.
Qed.

Lemma rated_example_solved :
  effectiveness_NTU_method ridder_unused 1 1 1 1 "counterflow"
    (Some 100) None (Some 50) None (Some 1)
  = Ok rated_example.
Proof.
  unfold_method. rewrite Rmin_unit, Rmax_unit_eq.
  unfold effectiveness_from_NTU, duty_from_UA, finish_with_UA.
  eval_tag. cbn [existsb fst snd is_some andb orb negb].
  eval_py. cbn [fst snd]. unfold rated_example.
  f_equal. f_equal; lra.
Qed.

Lemma cross_checked_example_solved :
  effectiveness_NTU_method ridder_unused 1 1 1 1 "counterflow"
    (Some 100) (Some 50) (Some 0) (Some 49.8) None
  = Ok cross_checked_example.
Proof.
  unfold_method. rewrite Rmin_unit, Rmax_unit_eq.
  unfold temperatures_without_UA, finish_without_UA, NTU_from_effectiveness.
  eval_tag. cbv zeta.
  eval_py.
  cbn [bind Locals.Q Locals.Thi Locals.Tho Locals.Tci Locals.Tco Py.load Py.num].
  eval_py. unfold cross_checked_example, UA_from_NTU.
  f_equal. f_equal; lra.
Qed.

Lemma energy_balance_witness :
  Rabs (1 * 1 * (Solved.Thi rated_example - Solved.Tho rated_example)
        - 1 * 1 * (Solved.Tco rated_example - Solved.Tci rated_example))
  / Rabs (Solved.Q rated_example) < 1e-6 /\
  Rabs (1 * 1 * (Solved.Thi cross_checked_example - Solved.Tho cross_checked_example)
        - 1 * 1 * (Solved.Tco cross_checked_example - Solved.Tci cross_checked_example))
  / Rabs (Solved.Q cross_checked_example) <= 0.01.
Proof.
  split.
  - exact (proj2 (proj2 (proj1 (energy_balance ridder_unused 1 1 1 1 "counterflow"
             (Some 100) None (Some 50) None (Some 1) rated_example
             rated_example_solved) eq_refl))).
  - exact (proj2 (proj2 (proj2 (energy_balance ridder_unused 1 1 1 1 "counterflow"
             (Some 100) (Some 50) (Some 0) (Some 49.8) None cross_checked_example
             cross_checked_example_solved) eq_refl))).
Defined.

(** A returned result whose relative imbalance is 0.004: four temperatures
    given without [UA], 0.4 % apart, pass the cross-check and are returned
    as they came. *)
Lemma energy_balance_not_within_1e6 :
  effectiveness_NTU_method ridder_unused 1 1 1 1 "counterflow"
    (Some 100) (Some 50) (Some 0) (Some 49.8) None
  = Ok cross_checked_example /\
  ~ Rabs (1 * 1 * (Solved.Thi cross_checked_example - Solved.Tho cross_checked_example)
          - 1 * 1 * (Solved.Tco cross_checked_example - Solved.Tci cross_checked_example))
    / Rabs (Solved.Q cross_checked_example) < 1e-6.
Proof.
  split; [exact cross_checked_example_solved |].
  cbn [cross_checked_example Solved.Thi Solved.Tho Solved.Tci Solved.Tco Solved.Q].
  replace (1 * 1 * (100 - 50) - 1 * 1 * (49.8 - 0)) with 0.2 by lra.
  rewrite !Rabs_pos_eq by lra. lra.
Qed.

(** ** The cross-check of four temperatures *)

(** The inverse correlation raises the inconsistency exception only if the
    root finder does. *)
Lemma NTU_from_effectiveness_not_inconsistent :
  forall ridder (effectiveness Cr : R) (subtype : string),
    (forall f a b, ridder f a b <> Raise InconsistentInput) ->
    NTU_from_effectiveness ridder effectiveness Cr subtype
    <> Raise InconsistentInput.
Proof.
  intros ridder effectiveness Cr subtype Hr.
  unfold NTU_from_effectiveness, shell_and_tube_NTU. unfold_py.
  pose proof (shell_count_raises subtype) as Hs.
  destruct (shell_count subtype) as [shells | e];
    [| rewrite (Hs e eq_refl)];
    repeat step_bind; try discriminate; apply Hr.
Qed.

Lemma finish_without_UA_not_inconsistent :
  forall ridder (Cr Cmin Cmax : R) (subtype : string) (l : Locals.t),
    (forall f a b, ridder f a b <> Raise InconsistentInput) ->
    finish_without_UA ridder Cr Cmin Cmax subtype l <> Raise InconsistentInput.
Proof.
  intros ridder Cr Cmin Cmax subtype l Hr.
  unfold finish_without_UA.
  destruct l as [[q|] [thi|] [tho|] [tci|] [tco|]];
    cbn [Locals.Q Locals.Thi Locals.Tho Locals.Tci Locals.Tco Py.load Py.num bind];
    try discriminate;
    unfold Py.div;
    destruct (Req_dec_T Cmin 0); cbn [bind]; try discriminate;
    destruct (Req_dec_T (thi - tci) 0); cbn [bind]; try discriminate;
    match goal with
    | |- context [NTU_from_effectiveness ridder ?e Cr subtype] =>
        pose proof (NTU_from_effectiveness_not_inconsistent ridder e Cr subtype Hr) as Hn;
        destruct (NTU_from_effectiveness ridder e Cr subtype)
    end;
    cbn [bind]; try discriminate;
    intros Heq; apply Hn; inversion Heq; reflexivity.
Qed.

(** C7.  Called without [UA] and with all four temperatures, the solver
    computes the hot-side duty [Q = mh*Cph*(Thi - Tho)] and the cold-side
    duty [Q2 = mc*Cpc*(Tco - Tci)].  When [Q] is not zero the call raises
    the inconsistency exception if [|(Q - Q2)/Q| > 0.01] and otherwise goes
    on to lines 904-909 with the hot-side [Q] and the four temperatures as
    given; with a root finder that does not raise that exception itself,
    the call raises it exactly when [|(Q - Q2)/Q| > 0.01]. *)
Theorem four_temperatures_cross_check :
  forall ridder (mh mc Cph Cpc : R) (subtype : string) (thi tho tci tco Cr : R),
    let Q := mh * Cph * (thi - tho) in
    let Q2 := mc * Cpc * (tco - tci) in
    let call := effectiveness_NTU_method ridder mh mc Cph Cpc subtype
                  (Some thi) (Some tho) (Some tci) (Some tco) None in
    calc_Cr mh mc Cph Cpc = Ok Cr ->
    Q <> 0 ->
    (Rabs ((Q - Q2) / Q) > 0.01 -> call = Raise InconsistentInput) /\
    (~ Rabs ((Q - Q2) / Q) > 0.01 ->
       call = finish_without_UA ridder Cr (calc_Cmin mh mc Cph Cpc)
                (calc_Cmax mh mc Cph Cpc) subtype
                (Locals.mk (Some Q) (Some thi) (Some tho) (Some tci) (Some tco))) /\
    ((forall f a b, ridder f a b <> Raise InconsistentInput) ->
       (call = Raise InconsistentInput <-> Rabs ((Q - Q2) / Q) > 0.01)).
Proof.
  intros ridder mh mc Cph Cpc subtype thi tho tci tco Cr Q Q2 call HCr HQ.
  assert (Hcall : call =
            if Rgt_dec (Rabs ((Q - Q2) / Q)) 0.01 then Raise InconsistentInput
            else finish_without_UA ridder Cr (calc_Cmin mh mc Cph Cpc)
                   (calc_Cmax mh mc Cph Cpc) subtype
                   (Locals.mk (Some Q) (Some thi) (Some tho) (Some tci) (Some tco))).
  { unfold call, effectiveness_NTU_method. rewrite HCr. cbn [bind].
    unfold temperatures_without_UA. fold Q. fold Q2.
    rewrite (div_ok _ Q HQ). cbn [bind].
    destruct (Rgt_dec (Rabs ((Q - Q2) / Q)) 0.01); reflexivity. }
  rewrite Hcall.
  destruct (Rgt_dec (Rabs ((Q - Q2) / Q)) 0.01) as [Hgt | Hle].
  - split; [reflexivity |]. split; [contradiction |].
    intros _. split; [intros _; exact Hgt | reflexivity].
  - split; [contradiction |]. split; [reflexivity |].
    intros Hr. split; [| contradiction].
    intros Hf. exfalso.
    exact (finish_without_UA_not_inconsistent ridder _ _ _ _ _ Hr Hf).
Qed.

Lemma four_temperatures_cross_check_witness :
  effectiveness_NTU_method ridder_unused 1 1 1 1 "counterflow"
    (Some 100) (Some 50) (Some 0) (Some 60) None
  = Raise InconsistentInput.
Proof.
  refine (proj1 (four_temperatures_cross_check ridder_unused 1 1 1 1
                   "counterflow" 100 50 0 60 _ _ _) _).
  - unfold calc_Cr. apply div_ok. exact Rmax_unit.
  - lra.
  - unfold Rabs. destruct (Rcase_abs _); lra.
Defined.

(** With equal hot-side temperatures the hot-side duty is zero and the
    relative difference of line 890 divides by it: the call ends in
    ZeroDivisionError, which is neither the inconsistency exception nor the
    continuation with the hot-side duty. *)
Lemma four_temperatures_zero_duty :
  equal_hot_temperatures_call = Raise ZeroDivisionError /\
  equal_hot_temperatures_call <> Raise InconsistentInput /\
  equal_hot_temperatures_call
  <> finish_without_UA ridder_unused (1 * 1 / (1 * 1)) (calc_Cmin 1 1 1 1)
       (calc_Cmax 1 1 1 1) "counterflow"
       (Locals.mk (Some (1 * 1 * (100 - 100))) (Some 100) (Some 100)
          (Some 0) (Some 50)).
Proof.
  assert (H : equal_hot_temperatures_call = Raise ZeroDivisionError).
  { unfold equal_hot_temperatures_call. unfold_method.
    rewrite (div_ok _ _ Rmax_unit). cbn [bind].
    unfold temperatures_without_UA.
    rewrite div_zero by lra. reflexivity. }
  rewrite H. split; [reflexivity |]. split; [discriminate |].
  unfold finish_without_UA, calc_Cmin, calc_Cmax.
  cbn [Locals.Q Locals.Thi Locals.Tho Locals.Tci Locals.Tco Py.load Py.num bind].
  rewrite Rmin_unit.
  rewrite div_ok by lra. cbn [bind].
  rewrite div_ok by lra. cbn [bind].
  unfold NTU_from_effectiveness.
  destruct (Rgt_dec (1 * 1 / (1 * 1)) 1); [lra |].
  eval_tag.
  destruct (Rlt_dec (1 * 1 / (1 * 1)) 1); [lra |].
  destruct (Req_dec_T (1 * 1 / (1 * 1)) 1); [| lra].
  rewrite div_ok by lra. cbn [bind]. discriminate.
Qed.

(** ** Inputs that leave the duty unassigned *)

(** C8.  Called without [UA] while neither the hot side nor the cold side
    has both of its temperatures, the solver reaches line 904 with [Q]
    never assigned: the outcome is Python's UnboundLocalError, not the
    insufficient-input exception. *)
Theorem neither_side_known_unbound_Q :
  forall ridder (mh mc Cph Cpc : R) (subtype : string)
         (Thi Tho Tci Tco : option R),
    Rmax (mh * Cph) (mc * Cpc) <> 0 ->
    Thi = None \/ Tho = None ->
    Tci = None \/ Tco = None ->
    effectiveness_NTU_method ridder mh mc Cph Cpc subtype Thi Tho Tci Tco None
    = Raise UnboundLocalError.
Proof.
  intros ridder mh mc Cph Cpc subtype Thi Tho Tci Tco Hmax Hhot Hcold.
  unfold_method. rewrite div_ok by assumption. cbn [bind].
  destruct Thi, Tho, Tci, Tco; try reflexivity;
    destruct Hhot, Hcold; discriminate.
Qed.

Lemma neither_side_known_unbound_Q_witness :
  effectiveness_NTU_method ridder_unused 1 1 1 1 "counterflow"
    (Some 100) None None (Some 50) None
  = Raise UnboundLocalError.
Proof.
  apply neither_side_known_unbound_Q.
  - unfold Rmax. destruct (Rle_dec (1 * 1) (1 * 1)); lra.
  - right. reflexivity.
  - left. reflexivity.
Defined.

(** C10.  With [UA] given, a hot inlet temperature and a cold inlet
    temperature equal to zero (the two outlets unknown), the input passes
    the check of lines 851-853, every truth test of lines 855-862 fails
    because [Tci = 0] is false in Python, no branch assigns [Q], and the
    call ends in UnboundLocalError instead of returning the dictionary. *)
Theorem zero_inlet_leaves_Q_unbound :
  forall ridder (mh mc Cph Cpc : R) (subtype : string) (thi UA Cr NTU eff : R),
    calc_Cr mh mc Cph Cpc = Ok Cr ->
    NTU_from_UA UA (calc_Cmin mh mc Cph Cpc) = Ok NTU ->
    effectiveness_from_NTU NTU Cr subtype = Ok eff ->
    duty_from_UA eff (calc_Cmin mh mc Cph Cpc) (mc * Cpc) (mh * Cph)
      (Some thi) None (Some 0) None = Ok None /\
    effectiveness_NTU_method ridder mh mc Cph Cpc subtype
      (Some thi) None (Some 0) None (Some UA)
    = Raise UnboundLocalError.
Proof.
  intros ridder mh mc Cph Cpc subtype thi UA Cr NTU eff HCr HNTU Heff.
  assert (Hd : duty_from_UA eff (calc_Cmin mh mc Cph Cpc) (mc * Cpc) (mh * Cph)
                 (Some thi) None (Some 0) None = Ok None).
  { unfold duty_from_UA, Py.truthy.
    destruct (Req_dec_T 0 0); [| lra].
    destruct (Req_dec_T thi 0); reflexivity. }
  split; [exact Hd |].
  unfold effectiveness_NTU_method.
  rewrite HCr. cbn [bind]. rewrite HNTU. cbn [bind]. rewrite Heff. cbn [bind].
  cbn [existsb fst snd is_some andb orb negb].
  rewrite Hd. cbn [bind].
  unfold finish_with_UA, Py.truthy.
  destruct (Req_dec_T 0 0); [| lra].
  reflexivity.
Qed.

Lemma zero_inlet_leaves_Q_unbound_witness :
  effectiveness_NTU_method ridder_unused 5.2 1.45 1860 1900
    "crossflow, mixed Cmax" (Some 130) None (Some 0) None (Some 3041.75)
  = Raise UnboundLocalError.
Proof.
  assert (Hmin : Rmin (5.2 * 1860) (1.45 * 1900) = 1.45 * 1900)
    by (unfold Rmin; destruct (Rle_dec _ _); lra).
  assert (Hmax : Rmax (5.2 * 1860) (1.45 * 1900) = 5.2 * 1860)
    by (unfold Rmax; destruct (Rle_dec _ _); lra).
  eapply proj2.
  eapply (zero_inlet_leaves_Q_unbound ridder_unused 5.2 1.45 1860 1900
            "crossflow, mixed Cmax" 130 3041.75).
  - unfold calc_Cr. rewrite Hmin, Hmax. apply div_ok. lra.
  - unfold NTU_from_UA, calc_Cmin. rewrite Hmin. apply div_ok. lra.
  - unfold effectiveness_from_NTU. eval_tag.
    destruct (Rgt_dec (1.45 * 1900 / (5.2 * 1860)) 1); [lra |].
    rewrite div_ok by lra. cbn [bind]. reflexivity.
Defined.

(** ** Pass counts of the P-NTU correlations *)

Lemma TEMA_J_in_range :
  forall (R1 NTU1 : R) (Ntp : Z),
    Ntp = 1%Z \/ Ntp = 2%Z \/ Ntp = 4%Z ->
    temperature_effectiveness_TEMA_J R1 NTU1 Ntp <> Raise UnsupportedPassCount /\
    forall P1, temperature_effectiveness_TEMA_J R1 NTU1 Ntp = Ok P1 ->
               P1 = TEMA_J_closed_form R1 NTU1 Ntp.
Proof.
  intros R1 NTU1 Ntp [-> | [-> | ->]];
    unfold temperature_effectiveness_TEMA_J, TEMA_J_closed_form;
    cbn [Z.eqb Pos.eqb]; cbv zeta;
    (split; [repeat run; discriminate |]);
    intros P1; repeat run; try discriminate; take_result;
    rewrite ?Rpower_half by pos_base.
  - change (powerRZ (exp NTU1) (-2)) with (/ (exp NTU1 ^ 2)).
    pose proof (exp_pos NTU1). field. lra.
  - unfold Rdiv. rewrite !Rinv_mult. ring.
  - unfold Rdiv at 1. rewrite Rmult_1_l. reflexivity.
  - unfold Rdiv at 1. rewrite Rmult_1_l. unfold Rdiv. rewrite ?Rinv_mult. 
    f_equal. ring.
Qed.

Lemma TEMA_H_in_range :
  forall (R1 NTU1 : R) (Ntp : Z) (optimal : bool),
    Ntp = 1%Z \/ Ntp = 2%Z ->
    temperature_effectiveness_TEMA_H R1 NTU1 Ntp optimal
    <> Raise UnsupportedPassCount /\
    forall P1, temperature_effectiveness_TEMA_H R1 NTU1 Ntp optimal = Ok P1 ->
               P1 = TEMA_H_closed_form R1 NTU1 Ntp optimal.
Proof.
  intros R1 NTU1 Ntp optimal [-> | ->];
    unfold temperature_effectiveness_TEMA_H, TEMA_H_closed_form;
    cbn [Z.eqb Pos.eqb andb]; cbv zeta;
    [| destruct optimal; cbn [negb]];
    (split; [repeat run; discriminate |]);
    intros P1; repeat run; try discriminate; take_result;
    cbn [fst snd].
  all: try (unfold Rdiv; rewrite ?Rmult_1_l; reflexivity). 
  all: replace (1 / R1) with (/ R1) in * by (unfold Rdiv; ring);
    replace (NTU1 * R1 * (4 * / R1 + 1) / 8)
      with (NTU1 * R1 / 8 * (4 * / R1 + 1)) by (unfold Rdiv; ring);
    destruct (Req_dec_T (/ R1) 0.25); try contradiction; reflexivity.
Qed.

(** On heat-capacity ratios and transfer units of physical size the
    one-pass correlations return: no denominator vanishes. *)
Lemma TEMA_J_one_pass_returns :
  forall (R1 NTU1 : R),
    0 < R1 -> 0 <= NTU1 ->
    temperature_effectiveness_TEMA_J R1 NTU1 1
    = Ok (TEMA_J_closed_form R1 NTU1 1).
Proof.
  intros R1 NTU1 HR HN.
  destruct (temperature_effectiveness_TEMA_J R1 NTU1 1) as [P1 | e] eqn:HJ.
  - f_equal. apply (proj2 (TEMA_J_in_range R1 NTU1 1 (or_introl eq_refl))).
    exact HJ.
  - exfalso. revert HJ.
    unfold temperature_effectiveness_TEMA_J. cbn [Z.eqb Pos.eqb]. cbv zeta.
    pose proof (exp_pos NTU1) as HA.
    pose proof (exp_pos (- NTU1 * R1 / 2)) as HB.
    destruct (Req_dec_T R1 2) as [H2 | H2].
    + rewrite pow_int_nonzero by lra. cbn [bind].
      rewrite div_ok by lra. cbn [bind]. discriminate.
    + rewrite div_ok by lra. cbn [bind].
      rewrite div_ok by lra. cbn [bind].
      rewrite div_ok by lra. cbn [bind].
      rewrite div_ok; [cbn [bind]; discriminate |].
      intros Hz.
      assert (Heq : 2 * exp (NTU1 * (1 - R1 / 2)) = R1).
      { replace (NTU1 * (1 - R1 / 2)) with (NTU1 + - NTU1 * R1 / 2) by lra.
        rewrite exp_plus. apply Rminus_diag_uniq in Hz.
        rewrite <- Rmult_assoc, Hz. field. lra. }
      destruct (Rlt_dec R1 2) as [Hlt | Hge].
      * assert (1 <= exp (NTU1 * (1 - R1 / 2))) by (apply exp_ge_1; nra).
        lra.
      * assert (exp (NTU1 * (1 - R1 / 2)) <= 1) by (apply exp_le_1; nra).
        lra.
Qed.

Lemma TEMA_H_one_pass_returns :
  forall (R1 NTU1 : R) (optimal : bool),
    0 < R1 -> 0 <= NTU1 ->
    temperature_effectiveness_TEMA_H R1 NTU1 1 optimal
    = Ok (TEMA_H_closed_form R1 NTU1 1 optimal).
Proof.
  intros R1 NTU1 optimal HR HN.
  destruct (temperature_effectiveness_TEMA_H R1 NTU1 1 optimal)
    as [P1 | e] eqn:HH.
  - f_equal.
    apply (proj2 (TEMA_H_in_range R1 NTU1 1 optimal (or_introl eq_refl))).
    exact HH.
  - exfalso. revert HH.
    unfold temperature_effectiveness_TEMA_H. cbn [Z.eqb Pos.eqb]. cbv zeta.
    rewrite div_ok by lra. cbn [bind].
    destruct (Req_dec_T R1 2) as [H2 | H2].
    + rewrite div_ok by lra. cbn [bind]. discriminate.
    + rewrite div_ok; [cbn [bind]; discriminate |].
      intros Hz.
      pose proof (exp_pos (- NTU1 * (1 - R1 / 2) / 2)) as HD.
      destruct (Rlt_dec R1 2) as [Hlt | Hge].
      * assert (exp (- NTU1 * (1 - R1 / 2) / 2) <= 1) by (apply exp_le_1; nra).
        nra.
      * assert (1 <= exp (- NTU1 * (1 - R1 / 2) / 2)) by (apply exp_ge_1; nra).
        nra.
Qed.

(** The root [(1 + R1**2/c)**0.5] of the multi-pass formulas exceeds one
    for a heat-capacity ratio that is not zero. *)
Lemma multipass_root_above_one (R1 c : R) :
  0 < R1 -> 0 < c -> 1 < Rpower (1 + R1 ^ 2 / c) 0.5.
Proof.
  intros HR Hc.
  assert (Hq : 0 < R1 ^ 2 / c)
    by (apply Rdiv_lt_0_compat; [apply pow_lt; exact HR | exact Hc]).
  unfold Rpower. apply exp_gt_1. apply Rmult_lt_0_compat; [lra |].
  rewrite <- ln_1. apply ln_increasing; lra.
Qed.

Lemma Rpower_of_exp (a y : R) : Rpower (exp a) y = exp (y * a).
Proof. unfold Rpower. rewrite ln_exp. reflexivity. Qed.

(** The term [lambda1*B - 2*lambda1*C*D] of the two-pass and four-pass
    formulas of the J shell is positive. *)
Lemma J_multipass_term_positive (l p1 p2 pl : R) :
  1 < l -> 0 < p2 -> p2 < pl -> 1 < pl -> p1 * p2 = pl ->
  0 < l * ((pl + 1) / (pl - 1))
      - 2 * l * (p2 / (l - 1 + (1 + l) * pl)) * (1 + l * p1 / (pl - 1)).
Proof.
  intros Hl Hp2 Hlt Hpl Hprod.
  assert (Hq : 0 < l - 1 + (1 + l) * pl) by nra.
  assert (Hp1 : p1 = pl / p2) by (rewrite <- Hprod; field; lra).
  subst p1.
  replace (l * ((pl + 1) / (pl - 1))
           - 2 * l * (p2 / (l - 1 + (1 + l) * pl)) * (1 + l * (pl / p2) / (pl - 1)))
    with (l * ((1 + l) * pl ^ 2 + (l - 1) - 2 * p2 * (pl - 1))
          / ((pl - 1) * (l - 1 + (1 + l) * pl)))
    by (field; repeat split; lra).
  apply Rdiv_lt_0_compat; [| apply Rmult_lt_0_compat; lra].
  apply Rmult_lt_0_compat; [lra |].
  assert (p2 * (pl - 1) < pl * (pl - 1)) by (apply Rmult_lt_compat_r; lra).
  nra.
Qed.

Lemma J_multipass_powers (l NTU1 : R) :
  1 < l -> 0 < NTU1 ->
  0 < Rpower (exp NTU1) ((1 + l) / 2) /\
  Rpower (exp NTU1) ((1 + l) / 2) < Rpower (exp NTU1) l /\
  1 < Rpower (exp NTU1) l /\
  Rpower (exp NTU1) ((l - 1) / 2) * Rpower (exp NTU1) ((1 + l) / 2)
  = Rpower (exp NTU1) l.
Proof.
  intros Hl HN. rewrite !Rpower_of_exp. repeat split.
  - apply exp_pos.
  - apply exp_increasing. nra.
  - apply exp_gt_1. nra.
  - rewrite <- exp_plus. f_equal. field.
Qed.

Lemma TEMA_J_multipass_returns :
  forall (R1 NTU1 : R) (Ntp : Z),
    0 < R1 -> 0 < NTU1 -> Ntp = 2%Z \/ Ntp = 4%Z ->
    temperature_effectiveness_TEMA_J R1 NTU1 Ntp
    = Ok (TEMA_J_closed_form R1 NTU1 Ntp).
Proof.
  intros R1 NTU1 Ntp HR HN HNtp.
  destruct (temperature_effectiveness_TEMA_J R1 NTU1 Ntp) as [P1 | e] eqn:HJ.
  - f_equal. apply (proj2 (TEMA_J_in_range R1 NTU1 Ntp (or_intror HNtp))).
    exact HJ.
  - exfalso. revert HJ.
    assert (HE : 0 < exp (R1 * NTU1 / 2)) by apply exp_pos.
    destruct HNtp as [-> | ->];
      unfold temperature_effectiveness_TEMA_J; cbn [Z.eqb Pos.eqb]; cbv zeta;
      rewrite pow_pos by pos_base; cbn [bind];
      [ pose proof (multipass_root_above_one R1 4 HR ltac:(lra)) as Hl;
        set (l := Rpower (1 + R1 ^ 2 / 4) 0.5) in *
      | pose proof (multipass_root_above_one R1 16 HR ltac:(lra)) as Hl;
        set (l := Rpower (1 + R1 ^ 2 / 16) 0.5) in * ];
      destruct (J_multipass_powers l NTU1 Hl HN) as [Hp2 [Hlt [Hpl Hprod]]];
      pose proof (J_multipass_term_positive l _ _ _ Hl Hp2 Hlt Hpl Hprod) as Hpos;
      rewrite !pow_pos by apply exp_pos; cbn [bind];
      set (p1 := Rpower (exp NTU1) ((l - 1) / 2)) in *;
      set (p2 := Rpower (exp NTU1) ((1 + l) / 2)) in *;
      set (pl := Rpower (exp NTU1) l) in *;
      rewrite (div_ok (l * p1)) by lra; cbn [bind];
      rewrite (div_ok p2) by nra; cbn [bind];
      rewrite (div_ok (pl + 1)) by lra; cbn [bind].
    + rewrite div_ok; [discriminate | lra].
    + rewrite div_ok by lra. cbn [bind].
      assert (0 < R1 / 4 * (1 + 3 * exp (R1 * NTU1 / 2))
                  / (1 + exp (R1 * NTU1 / 2))).
      { apply Rdiv_lt_0_compat; [| lra]. apply Rmult_lt_0_compat; lra. }
      rewrite div_ok; [discriminate | lra].
Qed.

(** The divisor [B - 4*G/R1] of the two-pass H shell in the optimal
    orientation is positive. *)
Lemma H_optimal_divisor_positive (r D E H : R) :
  0 < r -> 0 < D -> D * (r + 1) < 1 -> 0 < E -> (r - 1) * E < 1 -> E <= H ->
  0 < (1 + H) * (1 + E) ^ 2
      - r * ((1 - D) ^ 2 * (D ^ 2 + E ^ 2) + D ^ 2 * (1 + E) ^ 2).
Proof.
  intros Hr HD HDr HE HEr HH.
  assert (HD1 : D < 1) by nra.
  assert (HrD : r * D ^ 2 < / 4).
  { assert (H1 : r * D < 1 - D) by lra.
    assert (H2 : r * D * D < (1 - D) * D) by (apply Rmult_lt_compat_r; lra).
    assert (H3 : (1 - D) * D <= / 4) by (pose proof (pow2_ge_0 (D - / 2)); lra).
    lra. }
  assert (HrD0 : 0 < r * D ^ 2) by (apply Rmult_lt_0_compat; [lra | nra]).
  assert (HrE : r * E ^ 2 < E + E ^ 2).
  { assert (H1 : (r - 1) * E * E < 1 * E) by (apply Rmult_lt_compat_r; lra).
    lra. }
  assert (HrE0 : 0 <= r * E ^ 2) by (apply Rmult_le_pos; [lra | nra]).
  assert (Hsq : 0 <= (1 - D) ^ 2 <= 1) by nra.
  assert (H1 : r * ((1 - D) ^ 2 * (D ^ 2 + E ^ 2))
               <= r * D ^ 2 + r * E ^ 2).
  { replace (r * ((1 - D) ^ 2 * (D ^ 2 + E ^ 2)))
      with ((1 - D) ^ 2 * (r * D ^ 2 + r * E ^ 2)) by ring.
    nra. }
  assert (H2 : r * (D ^ 2 * (1 + E) ^ 2) <= / 4 * (1 + E) ^ 2).
  { replace (r * (D ^ 2 * (1 + E) ^ 2)) with (r * D ^ 2 * (1 + E) ^ 2) by ring.
    apply Rmult_le_compat_r; [nra | lra]. }
  assert (H3 : (1 + E) ^ 3 <= (1 + H) * (1 + E) ^ 2).
  { replace ((1 + E) ^ 3) with ((1 + E) * (1 + E) ^ 2) by ring.
    apply Rmult_le_compat_r; [nra | lra]. }
  assert (H4 : r * D ^ 2 + r * E ^ 2 + / 4 * (1 + E) ^ 2 < (1 + E) ^ 3) by nra.
  rewrite Rmult_plus_distr_l. lra.
Qed.

Lemma TEMA_H_optimal_returns :
  forall (R1 NTU1 : R),
    0 < R1 -> 0 < NTU1 ->
    temperature_effectiveness_TEMA_H R1 NTU1 2 true
    = Ok (TEMA_H_closed_form R1 NTU1 2 true).
Proof.
  intros R1 NTU1 HR HN.
  destruct (temperature_effectiveness_TEMA_H R1 NTU1 2 true)
    as [P1 | e] eqn:HH.
  - f_equal.
    apply (proj2 (TEMA_H_in_range R1 NTU1 2 true (or_intror eq_refl))).
    exact HH.
  - exfalso. revert HH.
    unfold temperature_effectiveness_TEMA_H. cbn [Z.eqb Pos.eqb andb]. cbv zeta.
    rewrite div_ok by lra. cbn [bind].
    assert (Hr : 0 < 4 / R1) by (apply Rdiv_lt_0_compat; lra).
    set (r := 4 / R1) in *.
    rewrite div_ok by lra. cbn [bind].
    assert (Ha : 0 < 1 - exp (- (NTU1 * (4 + R1) / 8)) < 1).
    { pose proof (exp_pos (- (NTU1 * (4 + R1) / 8))).
      assert (exp (- (NTU1 * (4 + R1) / 8)) < 1) by (apply exp_lt_1; nra). lra. }
    set (u := 1 - exp (- (NTU1 * (4 + R1) / 8))) in *.
    assert (HD : 0 < u / (r + 1)) by (apply Rdiv_lt_0_compat; lra).
    assert (HDr : u / (r + 1) * (r + 1) < 1)
      by (replace (u / (r + 1) * (r + 1)) with u by (field; lra); lra).
    set (D := u / (r + 1)) in *.
    assert (Hfinish :
      forall E H : R, 0 < E -> (r - 1) * E < 1 -> E <= H ->
        (a <- Py.div 1 R1 ;;
         g <- Py.div (4 * ((1 - D) ^ 2 * (D ^ 2 + E ^ 2) + D ^ 2 * (1 + E) ^ 2)) R1 ;;
         f <- Py.div ((1 - D) ^ 4) ((1 + H) * (1 + E) ^ 2 - g) ;;
         Ok (a * (1 - f)))
        <> Raise e).
    { intros E H HE HEr HEH.
      pose proof (H_optimal_divisor_positive r D E H Hr HD HDr HE HEr HEH) as Hpos.
      rewrite div_ok by lra. cbn [bind].
      rewrite div_ok by lra. cbn [bind].
      rewrite div_ok; [discriminate |].
      replace (4 * ((1 - D) ^ 2 * (D ^ 2 + E ^ 2) + D ^ 2 * (1 + E) ^ 2) / R1)
        with (r * ((1 - D) ^ 2 * (D ^ 2 + E ^ 2) + D ^ 2 * (1 + E) ^ 2))
        by (unfold r; field; lra).
      lra. }
    destruct (Req_dec_T R1 4) as [H4 | H4].
    + cbn [bind fst snd]. apply Hfinish; [lra | | lra].
      unfold r. rewrite H4. replace (4 / 4 - 1) with 0 by field. lra.
    + assert (Hr1 : r - 1 <> 0).
      { unfold r. intros Hz. apply H4.
        apply (Rmult_eq_compat_r R1) in Hz.
        replace ((4 / R1 - 1) * R1) with (4 - R1) in Hz by (field; lra). lra. }
      rewrite !div_ok by exact Hr1. cbn [bind fst snd].
      set (b := NTU1 * (4 - R1) / 8).
      assert (Hsign : 0 < (1 - exp (- b)) / (r - 1)).
      { assert (Hb : b = NTU1 * R1 / 8 * (r - 1)) by (unfold b, r; field; lra).
        assert (Hk : 0 < NTU1 * R1 / 8)
          by (apply Rdiv_lt_0_compat; [apply Rmult_lt_0_compat |]; lra).
        set (k := NTU1 * R1 / 8) in *. clearbody b k.
        destruct (Rlt_dec 0 (r - 1)) as [Hp | Hn].
        - apply Rdiv_lt_0_compat; [| exact Hp].
          assert (0 < b) by (rewrite Hb; apply Rmult_lt_0_compat; lra).
          assert (exp (- b) < 1) by (apply exp_lt_1; lra). lra.
        - assert (Hneg : r - 1 < 0) by lra.
          assert (0 < - b)
            by (rewrite Hb; replace (- (k * (r - 1))) with (k * (1 - r)) by ring;
                apply Rmult_lt_0_compat; lra).
          assert (1 < exp (- b)) by (apply exp_gt_1; lra).
          replace ((1 - exp (- b)) / (r - 1))
            with ((exp (- b) - 1) / (1 - r)) by (field; lra).
          apply Rdiv_lt_0_compat; lra. }
      apply Hfinish.
      * exact Hsign.
      * replace ((r - 1) * ((1 - exp (- b)) / (r - 1))) with (1 - exp (- b))
          by (field; exact Hr1).
        pose proof (exp_pos (- b)). lra.
      * replace (- 2 * b) with (- b + - b) by ring. rewrite exp_plus.
        replace ((1 - exp (- b) * exp (- b)) / (r - 1))
          with ((1 - exp (- b)) / (r - 1) * (1 + exp (- b))) by (field; exact Hr1).
        pose proof (exp_pos (- b)). nra.
Qed.

Lemma TEMA_H_not_optimal_returns :
  forall (R1 NTU1 : R),
    0 < R1 -> 0 < NTU1 ->
    temperature_effectiveness_TEMA_H R1 NTU1 2 false
    = Ok (TEMA_H_closed_form R1 NTU1 2 false).
Proof.
  intros R1 NTU1 HR HN.
  destruct (temperature_effectiveness_TEMA_H R1 NTU1 2 false)
    as [P1 | e] eqn:HH.
  - f_equal.
    apply (proj2 (TEMA_H_in_range R1 NTU1 2 false (or_intror eq_refl))).
    exact HH.
  - exfalso. revert HH.
    unfold temperature_effectiveness_TEMA_H.
    cbn [Z.eqb Pos.eqb andb negb]. cbv zeta.
    rewrite div_ok by lra. cbn [bind].
    assert (HR2 : 0 < 1 / R1) by (apply Rdiv_lt_0_compat; lra).
    set (R2 := 1 / R1) in *.
    rewrite !div_ok by lra. cbn [bind].
    assert (HN2 : 0 < NTU1 * R1) by (apply Rmult_lt_0_compat; assumption).
    set (N2 := NTU1 * R1) in *.
    assert (Hfinish :
      forall D B E : R, D < 0 ->
        (f <- Py.div (B + 4 * ((1 - D) ^ 2 * (D ^ 2 + E ^ 2)
                               + D ^ 2 * (1 + E) ^ 2) * R2)
                     ((1 - D) ^ 4) ;;
         Py.div (1 - f) R1)
        <> Raise e).
    { intros D B E HD.
      rewrite div_ok by (apply pow_nonzero; lra). cbn [bind].
      rewrite div_ok by lra. discriminate. }
    destruct (Req_dec_T R2 0.25) as [Hq | Hq].
    + cbn [bind]. apply Hfinish. lra.
    + rewrite div_ok by lra. cbn [bind]. apply Hfinish.
      set (a := N2 / 8 * (4 * R2 - 1)).
      assert (Hk : 0 < N2 / 8) by lra.
      destruct (Rlt_dec 0 (4 * R2 - 1)) as [Hp | Hn].
      * assert (0 < a) by (unfold a; apply Rmult_lt_0_compat; lra).
        assert (exp (- a) < 1) by (apply exp_lt_1; lra).
        replace ((1 - exp (- a)) / (1 - 4 * R2))
          with (- ((1 - exp (- a)) / (4 * R2 - 1))) by (field; lra).
        assert (0 < (1 - exp (- a)) / (4 * R2 - 1))
          by (apply Rdiv_lt_0_compat; lra).
        lra.
      * assert (Hneg : 4 * R2 - 1 < 0) by lra.
        assert (0 < - a)
          by (unfold a;
              replace (- (N2 / 8 * (4 * R2 - 1))) with (N2 / 8 * (1 - 4 * R2))
                by ring;
              apply Rmult_lt_0_compat; lra).
        assert (1 < exp (- a)) by (apply exp_gt_1; lra).
        replace ((1 - exp (- a)) / (1 - 4 * R2))
          with (- ((exp (- a) - 1) / (1 - 4 * R2))) by (field; lra).
        assert (0 < (exp (- a) - 1) / (1 - 4 * R2))
          by (apply Rdiv_lt_0_compat; lra).
        lra.
Qed.

(** C9.  [temperature_effectiveness_TEMA_J] raises the pass-count
    exception for every number of tube passes other than 1, 2 and 4, and
    [temperature_effectiveness_TEMA_H] for every number other than 1 and 2,
    whatever [R1], [NTU1] and the orientation flag are.  For the supported
    pass counts neither raises that exception, a value they return is the
    documented closed form of that pass count, and for [R1 > 0] and
    [NTU1 > 0] they do return it: no divisor vanishes there. *)
Theorem pass_count_validation :
  forall (R1 NTU1 : R) (Ntp : Z) (optimal : bool),
    (Ntp <> 1%Z -> Ntp <> 2%Z -> Ntp <> 4%Z ->
       temperature_effectiveness_TEMA_J R1 NTU1 Ntp = Raise UnsupportedPassCount) /\
    (Ntp <> 1%Z -> Ntp <> 2%Z ->
       temperature_effectiveness_TEMA_H R1 NTU1 Ntp optimal
       = Raise UnsupportedPassCount) /\
    (Ntp = 1%Z \/ Ntp = 2%Z \/ Ntp = 4%Z ->
       temperature_effectiveness_TEMA_J R1 NTU1 Ntp <> Raise UnsupportedPassCount /\
       (forall P1, temperature_effectiveness_TEMA_J R1 NTU1 Ntp = Ok P1 ->
                   P1 = TEMA_J_closed_form R1 NTU1 Ntp) /\
       (0 < R1 -> 0 < NTU1 ->
        temperature_effectiveness_TEMA_J R1 NTU1 Ntp
        = Ok (TEMA_J_closed_form R1 NTU1 Ntp))) /\
    (Ntp = 1%Z \/ Ntp = 2%Z ->
       temperature_effectiveness_TEMA_H R1 NTU1 Ntp optimal
       <> Raise UnsupportedPassCount /\
       (forall P1, temperature_effectiveness_TEMA_H R1 NTU1 Ntp optimal = Ok P1 ->
                   P1 = TEMA_H_closed_form R1 NTU1 Ntp optimal) /\
       (0 < R1 -> 0 < NTU1 ->
        temperature_effectiveness_TEMA_H R1 NTU1 Ntp optimal
        = Ok (TEMA_H_closed_form R1 NTU1 Ntp optimal))).
Proof.
  intros R1 NTU1 Ntp optimal.
  split; [| split; [| split]].
  - intros H1 H2 H4. unfold temperature_effectiveness_TEMA_J.
    apply Z.eqb_neq in H1, H2, H4. rewrite H1, H2, H4. reflexivity.
  - intros H1 H2. unfold temperature_effectiveness_TEMA_H.
    apply Z.eqb_neq in H1, H2. rewrite H1, H2. reflexivity.
  - intros HNtp.
    destruct (TEMA_J_in_range R1 NTU1 Ntp HNtp) as [Hno Hform].
    split; [exact Hno |]. split; [exact Hform |].
    intros HR HN. destruct HNtp as [-> | HNtp].
    + apply TEMA_J_one_pass_returns; lra.
    + apply TEMA_J_multipass_returns; assumption.
  - intros HNtp.
    destruct (TEMA_H_in_range R1 NTU1 Ntp optimal HNtp) as [Hno Hform].
    split; [exact Hno |]. split; [exact Hform |].
    intros HR HN. destruct HNtp as [-> | ->].
    + apply TEMA_H_one_pass_returns; lra.
    + destruct optimal.
      * apply TEMA_H_optimal_returns; assumption.
      * apply TEMA_H_not_optimal_returns; assumption.
Qed.

Lemma pass_count_validation_witness :
  temperature_effectiveness_TEMA_J (1 / 3) 1 3 = Raise UnsupportedPassCount /\
  temperature_effectiveness_TEMA_H (1 / 3) 1 4 true = Raise UnsupportedPassCount /\
  temperature_effectiveness_TEMA_J (1 / 3) 1 4
  = Ok (TEMA_J_closed_form (1 / 3) 1 4) /\
  temperature_effectiveness_TEMA_H (1 / 3) 1 2 true
  = Ok (TEMA_H_closed_form (1 / 3) 1 2 true).
Proof.
  split; [| split; [| split]].
  - apply (proj1 (pass_count_validation (1 / 3) 1 3 true)); lia.
  - apply (proj1 (proj2 (pass_count_validation (1 / 3) 1 4 true))); lia.
  - apply (proj1 (proj2 (proj2 (pass_count_validation (1 / 3) 1 4 true))));
      [right; right; reflexivity | lra | lra].
  - apply (proj2 (proj2 (proj2 (pass_count_validation (1 / 3) 1 2 true))));
      [right; reflexivity | lra | lra].
Defined.

(** Supported pass counts at which a divisor vanishes: the two-pass J
    shell at [NTU1 = 0] (line 1129 divides by [A**lambda1 - 1]), the
    one-pass J shell at [R1 = 0] (line 1123 divides by [R1]) and the
    two-pass H shell at [R1 = 0] (line 1261 divides by [R1]). *)
Lemma pass_count_in_range_division_by_zero :
  temperature_effectiveness_TEMA_J 1 0 2 = Raise ZeroDivisionError /\
  temperature_effectiveness_TEMA_J 0 1 1 = Raise ZeroDivisionError /\
  temperature_effectiveness_TEMA_H 0 1 2 true = Raise ZeroDivisionError.
Proof.
  split; [| split].
  - unfold temperature_effectiveness_TEMA_J. cbn [Z.eqb Pos.eqb]. cbv zeta.
    rewrite pow_pos by pos_base. cbn [bind].
    rewrite !pow_pos by apply exp_pos. cbn [bind].
    rewrite div_zero; [reflexivity |].
    rewrite Rpower_of_exp, Rmult_0_r, exp_0. ring.
  - unfold temperature_effectiveness_TEMA_J. cbn [Z.eqb Pos.eqb]. cbv zeta.
    destruct (Req_dec_T 0 2); [lra |].
    rewrite div_zero by reflexivity. reflexivity.
  - unfold temperature_effectiveness_TEMA_H. cbn [Z.eqb Pos.eqb andb]. cbv zeta.
    rewrite div_zero by reflexivity. reflexivity.
Qed.

(** ** Capacity rates of the two streams *)

Lemma Rmin_le_Rmax (a b : R) : Rmin a b <= Rmax a b.
Proof. unfold Rmin, Rmax. destruct (Rle_dec a b); lra. Qed.

Lemma Rmax_pos (a b : R) : 0 < a -> 0 < b -> 0 < Rmax a b.
Proof. intros Ha Hb. unfold Rmax. destruct (Rle_dec a b); lra. Qed.

Lemma Rmin_pos (a b : R) : 0 < a -> 0 < b -> 0 < Rmin a b.
Proof. intros Ha Hb. unfold Rmin. destruct (Rle_dec a b); lra. Qed.

Lemma ratio_at_most_one (a b : R) :
  0 < a -> 0 < b -> 0 < Rmin a b / Rmax a b <= 1.
Proof.
  intros Ha Hb.
  pose proof (Rmax_pos _ _ Ha Hb) as Hmax.
  pose proof (Rmin_pos _ _ Ha Hb) as Hmin.
  pose proof (Rmin_le_Rmax a b) as Hle.
  split.
  - apply Rdiv_lt_0_compat; assumption.
  - apply (Rmult_le_reg_r (Rmax a b)); [assumption |].
    replace (Rmin a b / Rmax a b * Rmax a b) with (Rmin a b) by (field; lra).
    lra.
Qed.

(** X1.  The three capacity-rate helpers give the same result when the hot
    and the cold stream trade places.  For two streams with positive
    capacity rates [mh*Cph] and [mc*Cpc], [calc_Cr] returns a ratio in
    (0, 1], it is the ratio of what [calc_Cmin] and [calc_Cmax] return, and
    [calc_Cmin] is positive and not above [calc_Cmax]. *)
Theorem capacity_rates_ordered :
  forall mh mc Cph Cpc : R,
    (calc_Cmin mh mc Cph Cpc = calc_Cmin mc mh Cpc Cph /\
     calc_Cmax mh mc Cph Cpc = calc_Cmax mc mh Cpc Cph /\
     calc_Cr mh mc Cph Cpc = calc_Cr mc mh Cpc Cph) /\
    (0 < mh * Cph -> 0 < mc * Cpc ->
     exists Cr : R,
       calc_Cr mh mc Cph Cpc = Ok Cr /\ 0 < Cr <= 1 /\
       Cr * calc_Cmax mh mc Cph Cpc = calc_Cmin mh mc Cph Cpc /\
       0 < calc_Cmin mh mc Cph Cpc <= calc_Cmax mh mc Cph Cpc).
Proof.
  intros mh mc Cph Cpc. unfold calc_Cr, calc_Cmin, calc_Cmax. cbv zeta. split.
  - rewrite (Rmin_comm (mh * Cph)), (Rmax_comm (mh * Cph)). repeat split.
  - intros Hh Hc.
    pose proof (Rmax_pos _ _ Hh Hc) as Hmax.
    pose proof (Rmin_pos _ _ Hh Hc) as Hmin.
    pose proof (Rmin_le_Rmax (mh * Cph) (mc * Cpc)) as Hle.
    pose proof (ratio_at_most_one _ _ Hh Hc) as Hr.
    set (Cmin := Rmin (mh * Cph) (mc * Cpc)) in *.
    set (Cmax := Rmax (mh * Cph) (mc * Cpc)) in *.
    exists (Cmin / Cmax).
    split; [apply div_ok; lra |].
    split; [exact Hr |].
    split; [field; lra | lra].
Qed.

Lemma capacity_rates_ordered_witness :
  calc_Cr 5.2 1.45 1860 1900 = calc_Cr 1.45 5.2 1900 1860 /\
  exists Cr : R,
    calc_Cr 5.2 1.45 1860 1900 = Ok Cr /\ 0 < Cr <= 1 /\
    Cr * calc_Cmax 5.2 1.45 1860 1900 = calc_Cmin 5.2 1.45 1860 1900 /\
    0 < calc_Cmin 5.2 1.45 1860 1900 <= calc_Cmax 5.2 1.45 1860 1900.
Proof.
  split.
  - exact (proj2 (proj2 (proj1 (capacity_rates_ordered 5.2 1.45 1860 1900)))).
  - apply (proj2 (capacity_rates_ordered 5.2 1.45 1860 1900)); lra.
Defined.

(** ** Range and monotonicity of the effectiveness *)

Lemma forward_counterflow (NTU Cr : R) :
  0 <= Cr < 1 -> 0 <= NTU ->
  effectiveness_from_NTU NTU Cr "counterflow"
  = Ok ((1 - exp (- NTU * (1 - Cr))) / (1 - Cr * exp (- NTU * (1 - Cr)))).
Proof.
  intros HCr HN. unfold effectiveness_from_NTU.
  destruct (Rgt_dec Cr 1); [lra |]. eval_tag.
  destruct (Rlt_dec Cr 1); [| lra].
  assert (He1 : exp (- NTU * (1 - Cr)) <= 1) by (apply exp_le_1; nra).
  pose proof (exp_pos (- NTU * (1 - Cr))) as He0.
  apply div_ok. nra.
Qed.

Lemma forward_balanced_counterflow (NTU : R) :
  0 <= NTU ->
  effectiveness_from_NTU NTU 1 "counterflow" = Ok (NTU / (1 + NTU)).
Proof.
  intros HN. unfold effectiveness_from_NTU.
  destruct (Rgt_dec 1 1); [lra |]. eval_tag.
  destruct (Rlt_dec 1 1); [lra |].
  destruct (Req_dec_T 1 1); [| lra].
  apply div_ok. lra.
Qed.

Lemma forward_parallel (NTU Cr : R) :
  0 <= Cr <= 1 ->
  effectiveness_from_NTU NTU Cr "parallel"
  = Ok ((1 - exp (- NTU * (1 + Cr))) / (1 + Cr)).
Proof.
  intros HCr. unfold effectiveness_from_NTU.
  destruct (Rgt_dec Cr 1); [lra |]. eval_tag.
  apply div_ok. lra.
Qed.

Lemma forward_mixed_Cmin (NTU Cr : R) :
  0 < Cr <= 1 ->
  effectiveness_from_NTU NTU Cr "crossflow, mixed Cmin"
  = Ok (1 - exp (- / Cr * (1 - exp (- Cr * NTU)))).
Proof.
  intros HCr. unfold effectiveness_from_NTU.
  destruct (Rgt_dec Cr 1); [lra |]. eval_tag.
  rewrite pow_int_nonzero by lra. cbn [bind].
  change (powerRZ Cr (-1)) with (/ (Cr ^ 1)).
  replace (Cr ^ 1) with Cr by ring. reflexivity.
Qed.

Lemma forward_mixed_Cmax (NTU Cr : R) :
  0 < Cr <= 1 ->
  effectiveness_from_NTU NTU Cr "crossflow, mixed Cmax"
  = Ok (1 / Cr * (1 - exp (- Cr * (1 - exp (- NTU))))).
Proof.
  intros HCr. unfold effectiveness_from_NTU.
  destruct (Rgt_dec Cr 1); [lra |]. eval_tag.
  rewrite div_ok by lra. reflexivity.
Qed.

Lemma forward_phase_change (NTU Cr : R) (subtype : string) :
  Cr <= 1 -> subtype = "boiler"%string \/ subtype = "condenser"%string ->
  effectiveness_from_NTU NTU Cr subtype = Ok (1 - exp (- NTU)).
Proof.
  intros HCr Hs. unfold effectiveness_from_NTU.
  destruct (Rgt_dec Cr 1); [lra |].
  destruct Hs as [-> | ->]; eval_tag; reflexivity.
Qed.

(** The steps of the shell-and-tube formula, each increasing in its
    argument. *)
Lemma one_shell_ratio_increasing (s x1 x2 : R) :
  0 < s -> 0 < x2 -> x2 < x1 -> x1 < 1 ->
  s * (1 + x2) / (1 - x2) < s * (1 + x1) / (1 - x1).
Proof.
  intros Hs H0 H12 H1.
  apply (Rmult_lt_reg_r ((1 - x2) * (1 - x1))); [nra |].
  replace (s * (1 + x2) / (1 - x2) * ((1 - x2) * (1 - x1)))
    with (s * (1 + x2) * (1 - x1)) by (field; lra).
  replace (s * (1 + x1) / (1 - x1) * ((1 - x2) * (1 - x1)))
    with (s * (1 + x1) * (1 - x2)) by (field; lra).
  nra.
Qed.

Lemma one_shell_effectiveness_decreasing (Cr r1 r2 : R) :
  0 <= Cr -> 0 < r2 -> r2 < r1 ->
  2 / (1 + Cr + r1) < 2 / (1 + Cr + r2).
Proof.
  intros HCr H0 H12.
  apply (Rmult_lt_reg_r ((1 + Cr + r1) * (1 + Cr + r2))); [nra |].
  replace (2 / (1 + Cr + r1) * ((1 + Cr + r1) * (1 + Cr + r2)))
    with (2 * (1 + Cr + r2)) by (field; lra).
  replace (2 / (1 + Cr + r2) * ((1 + Cr + r1) * (1 + Cr + r2)))
    with (2 * (1 + Cr + r1)) by (field; lra).
  lra.
Qed.

Lemma series_base_increasing (Cr e1 e2 : R) :
  Cr < 1 -> e1 < e2 -> e2 < 1 ->
  (1 - e1 * Cr) / (1 - e1) < (1 - e2 * Cr) / (1 - e2).
Proof.
  intros HCr H12 H1.
  apply (Rmult_lt_reg_r ((1 - e1) * (1 - e2))); [nra |].
  replace ((1 - e1 * Cr) / (1 - e1) * ((1 - e1) * (1 - e2)))
    with ((1 - e1 * Cr) * (1 - e2)) by (field; lra).
  replace ((1 - e2 * Cr) / (1 - e2) * ((1 - e1) * (1 - e2)))
    with ((1 - e2 * Cr) * (1 - e1)) by (field; lra).
  nra.
Qed.

Lemma series_term_increasing (b1 b2 : R) (shells : Z) :
  (1 <= shells)%Z -> 1 < b1 -> b1 < b2 ->
  1 < powerRZ b1 shells /\ powerRZ b1 shells < powerRZ b2 shells.
Proof.
  intros Hn H1 H12.
  pose proof (IZR_shells_pos shells Hn) as Hn'.
  rewrite !powerRZ_Rpower by lra.
  split.
  - unfold Rpower. apply exp_gt_1. apply Rmult_lt_0_compat; [lra |].
    rewrite <- ln_1. apply ln_increasing; lra.
  - apply Rlt_Rpower_l; lra.
Qed.

Lemma series_effectiveness_increasing (Cr t1 t2 : R) :
  Cr < 1 -> 1 < t1 -> t1 < t2 ->
  (t1 - 1) / (t1 - Cr) < (t2 - 1) / (t2 - Cr).
Proof.
  intros HCr H1 H12.
  apply (Rmult_lt_reg_r ((t1 - Cr) * (t2 - Cr))); [nra |].
  replace ((t1 - 1) / (t1 - Cr) * ((t1 - Cr) * (t2 - Cr)))
    with ((t1 - 1) * (t2 - Cr)) by (field; lra).
  replace ((t2 - 1) / (t2 - Cr) * ((t1 - Cr) * (t2 - Cr)))
    with ((t2 - 1) * (t1 - Cr)) by (field; lra).
  nra.
Qed.

(** The value of the shell-and-tube branch at a regular point, with the
    bounds of its intermediate quantities. *)
Lemma forward_shell_and_tube (NTU Cr : R) (shells : Z) :
  (1 <= shells)%Z -> 0 <= Cr < 1 -> 0 < NTU ->
  exists x e1 : R,
    x = exp (- (NTU / IZR shells) * Rpower (1 + Cr ^ 2) 0.5) /\
    e1 = 2 / (1 + Cr + Rpower (1 + Cr ^ 2) 0.5 * (1 + x) / (1 - x)) /\
    0 < x < 1 /\ 0 < e1 < 1 /\
    shell_and_tube_effectiveness NTU Cr shells
    = Ok (if (1 <? shells)%Z
          then (powerRZ ((1 - e1 * Cr) / (1 - e1)) shells - 1)
               / (powerRZ ((1 - e1 * Cr) / (1 - e1)) shells - Cr)
          else e1).
Proof.
  intros Hshells HCr HN.
  pose proof (IZR_shells_pos shells Hshells) as Hn.
  pose proof (root_at_least_one Cr) as Hs.
  unfold shell_and_tube_effectiveness.
  rewrite div_ok by lra. cbn [bind].
  rewrite pow_pos by apply sum_of_square_pos. cbn [bind]. cbv zeta.
  set (s := Rpower (1 + Cr ^ 2) 0.5) in *.
  set (N1 := NTU / IZR shells).
  assert (HN1 : 0 < N1) by (apply Rdiv_lt_0_compat; lra).
  pose proof (exp_pos (- N1 * s)) as Hx0.
  assert (Hx1 : exp (- N1 * s) < 1) by (apply exp_lt_1; nra).
  set (x := exp (- N1 * s)) in *.
  rewrite div_ok by lra. cbn [bind].
  set (r := s * (1 + x) / (1 - x)).
  assert (Hr : r * (1 - x) = s * (1 + x)) by (unfold r; field; lra).
  assert (Hr1 : 1 < r) by nra.
  rewrite div_ok by lra. cbn [bind].
  set (e1 := 2 / (1 + Cr + r)).
  assert (He : e1 * (1 + Cr + r) = 2) by (unfold e1; field; lra).
  assert (He0 : 0 < e1) by (unfold e1; apply Rdiv_lt_0_compat; lra).
  assert (He1 : e1 < 1) by nra.
  exists x, e1.
  split; [reflexivity |]. split; [reflexivity |].
  split; [lra |]. split; [lra |].
  set (b := (1 - e1 * Cr) / (1 - e1)).
  assert (Hb : b * (1 - e1) = 1 - e1 * Cr) by (unfold b; field; lra).
  assert (Hb1 : 1 < b) by nra.
  destruct (1 <? shells)%Z; [| reflexivity].
  rewrite div_ok by lra. cbn [bind]. fold b.
  rewrite pow_int_nonzero by lra. cbn [bind].
  destruct (series_term_increasing b (b + 1) shells Hshells Hb1) as [Ht _];
    [lra |].
  apply div_ok. lra.
Qed.

Lemma regular_point_forward_range (subtype : string) (Cr NTU : R) :
  regular_point subtype Cr NTU -> 0 <= NTU ->
  exists eff : R,
    effectiveness_from_NTU NTU Cr subtype = Ok eff /\ 0 <= eff < 1.
Proof.
  intros Hreg HN0.
  destruct Hreg as [Cr NTU HCr HN | Cr NTU HCr HN
                   | subtype shells Cr NTU Hst Hn HCr HN
                   | Cr NTU HCr HN | Cr NTU HCr HN
                   | Cr NTU HCr | Cr NTU HCr].
  - (* counterflow *)
    destruct (Rlt_dec Cr 1) as [Hlt | Hge].
    + eexists. split; [apply forward_counterflow; lra |].
      assert (He1 : exp (- NTU * (1 - Cr)) <= 1) by (apply exp_le_1; nra).
      pose proof (exp_pos (- NTU * (1 - Cr))) as He0.
      set (e := exp (- NTU * (1 - Cr))) in *.
      assert (HD : 0 < 1 - Cr * e) by nra.
      split.
      * apply Rmult_le_pos; [lra |]. left. apply Rinv_0_lt_compat. exact HD.
      * apply (Rmult_lt_reg_r (1 - Cr * e)); [exact HD |].
        replace ((1 - e) / (1 - Cr * e) * (1 - Cr * e)) with (1 - e)
          by (field; lra).
        nra.
    + assert (Cr = 1) by lra. subst Cr.
      eexists. split; [apply forward_balanced_counterflow; exact HN |].
      split.
      * apply Rmult_le_pos; [lra |]. left. apply Rinv_0_lt_compat. lra.
      * apply (Rmult_lt_reg_r (1 + NTU)); [lra |].
        replace (NTU / (1 + NTU) * (1 + NTU)) with NTU by (field; lra). lra.
  - (* parallel *)
    eexists. split; [apply forward_parallel; exact HCr |].
    assert (He1 : exp (- NTU * (1 + Cr)) <= 1) by (apply exp_le_1; nra).
    pose proof (exp_pos (- NTU * (1 + Cr))) as He0.
    set (e := exp (- NTU * (1 + Cr))) in *.
    split.
    + apply Rmult_le_pos; [lra |]. left. apply Rinv_0_lt_compat. lra.
    + apply (Rmult_lt_reg_r (1 + Cr)); [lra |].
      replace ((1 - e) / (1 + Cr) * (1 + Cr)) with (1 - e) by (field; lra).
      lra.
  - (* shell and tube *)
    rewrite (effectiveness_shell_and_tube NTU Cr subtype shells Hst) by lra.
    destruct (forward_shell_and_tube NTU Cr shells Hn HCr HN)
      as (x & e1 & _ & _ & Hx & He1 & Hval).
    rewrite Hval. eexists. split; [reflexivity |].
    destruct (1 <? shells)%Z; [| lra].
    set (b := (1 - e1 * Cr) / (1 - e1)).
    assert (Hb : b * (1 - e1) = 1 - e1 * Cr) by (unfold b; field; lra).
    assert (Hb1 : 1 < b) by nra.
    destruct (series_term_increasing b (b + 1) shells Hn Hb1) as [Ht _];
      [lra |].
    set (t := powerRZ b shells) in *.
    split.
    + apply Rmult_le_pos; [lra |]. left. apply Rinv_0_lt_compat. lra.
    + apply (Rmult_lt_reg_r (t - Cr)); [lra |].
      replace ((t - 1) / (t - Cr) * (t - Cr)) with (t - 1) by (field; lra).
      lra.
  - (* crossflow, mixed Cmin *)
    eexists. split; [apply forward_mixed_Cmin; exact HCr |].
    assert (He1 : exp (- Cr * NTU) <= 1) by (apply exp_le_1; nra).
    assert (Hi : 0 < / Cr) by (apply Rinv_0_lt_compat; lra).
    pose proof (exp_pos (- / Cr * (1 - exp (- Cr * NTU)))) as Hp.
    assert (Hq : exp (- / Cr * (1 - exp (- Cr * NTU))) <= 1)
      by (apply exp_le_1; nra).
    lra.
  - (* crossflow, mixed Cmax *)
    eexists. split; [apply forward_mixed_Cmax; exact HCr |].
    assert (He1 : exp (- NTU) <= 1) by (apply exp_le_1; lra).
    pose proof (exp_pos (- NTU)) as He0.
    assert (Hk : 0 <= 1 - exp (- NTU) < 1) by lra.
    set (k := 1 - exp (- NTU)) in *.
    pose proof (exp_ineq1_le (- Cr * k)) as Hy.
    assert (Hq : exp (- Cr * k) <= 1) by (apply exp_le_1; nra).
    split.
    + apply Rmult_le_pos; [| lra]. left. apply Rdiv_lt_0_compat; lra.
    + apply (Rmult_lt_reg_r Cr); [lra |].
      replace (1 / Cr * (1 - exp (- Cr * k)) * Cr) with (1 - exp (- Cr * k))
        by (field; lra).
      nra.
  - eexists. split; [apply forward_phase_change; [exact HCr | left; reflexivity] |].
    pose proof (exp_pos (- NTU)).
    assert (exp (- NTU) <= 1) by (apply exp_le_1; lra). lra.
  - eexists. split; [apply forward_phase_change; [exact HCr | right; reflexivity] |].
    pose proof (exp_pos (- NTU)).
    assert (exp (- NTU) <= 1) by (apply exp_le_1; lra). lra.
Qed.

(** X2.  At every regular point with [NTU >= 0] (counterflow, parallel,
    shell-and-tube, one-side-mixed crossflow, boiler and condenser in the
    ranges of [regular_point]) [effectiveness_from_NTU] returns a value in
    the interval [0, 1); for crossflow with both fluids unmixed,
    [0 < Cr <= 1] and [NTU > 0], a value in (0, 1). *)
Theorem effectiveness_in_unit_interval :
  (forall (subtype : string) (Cr NTU : R),
      regular_point subtype Cr NTU -> 0 <= NTU ->
      exists eff : R,
        effectiveness_from_NTU NTU Cr subtype = Ok eff /\ 0 <= eff < 1) /\
  (forall Cr NTU : R,
      0 < Cr <= 1 -> 0 < NTU ->
      exists eff : R,
        effectiveness_from_NTU NTU Cr "crossflow" = Ok eff /\ 0 < eff < 1).
Proof.
  split; [exact regular_point_forward_range |].
  intros Cr NTU HCr HN.
  eexists. split; [apply crossflow_forward; assumption |].
  assert (Hp0 : 0 < Rpower NTU 0.22) by apply exp_pos.
  assert (Hq0 : 0 < Rpower NTU 0.78) by apply exp_pos.
  set (p := Rpower NTU 0.22) in *. set (q := Rpower NTU 0.78) in *.
  assert (Hg1 : exp (- Cr * q) < 1) by (apply exp_lt_1; nra).
  assert (Hc : 0 < 1 / Cr) by (apply Rdiv_lt_0_compat; lra).
  pose proof (exp_pos (1 / Cr * p * (exp (- Cr * q) - 1))) as He0.
  assert (He1 : exp (1 / Cr * p * (exp (- Cr * q) - 1)) < 1).
  { apply exp_lt_1.
    assert (0 < 1 / Cr * p) by (apply Rmult_lt_0_compat; assumption).
    nra. }
  lra.
Qed.

Lemma effectiveness_in_unit_interval_witness :
  (exists eff : R,
      effectiveness_from_NTU 5 0.7 "50S&T" = Ok eff /\ 0 <= eff < 1) /\
  (exists eff : R,
      effectiveness_from_NTU 5 0.7 "crossflow" = Ok eff /\ 0 < eff < 1).
Proof.
  split.
  - apply (proj1 effectiveness_in_unit_interval).
    + apply (regular_shell_and_tube "50S&T" 50 0.7 5).
      * split; reflexivity.
      * lia.
      * lra.
      * lra.
    + lra.
  - apply (proj2 effectiveness_in_unit_interval); lra.
Defined.

Lemma regular_point_forward_increasing (subtype : string) (Cr N1 N2 : R) :
  regular_point subtype Cr N1 -> N1 < N2 ->
  exists e1 e2 : R,
    effectiveness_from_NTU N1 Cr subtype = Ok e1 /\
    effectiveness_from_NTU N2 Cr subtype = Ok e2 /\ e1 < e2.
Proof.
  intros Hreg HN12. revert N2 HN12.
  destruct Hreg as [Cr NTU HCr HN | Cr NTU HCr HN
                   | subtype shells Cr NTU Hst Hn HCr HN
                   | Cr NTU HCr HN | Cr NTU HCr HN
                   | Cr NTU HCr | Cr NTU HCr]; intros N2 HN12.
  - (* counterflow *)
    destruct (Rlt_dec Cr 1) as [Hlt | Hge].
    + do 2 eexists.
      split; [apply forward_counterflow; lra |].
      split; [apply forward_counterflow; lra |].
      assert (Ha1 : exp (- NTU * (1 - Cr)) <= 1) by (apply exp_le_1; nra).
      assert (Hb0 : 0 < exp (- N2 * (1 - Cr))) by apply exp_pos.
      assert (Hab : exp (- N2 * (1 - Cr)) < exp (- NTU * (1 - Cr)))
        by (apply exp_increasing; nra).
      set (a := exp (- NTU * (1 - Cr))) in *.
      set (b := exp (- N2 * (1 - Cr))) in *.
      assert (HDa : 0 < 1 - Cr * a) by nra.
      assert (HDb : 0 < 1 - Cr * b) by nra.
      apply (Rmult_lt_reg_r ((1 - Cr * a) * (1 - Cr * b))); [nra |].
      replace ((1 - a) / (1 - Cr * a) * ((1 - Cr * a) * (1 - Cr * b)))
        with ((1 - a) * (1 - Cr * b)) by (field; lra).
      replace ((1 - b) / (1 - Cr * b) * ((1 - Cr * a) * (1 - Cr * b)))
        with ((1 - b) * (1 - Cr * a)) by (field; lra).
      nra.
    + assert (Cr = 1) by lra. subst Cr.
      do 2 eexists.
      split; [apply forward_balanced_counterflow; lra |].
      split; [apply forward_balanced_counterflow; lra |].
      apply (Rmult_lt_reg_r ((1 + NTU) * (1 + N2))); [nra |].
      replace (NTU / (1 + NTU) * ((1 + NTU) * (1 + N2)))
        with (NTU * (1 + N2)) by (field; lra).
      replace (N2 / (1 + N2) * ((1 + NTU) * (1 + N2)))
        with (N2 * (1 + NTU)) by (field; lra).
      lra.
  - (* parallel *)
    do 2 eexists.
    split; [apply forward_parallel; exact HCr |].
    split; [apply forward_parallel; exact HCr |].
    assert (Hab : exp (- N2 * (1 + Cr)) < exp (- NTU * (1 + Cr)))
      by (apply exp_increasing; nra).
    apply Rmult_lt_compat_r; [apply Rinv_0_lt_compat; lra | lra].
  - (* shell and tube *)
    assert (HN2 : 0 < N2) by lra.
    rewrite !(effectiveness_shell_and_tube _ Cr subtype shells Hst) by lra.
    destruct (forward_shell_and_tube NTU Cr shells Hn HCr HN)
      as (x1 & u1 & Ex1 & Eu1 & Hx1 & Hu1 & Hval1).
    destruct (forward_shell_and_tube N2 Cr shells Hn HCr HN2)
      as (x2 & u2 & Ex2 & Eu2 & Hx2 & Hu2 & Hval2).
    rewrite Hval1, Hval2. do 2 eexists.
    split; [reflexivity |]. split; [reflexivity |].
    pose proof (IZR_shells_pos shells Hn) as Hn'.
    pose proof (root_at_least_one Cr) as Hs.
    set (s := Rpower (1 + Cr ^ 2) 0.5) in *.
    assert (Hx : x2 < x1).
    { rewrite Ex1, Ex2. apply exp_increasing.
      assert (NTU / IZR shells < N2 / IZR shells)
        by (apply Rmult_lt_compat_r; [apply Rinv_0_lt_compat; lra | lra]).
      nra. }
    assert (Hr : s * (1 + x2) / (1 - x2) < s * (1 + x1) / (1 - x1))
      by (apply one_shell_ratio_increasing; lra).
    assert (Hr0 : 0 < s * (1 + x2) / (1 - x2)).
    { apply Rdiv_lt_0_compat; [| lra]. apply Rmult_lt_0_compat; lra. }
    assert (Hu : u1 < u2).
    { rewrite Eu1, Eu2. apply one_shell_effectiveness_decreasing; lra. }
    destruct (1 <? shells)%Z; [| exact Hu].
    assert (Hb : (1 - u1 * Cr) / (1 - u1) < (1 - u2 * Cr) / (1 - u2))
      by (apply series_base_increasing; lra).
    set (b1 := (1 - u1 * Cr) / (1 - u1)) in *.
    set (b2 := (1 - u2 * Cr) / (1 - u2)) in *.
    assert (Hb1 : 1 < b1).
    { assert (E : b1 * (1 - u1) = 1 - u1 * Cr) by (unfold b1; field; lra).
      nra. }
    destruct (series_term_increasing b1 b2 shells Hn Hb1 Hb) as [Ht1 Ht].
    apply series_effectiveness_increasing; lra.
  - (* crossflow, mixed Cmin *)
    do 2 eexists.
    split; [apply forward_mixed_Cmin; exact HCr |].
    split; [apply forward_mixed_Cmin; exact HCr |].
    assert (Hab : exp (- Cr * N2) < exp (- Cr * NTU))
      by (apply exp_increasing; nra).
    assert (Hi : 0 < / Cr) by (apply Rinv_0_lt_compat; lra).
    assert (Hlt : exp (- / Cr * (1 - exp (- Cr * N2)))
                  < exp (- / Cr * (1 - exp (- Cr * NTU))))
      by (apply exp_increasing; nra).
    lra.
  - (* crossflow, mixed Cmax *)
    do 2 eexists.
    split; [apply forward_mixed_Cmax; exact HCr |].
    split; [apply forward_mixed_Cmax; exact HCr |].
    assert (Hab : exp (- N2) < exp (- NTU)) by (apply exp_increasing; lra).
    assert (Hlt : exp (- Cr * (1 - exp (- N2)))
                  < exp (- Cr * (1 - exp (- NTU))))
      by (apply exp_increasing; nra).
    assert (Hc : 0 < 1 / Cr) by (apply Rdiv_lt_0_compat; lra).
    apply Rmult_lt_compat_l; [exact Hc | lra].
  - do 2 eexists.
    split; [apply forward_phase_change; [exact HCr | left; reflexivity] |].
    split; [apply forward_phase_change; [exact HCr | left; reflexivity] |].
    assert (exp (- N2) < exp (- NTU)) by (apply exp_increasing; lra). lra.
  - do 2 eexists.
    split; [apply forward_phase_change; [exact HCr | right; reflexivity] |].
    split; [apply forward_phase_change; [exact HCr | right; reflexivity] |].
    assert (exp (- N2) < exp (- NTU)) by (apply exp_increasing; lra). lra.
Qed.

(** X3.  For a fixed capacity-rate ratio the effectiveness
    [effectiveness_from_NTU] returns is strictly increasing in [NTU]: from
    every regular point on for the configurations with a closed-form
    inverse, and on [NTU > 0] for crossflow with both fluids unmixed and
    [0 < Cr <= 1]. *)
Theorem effectiveness_increasing_in_NTU :
  (forall (subtype : string) (Cr N1 N2 : R),
      regular_point subtype Cr N1 -> N1 < N2 ->
      exists e1 e2 : R,
        effectiveness_from_NTU N1 Cr subtype = Ok e1 /\
        effectiveness_from_NTU N2 Cr subtype = Ok e2 /\ e1 < e2) /\
  (forall Cr N1 N2 : R,
      0 < Cr <= 1 -> 0 < N1 < N2 ->
      exists e1 e2 : R,
        effectiveness_from_NTU N1 Cr "crossflow" = Ok e1 /\
        effectiveness_from_NTU N2 Cr "crossflow" = Ok e2 /\ e1 < e2).
Proof.
  split; [exact regular_point_forward_increasing |].
  intros Cr N1 N2 HCr HN.
  do 2 eexists.
  split; [apply crossflow_forward; lra |].
  split; [apply crossflow_forward; lra |].
  apply crossflow_increasing; assumption.
Qed.

Lemma effectiveness_increasing_in_NTU_witness :
  (exists e1 e2 : R,
      effectiveness_from_NTU 2 0.7 "3S&T" = Ok e1 /\
      effectiveness_from_NTU 5 0.7 "3S&T" = Ok e2 /\ e1 < e2) /\
  (exists e1 e2 : R,
      effectiveness_from_NTU 2 0.7 "crossflow" = Ok e1 /\
      effectiveness_from_NTU 5 0.7 "crossflow" = Ok e2 /\ e1 < e2).
Proof.
  split.
  - apply (proj1 effectiveness_increasing_in_NTU).
    + apply (regular_shell_and_tube "3S&T" 3 0.7 2).
      * split; reflexivity.
      * lia.
      * lra.
      * lra.
    + lra.
  - apply (proj2 effectiveness_increasing_in_NTU); lra.
Defined.

(** ** The inverse correlation followed by the forward one *)

Lemma inverse_then_forward_counterflow ridder (eff Cr NTU : R) :
  NTU_from_effectiveness ridder eff Cr "counterflow" = Ok NTU ->
  effectiveness_from_NTU NTU Cr "counterflow" = Ok eff.
Proof.
  unfold NTU_from_effectiveness, effectiveness_from_NTU.
  destruct (Rgt_dec Cr 1); [discriminate |]. eval_tag.
  destruct (Rlt_dec Cr 1) as [Hlt | Hge].
  - rewrite div_ok by lra. cbn [bind].
    destruct (Req_dec_T (eff * Cr - 1) 0) as [Hz | Hnz];
      [rewrite div_zero by exact Hz; discriminate |].
    rewrite div_ok by exact Hnz. cbn [bind].
    set (b := (eff - 1) / (eff * Cr - 1)).
    destruct (Rlt_dec 0 b) as [Hb | Hb];
      [rewrite log_ok by exact Hb | rewrite log_domain by lra; discriminate].
    cbn [bind]. take_result.
    replace (- (1 / (Cr - 1) * ln b) * (1 - Cr)) with (ln b) by (field; lra).
    rewrite exp_ln by exact Hb.
    assert (E : 1 - Cr * b = (Cr - 1) / (eff * Cr - 1))
      by (unfold b; field; exact Hnz).
    rewrite div_ok.
    + f_equal. unfold b. field. split; [exact Hnz | lra].
    + rewrite E. intros Hq.
      apply (Rmult_eq_compat_r (eff * Cr - 1)) in Hq.
      replace ((Cr - 1) / (eff * Cr - 1) * (eff * Cr - 1)) with (Cr - 1) in Hq
        by (field; exact Hnz).
      lra.
  - destruct (Req_dec_T Cr 1) as [-> | Hne]; [| discriminate].
    destruct (Req_dec_T (1 - eff) 0) as [Hz | Hnz];
      [rewrite div_zero by exact Hz; discriminate |].
    rewrite div_ok by exact Hnz. take_result.
    assert (E : 1 + eff / (1 - eff) = 1 / (1 - eff)) by (field; exact Hnz).
    rewrite div_ok.
    + f_equal. field. split; [exact Hnz | lra].
    + rewrite E. intros Hq.
      apply (Rmult_eq_compat_r (1 - eff)) in Hq.
      replace (1 / (1 - eff) * (1 - eff)) with 1 in Hq by (field; exact Hnz).
      lra.
Qed.

Lemma inverse_then_forward_parallel ridder (eff Cr NTU : R) :
  NTU_from_effectiveness ridder eff Cr "parallel" = Ok NTU ->
  effectiveness_from_NTU NTU Cr "parallel" = Ok eff.
Proof.
  unfold NTU_from_effectiveness, effectiveness_from_NTU.
  destruct (Rgt_dec Cr 1); [discriminate |]. eval_tag.
  destruct (Rgt_dec (eff * (1 + Cr)) 1).
  { destruct (Py.div 1 (Cr + 1)); discriminate. }
  destruct (Rlt_dec 0 (1 - eff * (1 + Cr))) as [Hb | Hb];
    [rewrite log_ok by exact Hb | rewrite log_domain by lra; discriminate].
  cbn [bind].
  destruct (Req_dec_T (1 + Cr) 0) as [Hz | Hnz];
    [rewrite (div_zero _ _ Hz); discriminate |].
  rewrite !(div_ok _ _ Hnz). take_result.
  replace (- (- ln (1 - eff * (1 + Cr)) / (1 + Cr)) * (1 + Cr))
    with (ln (1 - eff * (1 + Cr))) by (field; exact Hnz).
  rewrite exp_ln by exact Hb. f_equal. field. exact Hnz.
Qed.

Lemma inverse_then_forward_mixed_Cmin ridder (eff Cr NTU : R) :
  NTU_from_effectiveness ridder eff Cr "crossflow, mixed Cmin" = Ok NTU ->
  effectiveness_from_NTU NTU Cr "crossflow, mixed Cmin" = Ok eff.
Proof.
  unfold NTU_from_effectiveness, effectiveness_from_NTU.
  destruct (Rgt_dec Cr 1); [discriminate |]. eval_tag.
  destruct (Rlt_dec 0 (1 - eff)) as [Hb | Hb];
    [rewrite log_ok by exact Hb | rewrite log_domain by lra; discriminate].
  cbn [bind].
  destruct (Rlt_dec (Cr * ln (1 - eff)) (-1)).
  { destruct (Py.div (-1) Cr); discriminate. }
  destruct (Req_dec_T Cr 0) as [Hz | Hnz];
    [rewrite (div_zero _ _ Hz); discriminate |].
  rewrite (div_ok _ _ Hnz). cbn [bind].
  destruct (Rlt_dec 0 (Cr * ln (1 - eff) + 1)) as [Hc | Hc];
    [rewrite log_ok by exact Hc | rewrite log_domain by lra; discriminate].
  cbn [bind]. take_result.
  rewrite pow_int_nonzero by exact Hnz. cbn [bind].
  change (powerRZ Cr (-1)) with (/ (Cr ^ 1)).
  replace (Cr ^ 1) with Cr by ring.
  replace (- Cr * (-1 / Cr * ln (Cr * ln (1 - eff) + 1)))
    with (ln (Cr * ln (1 - eff) + 1)) by (field; exact Hnz).
  rewrite exp_ln by exact Hc.
  replace (- / Cr * (1 - (Cr * ln (1 - eff) + 1))) with (ln (1 - eff))
    by (field; exact Hnz).
  rewrite exp_ln by exact Hb. f_equal. ring.
Qed.

Lemma inverse_then_forward_mixed_Cmax ridder (eff Cr NTU : R) :
  NTU_from_effectiveness ridder eff Cr "crossflow, mixed Cmax" = Ok NTU ->
  effectiveness_from_NTU NTU Cr "crossflow, mixed Cmax" = Ok eff.
Proof.
  unfold NTU_from_effectiveness, effectiveness_from_NTU.
  destruct (Rgt_dec Cr 1); [discriminate |]. eval_tag.
  destruct (Req_dec_T Cr 0) as [Hz | Hnz];
    [rewrite (div_zero _ _ Hz); discriminate |].
  rewrite !(div_ok 1 _ Hnz). cbn [bind].
  destruct (Rlt_dec 0 (1 - eff * Cr)) as [Hb | Hb];
    [rewrite log_ok by exact Hb | rewrite log_domain by lra; discriminate].
  cbn [bind].
  destruct (Rlt_dec (1 / Cr * ln (1 - eff * Cr)) (-1)).
  { destruct (Py.div _ Cr); discriminate. }
  destruct (Rlt_dec 0 (1 + 1 / Cr * ln (1 - eff * Cr))) as [Hc | Hc];
    [rewrite log_ok by exact Hc | rewrite log_domain by lra; discriminate].
  cbn [bind]. take_result.
  rewrite Ropp_involutive, exp_ln by exact Hc.
  replace (- Cr * (1 - (1 + 1 / Cr * ln (1 - eff * Cr))))
    with (ln (1 - eff * Cr)) by (field; exact Hnz).
  rewrite exp_ln by exact Hb. f_equal. field. exact Hnz.
Qed.

Lemma inverse_then_forward_phase_change ridder (eff Cr NTU : R) (subtype : string) :
  subtype = "boiler"%string \/ subtype = "condenser"%string ->
  NTU_from_effectiveness ridder eff Cr subtype = Ok NTU ->
  effectiveness_from_NTU NTU Cr subtype = Ok eff.
Proof.
  intros Hs. unfold NTU_from_effectiveness, effectiveness_from_NTU.
  destruct (Rgt_dec Cr 1); [discriminate |].
  destruct Hs as [-> | ->]; eval_tag;
    (destruct (Rlt_dec 0 (1 - eff)) as [Hb | Hb];
     [rewrite log_ok by exact Hb | rewrite log_domain by lra; discriminate]);
    cbn [bind]; take_result;
    rewrite Ropp_involutive, exp_ln by exact Hb; f_equal; ring.
Qed.

Lemma inverse_then_forward_shell_and_tube (eff Cr NTU : R) (shells : Z) :
  (1 <= shells)%Z -> 0 <= eff < 1 -> Cr <= 1 ->
  shell_and_tube_NTU eff Cr shells = Ok NTU ->
  shell_and_tube_effectiveness NTU Cr shells = Ok eff.
Proof.
  intros Hshells Heff HCr.
  pose proof (IZR_shells_pos shells Hshells) as Hn.
  pose proof (root_at_least_one Cr) as Hs.
  pose proof (root_inverse Cr) as Hinv.
  unfold shell_and_tube_NTU.
  rewrite div_ok by lra. cbn [bind].
  rewrite div_ok by lra. cbn [bind].
  assert (Hb0 : 0 < (eff * Cr - 1) / (eff - 1)).
  { replace ((eff * Cr - 1) / (eff - 1)) with ((1 - eff * Cr) / (1 - eff))
      by (field; lra).
    apply Rdiv_lt_0_compat; nra. }
  set (b := (eff * Cr - 1) / (eff - 1)) in *.
  assert (Eb : b * (eff - 1) = eff * Cr - 1) by (unfold b; field; lra).
  rewrite pow_pos by exact Hb0. cbn [bind].
  assert (HF0 : 0 < Rpower b (1 / IZR shells)) by apply exp_pos.
  assert (HFn : Rpower (Rpower b (1 / IZR shells)) (IZR shells) = b).
  { rewrite Rpower_mult.
    replace (1 / IZR shells * IZR shells) with 1 by (field; lra).
    apply Rpower_1. exact Hb0. }
  set (F := Rpower b (1 / IZR shells)) in *.
  destruct (Req_dec_T (F - Cr) 0) as [Hz | HFC];
    [rewrite (div_zero _ _ Hz); discriminate |].
  rewrite (div_ok _ _ HFC). cbn [bind].
  set (e1 := (F - 1) / (F - Cr)).
  assert (Ee1 : e1 * (F - Cr) = F - 1) by (unfold e1; field; exact HFC).
  destruct (Req_dec_T e1 0) as [Hz | He1];
    [rewrite (div_zero _ _ Hz); discriminate |].
  rewrite (div_ok _ _ He1). cbn [bind].
  rewrite pow_pos by apply sum_of_square_pos. cbn [bind].
  set (s := Rpower (1 + Cr ^ 2) 0.5) in *.
  rewrite div_ok by lra. cbn [bind].
  set (E := (2 / e1 - (1 + Cr)) / s).
  assert (EE : s * E = 2 / e1 - (1 + Cr)) by (unfold E; field; lra).
  destruct (Req_dec_T (E + 1) 0) as [Hz | HE1];
    [rewrite (div_zero _ _ Hz); discriminate |].
  rewrite (div_ok _ _ HE1). cbn [bind].
  set (g := (E - 1) / (E + 1)).
  assert (Eg : g * (E + 1) = E - 1) by (unfold g; field; exact HE1).
  destruct (Rle_dec g 0) as [Hg | Hg].
  { match goal with
    | |- ?t = ?v -> _ =>
        assert (Hne : t <> v); [| intros H; contradiction]
    end.
    unfold Py.sqrt, Py.div, Py.pow_int.
    repeat step_bind; discriminate. }
  assert (Hg0 : 0 < g) by lra.
  rewrite pow_pos by apply sum_of_square_pos. cbn [bind].
  rewrite log_ok by exact Hg0. cbn [bind]. take_result.
  (* the capacity-rate ratio is below one *)
  assert (HCr1 : Cr < 1).
  { destruct (Rlt_dec Cr 1) as [Hlt | Hge]; [exact Hlt |].
    exfalso. assert (Cr = 1) by lra. subst Cr.
    assert (b = 1) by nra.
    apply HFC. unfold F. rewrite H, Rpower_base_1. ring. }
  (* forward *)
  unfold shell_and_tube_effectiveness.
  rewrite div_ok by lra. cbn [bind].
  rewrite pow_pos by apply sum_of_square_pos. cbn [bind]. cbv zeta. fold s.
  replace (- (IZR shells * (- Rpower (1 + Cr ^ 2) (-0.5) * ln g) / IZR shells) * s)
    with (ln g) by (rewrite Hinv; fold s; field; lra).
  rewrite exp_ln by exact Hg0.
  assert (Hg1 : 1 - g <> 0).
  { intros Hq. assert (g = 1) by lra. rewrite H in Eg. lra. }
  rewrite (div_ok _ _ Hg1). cbn [bind].
  assert (Er : s * (1 + g) / (1 - g) = 2 / e1 - (1 + Cr)).
  { rewrite <- EE. apply (Rmult_eq_reg_r (1 - g)); [| exact Hg1].
    replace (s * (1 + g) / (1 - g) * (1 - g)) with (s * (1 + g))
      by (field; exact Hg1).
    replace (s * E * (1 - g)) with (s * (E + 1 - g * (E + 1) - 1 + g)) by ring.
    rewrite Eg. ring. }
  rewrite Er.
  replace (1 + Cr + (2 / e1 - (1 + Cr))) with (2 / e1) by ring.
  assert (Ht : 2 / e1 <> 0).
  { intros Hq. apply (Rmult_eq_compat_r e1) in Hq.
    replace (2 / e1 * e1) with 2 in Hq by (field; exact He1). lra. }
  rewrite (div_ok _ _ Ht). cbn [bind].
  replace (2 / (2 / e1)) with e1 by (field; exact He1).
  assert (H1e : 1 - e1 <> 0).
  { intros Hq. assert (e1 = 1) by lra. rewrite H in Ee1. lra. }
  assert (Hbb : b - Cr <> 0).
  { intros Hq. assert (Hq' : b = Cr) by lra. rewrite Hq' in Eb. nra. }
  assert (Hval : (b - 1) / (b - Cr) = eff).
  { apply (Rmult_eq_reg_r (b - Cr)); [| exact Hbb].
    replace ((b - 1) / (b - Cr) * (b - Cr)) with (b - 1) by (field; exact Hbb).
    nra. }
  destruct (1 <? shells)%Z eqn:Hgt.
  - rewrite (div_ok _ _ H1e). cbn [bind].
    replace ((1 - e1 * Cr) / (1 - e1)) with F.
    2:{ apply (Rmult_eq_reg_r (1 - e1)); [| exact H1e].
        replace ((1 - e1 * Cr) / (1 - e1) * (1 - e1)) with (1 - e1 * Cr)
          by (field; exact H1e).
        apply (Rmult_eq_reg_r (F - Cr)); [| exact HFC].
        replace (F * (1 - e1) * (F - Cr)) with (F * (F - Cr) - F * (e1 * (F - Cr)))
          by ring.
        replace ((1 - e1 * Cr) * (F - Cr)) with (F - Cr - Cr * (e1 * (F - Cr)))
          by ring.
        rewrite Ee1. ring. }
    rewrite pow_int_nonzero by lra. cbn [bind].
    rewrite powerRZ_Rpower by exact HF0. rewrite HFn.
    rewrite (div_ok _ _ Hbb). f_equal. exact Hval.
  - apply Z.ltb_ge in Hgt. assert (shells = 1%Z) by lia. subst shells.
    f_equal. rewrite <- Hval. unfold e1.
    replace F with b; [reflexivity |].
    rewrite <- HFn. apply Rpower_1. exact HF0.
Qed.

(** X4.  Whenever [NTU_from_effectiveness] returns a number of transfer
    units for counterflow, parallel flow, one-side-mixed crossflow, a
    boiler or a condenser, [effectiveness_from_NTU] of that number returns
    the effectiveness that was asked for; the same holds for a
    shell-and-tube exchanger of at least one shell when the effectiveness
    lies in [0, 1). *)
Theorem inverse_then_forward :
  forall ridder (eff Cr NTU : R) (subtype : string),
    In subtype ("counterflow" :: "parallel" :: "crossflow, mixed Cmin"
                :: "crossflow, mixed Cmax" :: "boiler" :: "condenser" :: nil)%string
    \/ (exists shells : Z,
          shell_and_tube subtype shells /\ (1 <= shells)%Z /\ 0 <= eff < 1) ->
    NTU_from_effectiveness ridder eff Cr subtype = Ok NTU ->
    effectiveness_from_NTU NTU Cr subtype = Ok eff.
Proof.
  intros ridder eff Cr NTU subtype [Hin | (shells & Hst & Hn & Heff)] Hinv.
  - cbn [In] in Hin.
    destruct Hin as [<- | [<- | [<- | [<- | [<- | [<- | []]]]]]].
    + exact (inverse_then_forward_counterflow ridder eff Cr NTU Hinv).
    + exact (inverse_then_forward_parallel ridder eff Cr NTU Hinv).
    + exact (inverse_then_forward_mixed_Cmin ridder eff Cr NTU Hinv).
    + exact (inverse_then_forward_mixed_Cmax ridder eff Cr NTU Hinv).
    + refine (inverse_then_forward_phase_change ridder eff Cr NTU _ _ Hinv).
      left. reflexivity.
    + refine (inverse_then_forward_phase_change ridder eff Cr NTU _ _ Hinv).
      right. reflexivity.
  - assert (HCr : Cr <= 1).
    { destruct (Rgt_dec Cr 1) as [Hgt | Hle]; [| lra].
      exfalso. revert Hinv. unfold NTU_from_effectiveness.
      destruct (Rgt_dec Cr 1); [discriminate | contradiction]. }
    rewrite (NTU_shell_and_tube ridder eff Cr subtype shells Hst HCr) in Hinv.
    rewrite (effectiveness_shell_and_tube NTU Cr subtype shells Hst HCr).
    apply inverse_then_forward_shell_and_tube; assumption.
Qed.

Lemma inverse_then_forward_witness :
  effectiveness_from_NTU 1 1 "counterflow" = Ok (1 / 2).
Proof.
  apply (inverse_then_forward ridder_unused (1 / 2) 1 1 "counterflow").
  - left. left. reflexivity.
  - unfold NTU_from_effectiveness.
    destruct (Rgt_dec 1 1); [lra |]. eval_tag.
    destruct (Rlt_dec 1 1); [lra |].
    destruct (Req_dec_T 1 1); [| lra].
    rewrite div_ok by lra. f_equal. lra.
Defined.

(** ** The solver and the guard on the capacity-rate ratio *)

Lemma forward_not_invalid (NTU Cr : R) (subtype : string) :
  Cr <= 1 -> effectiveness_from_NTU NTU Cr subtype <> Raise InvalidInput.
Proof.
  intros HCr. unfold effectiveness_from_NTU, shell_and_tube_effectiveness.
  destruct (Rgt_dec Cr 1); [lra |]. unfold_py.
  pose proof (shell_count_raises subtype) as Hs.
  destruct (shell_count subtype) as [shells | e];
    [| rewrite (Hs e eq_refl)];
    repeat step_bind; discriminate.
Qed.

Lemma inverse_not_invalid ridder (eff Cr : R) (subtype : string) :
  Cr <= 1 -> (forall f a b, ridder f a b <> Raise InvalidInput) ->
  NTU_from_effectiveness ridder eff Cr subtype <> Raise InvalidInput.
Proof.
  intros HCr Hr. unfold NTU_from_effectiveness, shell_and_tube_NTU.
  destruct (Rgt_dec Cr 1); [lra |]. unfold_py.
  pose proof (shell_count_raises subtype) as Hs.
  destruct (shell_count subtype) as [shells | e];
    [| rewrite (Hs e eq_refl)];
    repeat step_bind; try discriminate; apply Hr.
Qed.

(** X5.  For two streams with positive capacity rates the solver never
    ends in the exception of the guard [Cr > 1] of the correlation
    functions, whatever the temperatures, [UA] and the configuration are,
    as long as the root finder does not raise it itself: the ratio it
    passes on is at most one. *)
Theorem solver_never_trips_ratio_guard :
  forall ridder (mh mc Cph Cpc : R) (subtype : string)
         (Thi Tho Tci Tco UA : option R),
    0 < mh * Cph -> 0 < mc * Cpc ->
    (forall f a b, ridder f a b <> Raise InvalidInput) ->
    effectiveness_NTU_method ridder mh mc Cph Cpc subtype Thi Tho Tci Tco UA
    <> Raise InvalidInput.
Proof.
  intros ridder mh mc Cph Cpc subtype Thi Tho Tci Tco UA Hh Hc Hr.
  pose proof (ratio_at_most_one _ _ Hh Hc) as HCr.
  pose proof (Rmax_pos _ _ Hh Hc) as Hmax.
  unfold_method. cbv zeta.
  rewrite div_ok by lra. cbn [bind].
  set (Cr := Rmin (mh * Cph) (mc * Cpc) / Rmax (mh * Cph) (mc * Cpc)) in *.
  destruct UA as [UA |].
  - destruct (Py.div UA _) as [NTU | e] eqn:HNTU; cbn [bind].
    2:{ revert HNTU. unfold Py.div. destruct (Req_dec_T _ 0); congruence. }
    pose proof (forward_not_invalid NTU Cr subtype (proj2 HCr)) as Hf.
    destruct (effectiveness_from_NTU NTU Cr subtype) as [eff | e]; cbn [bind];
      [| congruence].
    destruct (negb _); [discriminate |].
    unfold duty_from_UA, finish_with_UA.
    repeat run; discriminate.
  - unfold temperatures_without_UA, finish_without_UA.
    destruct Thi, Tho, Tci, Tco; cbv zeta;
      repeat (first [ progress cbn [bind Locals.Q Locals.Thi Locals.Tho
                                    Locals.Tci Locals.Tco Py.load Py.num]
                    | run ]);
      try discriminate;
      match goal with
      | |- context [NTU_from_effectiveness ridder ?e Cr subtype] =>
          pose proof (inverse_not_invalid ridder e Cr subtype (proj2 HCr) Hr) as Hn;
          destruct (NTU_from_effectiveness ridder e Cr subtype)
      end;
      cbn [bind]; try discriminate; congruence.
Qed.

Lemma solver_never_trips_ratio_guard_witness :
  effectiveness_NTU_method ridder_unused 5.2 1.45 1860 1900 "crossflow"
    (Some 130) None (Some 15) None None
  <> Raise InvalidInput.
Proof.
  apply solver_never_trips_ratio_guard.
  - lra.
  - lra.
  - intros f a b. unfold ridder_unused. discriminate.
Defined.

(** ** What the solver's result satisfies *)

Lemma bind_returned {A B : Type} (m : result A) (k : A -> result B) (b : B) :
  bind m k = Ok b -> exists a : A, m = Ok a /\ k a = Ok b.
Proof.
  destruct m as [a | e]; cbn [bind]; [| discriminate].
  intros H. exists a. split; [reflexivity | exact H].
Qed.

Lemma div_returned (x y v : R) : Py.div x y = Ok v -> y <> 0 /\ v = x / y.
Proof.
  unfold Py.div. destruct (Req_dec_T y 0); [discriminate |].
  intros H. apply Ok_inj in H. split; [assumption | symmetry; exact H].
Qed.

(** X6.  With [UA] given and no temperature at all on the hot side, or
    none on the cold side, the solver first evaluates the capacity-rate
    ratio, [NTU] and the effectiveness, and when none of them fails it
    raises the exception that asks for one temperature of each stream. *)
Theorem one_sided_temperatures_rejected :
  forall ridder (mh mc Cph Cpc : R) (subtype : string)
         (Thi Tho Tci Tco : option R) (UA : R),
    (Thi = None /\ Tho = None) \/ (Tci = None /\ Tco = None) ->
    effectiveness_NTU_method ridder mh mc Cph Cpc subtype Thi Tho Tci Tco (Some UA)
    = (Cr <- calc_Cr mh mc Cph Cpc ;;
       NTU <- NTU_from_UA UA (calc_Cmin mh mc Cph Cpc) ;;
       eff <- effectiveness_from_NTU NTU Cr subtype ;;
       Raise InsufficientInput).
Proof.
  intros ridder mh mc Cph Cpc subtype Thi Tho Tci Tco UA Hside.
  unfold effectiveness_NTU_method. cbv zeta.
  destruct (calc_Cr mh mc Cph Cpc) as [Cr |]; cbn [bind]; [| reflexivity].
  destruct (NTU_from_UA UA _) as [NTU |]; cbn [bind]; [| reflexivity].
  destruct (effectiveness_from_NTU NTU Cr subtype) as [eff |]; cbn [bind];
    [| reflexivity].
  destruct Hside as [[-> ->] | [-> ->]].
  - destruct Tci, Tco; reflexivity.
  - destruct Thi, Tho; reflexivity.
Qed.

Lemma one_sided_temperatures_rejected_witness :
  effectiveness_NTU_method ridder_unused 1 1 1 1 "counterflow"
    (Some 100) (Some 75) None None (Some 1)
  = (Cr <- calc_Cr 1 1 1 1 ;;
     NTU <- NTU_from_UA 1 (calc_Cmin 1 1 1 1) ;;
     eff <- effectiveness_from_NTU NTU Cr "counterflow" ;;
     Raise InsufficientInput).
Proof.
  apply one_sided_temperatures_rejected. right. split; reflexivity.
Defined.

(** With [UA] given, the duty of lines 855-862 for exactly one hot and one
    cold temperature, both of them true in Python: the returned
    temperatures and duty satisfy [Q = effectiveness*Cmin*(Thi - Tci)]. *)
Lemma rating_mode_duty :
  forall (UA Cr Cmin Cmax eff NTU Cc Ch : R) (Thi Tho Tci Tco Q : option R)
         (r : Solved.t),
    xorb (is_some Thi) (is_some Tho) = true ->
    xorb (is_some Tci) (is_some Tco) = true ->
    duty_from_UA eff Cmin Cc Ch Thi Tho Tci Tco = Ok Q ->
    finish_with_UA UA Cr Cmin Cmax eff NTU Cc Ch Q Thi Tho Tci Tco = Ok r ->
    Solved.Q r
    = Solved.effectiveness r * Solved.Cmin r * (Solved.Thi r - Solved.Tci r).
Proof.
  intros UA Cr Cmin Cmax eff NTU Cc Ch Thi Tho Tci Tco Q r Hhot Hcold.
  unfold duty_from_UA, finish_with_UA, Py.truthy.
  destruct Thi as [thi |], Tho as [tho |]; try discriminate Hhot;
    destruct Tci as [tci |], Tco as [tco |]; try discriminate Hcold;
    clear Hhot Hcold;
    cbn [andb negb];
    repeat match goal with
    | |- context [Req_dec_T ?x 0] =>
        lazymatch x with
        | thi => destruct (Req_dec_T thi 0)
        | tho => destruct (Req_dec_T tho 0)
        | tci => destruct (Req_dec_T tci 0)
        | tco => destruct (Req_dec_T tco 0)
        end
    end;
    cbn [andb negb Py.num bind];
    repeat run; try discriminate;
    take_result; cbn [bind Py.load];
    repeat run; try discriminate;
    take_result;
    cbn [Solved.Q Solved.Thi Solved.Tci Solved.effectiveness Solved.Cmin fst snd];
    try (field; repeat split; assumption).
Qed.

(** Without [UA], lines 904-909 compute the effectiveness from the duty:
    every result satisfies [Q = effectiveness*Cmin*(Thi - Tci)]. *)
Lemma sizing_mode_duty :
  forall ridder (Cr Cmin Cmax : R) (subtype : string) (l : Locals.t)
         (r : Solved.t),
    finish_without_UA ridder Cr Cmin Cmax subtype l = Ok r ->
    Solved.Q r
    = Solved.effectiveness r * Solved.Cmin r * (Solved.Thi r - Solved.Tci r).
Proof.
  intros ridder Cr Cmin Cmax subtype l r. unfold finish_without_UA.
  destruct l as [[q |] [thi |] [tho |] [tci |] [tco |]];
    cbn [Locals.Q Locals.Thi Locals.Tho Locals.Tci Locals.Tco Py.load Py.num bind];
    try discriminate;
    repeat run; try discriminate;
    try (destruct (NTU_from_effectiveness ridder _ Cr subtype); cbn [bind];
         try discriminate);
    try (take_result;
         cbn [Solved.Q Solved.Thi Solved.Tci Solved.effectiveness Solved.Cmin];
         field; split; assumption).
Qed.

(** What a result of the solver records when [UA] was given. *)
Lemma rating_mode_result :
  forall ridder (mh mc Cph Cpc : R) (subtype : string)
         (Thi Tho Tci Tco : option R) (UA : R) (r : Solved.t),
    effectiveness_NTU_method ridder mh mc Cph Cpc subtype Thi Tho Tci Tco (Some UA)
    = Ok r ->
    calc_Cr mh mc Cph Cpc = Ok (Solved.Cr r) /\
    Solved.Cmin r = calc_Cmin mh mc Cph Cpc /\
    Solved.Cmax r = calc_Cmax mh mc Cph Cpc /\
    Solved.Cmin r <> 0 /\
    Solved.UA r = UA /\
    Solved.NTU r = UA / Solved.Cmin r /\
    effectiveness_from_NTU (Solved.NTU r) (Solved.Cr r) subtype
    = Ok (Solved.effectiveness r) /\
    exists Q : option R,
      duty_from_UA (Solved.effectiveness r) (Solved.Cmin r) (mc * Cpc) (mh * Cph)
        Thi Tho Tci Tco = Ok Q /\
      finish_with_UA UA (Solved.Cr r) (Solved.Cmin r) (Solved.Cmax r)
        (Solved.effectiveness r) (Solved.NTU r) (mc * Cpc) (mh * Cph)
        Q Thi Tho Tci Tco = Ok r.
Proof.
  intros ridder mh mc Cph Cpc subtype Thi Tho Tci Tco UA r.
  unfold effectiveness_NTU_method. cbv zeta.
  destruct (calc_Cr mh mc Cph Cpc) as [Cr |]; cbn [bind]; [| discriminate].
  unfold NTU_from_UA.
  set (Cmin := calc_Cmin mh mc Cph Cpc). set (Cmax := calc_Cmax mh mc Cph Cpc).
  destruct (Req_dec_T Cmin 0) as [Hz | Hnz];
    [rewrite (div_zero _ _ Hz); discriminate |].
  rewrite (div_ok _ _ Hnz). cbn [bind].
  destruct (effectiveness_from_NTU (UA / Cmin) Cr subtype) as [eff |] eqn:Heff;
    cbn [bind]; [| discriminate].
  destruct (negb _); [discriminate |].
  destruct (duty_from_UA eff Cmin (mc * Cpc) (mh * Cph) Thi Tho Tci Tco)
    as [Q |] eqn:HQ; cbn [bind]; [| discriminate].
  intros Hfin.
  assert (Hf : Solved.Cr r = Cr /\ Solved.Cmin r = Cmin /\ Solved.Cmax r = Cmax /\
               Solved.UA r = UA /\ Solved.NTU r = UA / Cmin /\
               Solved.effectiveness r = eff).
  { revert Hfin. unfold finish_with_UA.
    repeat run; try discriminate; take_result; cbn; repeat split. }
  destruct Hf as (E1 & E2 & E3 & E4 & E5 & E6).
  rewrite E1, E2, E3, E4, E5, E6.
  repeat split; try assumption.
  exists Q. split; assumption.
Qed.

(** What a result of the solver records when [UA] was not given. *)
Lemma sizing_mode_result :
  forall ridder (mh mc Cph Cpc : R) (subtype : string)
         (Thi Tho Tci Tco : option R) (r : Solved.t),
    effectiveness_NTU_method ridder mh mc Cph Cpc subtype Thi Tho Tci Tco None
    = Ok r ->
    calc_Cr mh mc Cph Cpc = Ok (Solved.Cr r) /\
    Solved.Cmin r = calc_Cmin mh mc Cph Cpc /\
    Solved.Cmax r = calc_Cmax mh mc Cph Cpc /\
    Solved.Cmin r <> 0 /\
    Solved.UA r = UA_from_NTU (Solved.NTU r) (Solved.Cmin r) /\
    NTU_from_effectiveness ridder (Solved.effectiveness r) (Solved.Cr r) subtype
    = Ok (Solved.NTU r) /\
    Solved.Q r
    = Solved.effectiveness r * Solved.Cmin r * (Solved.Thi r - Solved.Tci r).
Proof.
  intros ridder mh mc Cph Cpc subtype Thi Tho Tci Tco r Hcall.
  unfold effectiveness_NTU_method in Hcall. cbv zeta in Hcall.
  apply bind_returned in Hcall as (Cr & HCr & Hcall).
  apply bind_returned in Hcall as (l & _ & Hfin).
  pose proof (sizing_mode_duty _ _ _ _ _ _ _ Hfin) as Hduty.
  unfold finish_without_UA in Hfin.
  apply bind_returned in Hfin as (q & _ & Hfin).
  apply bind_returned in Hfin as (a & Ha & Hfin).
  apply bind_returned in Hfin as (thi & _ & Hfin).
  apply bind_returned in Hfin as (tci & _ & Hfin).
  apply bind_returned in Hfin as (eff & _ & Hfin).
  apply bind_returned in Hfin as (NTU & HNTU & Hfin).
  apply bind_returned in Hfin as (tho & _ & Hfin).
  apply bind_returned in Hfin as (tco & _ & Hfin).
  apply Ok_inj in Hfin. subst r.
  cbn [Solved.Q Solved.UA Solved.Cr Solved.Cmin Solved.Cmax Solved.effectiveness
       Solved.NTU Solved.Thi Solved.Tci] in *.
  destruct (div_returned _ _ _ Ha) as [Hnz _].
  repeat split; assumption.
Qed.

(** X7.  Every result of the solver obtained without [UA], or with [UA]
    and exactly one temperature of each stream, satisfies the defining
    relation of the effectiveness: the returned duty is the returned
    effectiveness times [Cmin] times the difference of the two returned
    inlet temperatures. *)
Theorem duty_is_effectiveness_of_maximum :
  forall ridder (mh mc Cph Cpc : R) (subtype : string)
         (Thi Tho Tci Tco UA : option R) (r : Solved.t),
    effectiveness_NTU_method ridder mh mc Cph Cpc subtype Thi Tho Tci Tco UA
    = Ok r ->
    UA = None \/
    (xorb (is_some Thi) (is_some Tho) = true /\
     xorb (is_some Tci) (is_some Tco) = true) ->
    Solved.Q r
    = Solved.effectiveness r * Solved.Cmin r * (Solved.Thi r - Solved.Tci r).
Proof.
  intros ridder mh mc Cph Cpc subtype Thi Tho Tci Tco UA r Hcall Hmode.
  destruct UA as [UA |].
  - destruct Hmode as [Hnone | [Hhot Hcold]]; [discriminate |].
    destruct (rating_mode_result _ _ _ _ _ _ _ _ _ _ _ _ Hcall)
      as (_ & _ & _ & _ & _ & _ & _ & Q & HQ & Hfin).
    exact (rating_mode_duty _ _ _ _ _ _ _ _ _ _ _ _ _ _ Hhot Hcold HQ Hfin).
  - exact (proj2 (proj2 (proj2 (proj2 (proj2 (proj2
             (sizing_mode_result _ _ _ _ _ _ _ _ _ _ _ Hcall))))))).
Qed.

Lemma duty_is_effectiveness_of_maximum_witness :
  Solved.Q rated_example
  = Solved.effectiveness rated_example * Solved.Cmin rated_example
    * (Solved.Thi rated_example - Solved.Tci rated_example).
Proof.
  apply (duty_is_effectiveness_of_maximum ridder_unused 1 1 1 1 "counterflow"
           (Some 100) None (Some 50) None (Some 1) rated_example).
  - exact rated_example_solved.
  - right. split; reflexivity.
Defined.

(** X8.  Every result of the solver records what the helper functions
    return for its inputs: [Cmin], [Cmax] and [Cr] are those of
    [calc_Cmin], [calc_Cmax] and [calc_Cr], [UA] is [UA_from_NTU] of the
    recorded [NTU] and [Cmin]; with [UA] given the recorded effectiveness is
    [effectiveness_from_NTU] of the recorded [NTU], without it the recorded
    [NTU] is [NTU_from_effectiveness] of the recorded effectiveness. *)
Theorem result_matches_correlations :
  forall ridder (mh mc Cph Cpc : R) (subtype : string)
         (Thi Tho Tci Tco UA : option R) (r : Solved.t),
    effectiveness_NTU_method ridder mh mc Cph Cpc subtype Thi Tho Tci Tco UA
    = Ok r ->
    calc_Cr mh mc Cph Cpc = Ok (Solved.Cr r) /\
    Solved.Cmin r = calc_Cmin mh mc Cph Cpc /\
    Solved.Cmax r = calc_Cmax mh mc Cph Cpc /\
    Solved.UA r = UA_from_NTU (Solved.NTU r) (Solved.Cmin r) /\
    match UA with
    | Some UA =>
        Solved.UA r = UA /\
        NTU_from_UA UA (Solved.Cmin r) = Ok (Solved.NTU r) /\
        effectiveness_from_NTU (Solved.NTU r) (Solved.Cr r) subtype
        = Ok (Solved.effectiveness r)
    | None =>
        NTU_from_effectiveness ridder (Solved.effectiveness r) (Solved.Cr r)
          subtype
        = Ok (Solved.NTU r)
    end.
Proof.
  intros ridder mh mc Cph Cpc subtype Thi Tho Tci Tco UA r Hcall.
  destruct UA as [UA |].
  - destruct (rating_mode_result _ _ _ _ _ _ _ _ _ _ _ _ Hcall)
      as (HCr & Hmin & Hmax & Hnz & HUA & HNTU & Heff & _).
    repeat split; try assumption.
    + unfold UA_from_NTU. rewrite HUA, HNTU. field. exact Hnz.
    + unfold NTU_from_UA. rewrite HNTU. apply div_ok. exact Hnz.
  - destruct (sizing_mode_result _ _ _ _ _ _ _ _ _ _ _ Hcall)
      as (HCr & Hmin & Hmax & _ & HUA & HNTU & _).
    repeat split; assumption.
Qed.

Lemma result_matches_correlations_witness :
  calc_Cr 1 1 1 1 = Ok (Solved.Cr rated_example) /\
  Solved.Cmin rated_example = calc_Cmin 1 1 1 1 /\
  Solved.Cmax rated_example = calc_Cmax 1 1 1 1 /\
  Solved.UA rated_example
  = UA_from_NTU (Solved.NTU rated_example) (Solved.Cmin rated_example) /\
  Solved.UA rated_example = 1 /\
  NTU_from_UA 1 (Solved.Cmin rated_example) = Ok (Solved.NTU rated_example) /\
  effectiveness_from_NTU (Solved.NTU rated_example) (Solved.Cr rated_example)
    "counterflow"
  = Ok (Solved.effectiveness rated_example).
Proof.
  exact (result_matches_correlations ridder_unused 1 1 1 1 "counterflow"
           (Some 100) None (Some 50) None (Some 1) rated_example
           rated_example_solved).
Defined.

(** ** From rating to sizing and back *)

Lemma regular_point_round_trip ridder (subtype : string) (Cr NTU : R) :
  regular_point subtype Cr NTU -> round_trip ridder NTU Cr subtype = Ok NTU.
Proof.
  intros Hreg.
  destruct Hreg as [Cr NTU HCr HN | Cr NTU HCr HN
                   | subtype shells Cr NTU Hst Hn HCr HN
                   | Cr NTU HCr HN | Cr NTU HCr HN
                   | Cr NTU HCr | Cr NTU HCr].
  - apply round_trip_counterflow; assumption.
  - apply round_trip_parallel; assumption.
  - unfold round_trip.
    rewrite (effectiveness_shell_and_tube NTU Cr subtype shells Hst) by lra.
    pose proof (round_trip_shell_and_tube NTU Cr shells Hn HCr HN) as Hrt.
    destruct (shell_and_tube_effectiveness NTU Cr shells) as [eff | e];
      cbn [bind] in Hrt |- *; [| discriminate Hrt].
    rewrite (NTU_shell_and_tube ridder eff Cr subtype shells Hst) by lra.
    exact Hrt.
  - apply round_trip_mixed_Cmin; assumption.
  - apply round_trip_mixed_Cmax; assumption.
  - apply round_trip_phase_change; [assumption | left; reflexivity].
  - apply round_trip_phase_change; [assumption | right; reflexivity].
Qed.

Lemma regular_point_inverse ridder (subtype : string) (Cr NTU eff : R) :
  regular_point subtype Cr NTU ->
  effectiveness_from_NTU NTU Cr subtype = Ok eff ->
  NTU_from_effectiveness ridder eff Cr subtype = Ok NTU.
Proof.
  intros Hreg Heff.
  pose proof (regular_point_round_trip ridder subtype Cr NTU Hreg) as Hrt.
  unfold round_trip in Hrt. rewrite Heff in Hrt. exact Hrt.
Qed.

Lemma finish_with_UA_divisors :
  forall (UA Cr Cmin Cmax eff NTU Cc Ch : R) (Q Thi Tho Tci Tco : option R)
         (r : Solved.t),
    finish_with_UA UA Cr Cmin Cmax eff NTU Cc Ch Q Thi Tho Tci Tco = Ok r ->
    Cc <> 0 /\ Ch <> 0.
Proof.
  intros UA Cr Cmin Cmax eff NTU Cc Ch Q Thi Tho Tci Tco r.
  unfold finish_with_UA.
  repeat run; try discriminate; intros _; split; assumption.
Qed.

(** X9.  A result the solver returns for [UA] and exactly one temperature
    of each stream, at a regular point of the configuration and with
    different inlet temperatures, is returned again when the solver is
    called without [UA] on three of the returned temperatures (both inlets
    and the cold outlet, or both inlets and the hot outlet): it finds the
    same duty, effectiveness, [NTU], [UA] and fourth temperature. *)
Theorem rating_then_sizing :
  forall ridder (mh mc Cph Cpc : R) (subtype : string)
         (Thi Tho Tci Tco : option R) (UA : R) (r : Solved.t),
    effectiveness_NTU_method ridder mh mc Cph Cpc subtype Thi Tho Tci Tco (Some UA)
    = Ok r ->
    xorb (is_some Thi) (is_some Tho) = true ->
    xorb (is_some Tci) (is_some Tco) = true ->
    regular_point subtype (Solved.Cr r) (Solved.NTU r) ->
    Solved.Thi r <> Solved.Tci r ->
    effectiveness_NTU_method ridder mh mc Cph Cpc subtype
      (Some (Solved.Thi r)) None (Some (Solved.Tci r)) (Some (Solved.Tco r)) None
    = Ok r /\
    effectiveness_NTU_method ridder mh mc Cph Cpc subtype
      (Some (Solved.Thi r)) (Some (Solved.Tho r)) (Some (Solved.Tci r)) None None
    = Ok r.
Proof.
  intros ridder mh mc Cph Cpc subtype Thi Tho Tci Tco UA r Hcall Hhot Hcold
         Hreg Hin.
  destruct (rating_mode_result _ _ _ _ _ _ _ _ _ _ _ _ Hcall)
    as (HCr & Hmin & Hmax & Hnz & HUA & HNTU & Heff & Q & HQ & Hfin).
  pose proof (rating_mode_duty _ _ _ _ _ _ _ _ _ _ _ _ _ _ Hhot Hcold HQ Hfin)
    as Hduty.
  destruct (finish_with_UA_balance _ _ _ _ _ _ _ _ _ _ _ _ _ _ Hfin)
    as [Hbh Hbc].
  destruct (finish_with_UA_divisors _ _ _ _ _ _ _ _ _ _ _ _ _ _ Hfin)
    as [HCc HCh].
  pose proof (regular_point_inverse ridder _ _ _ _ Hreg Heff) as Hinv.
  clear Hcall HQ Hfin Hreg Heff.
  destruct r as [q ua Cr Cmin Cmax eff NTU thi tho tci tco].
  cbn [Solved.Q Solved.UA Solved.Cr Solved.Cmin Solved.Cmax
       Solved.effectiveness Solved.NTU Solved.Thi Solved.Tho Solved.Tci
       Solved.Tco] in *.
  assert (Hd : thi - tci <> 0) by lra.
  assert (Ee : eff = q / Cmin / (thi - tci)).
  { rewrite Hduty. field. split; assumption. }
  assert (Eua : ua = UA_from_NTU NTU Cmin).
  { unfold UA_from_NTU. rewrite HUA, HNTU. field. exact Hnz. }
  unfold effectiveness_NTU_method. cbv zeta.
  rewrite HCr, <- Hmin, <- Hmax. cbn [bind].
  unfold temperatures_without_UA, finish_without_UA. cbv zeta.
  rewrite Hbh, Hbc.
  rewrite !(div_ok q _ HCh), !(div_ok q _ HCc).
  cbn [bind Locals.Q Locals.Thi Locals.Tho Locals.Tci Locals.Tco Py.load Py.num].
  rewrite !(div_ok q _ Hnz). cbn [bind].
  rewrite !(div_ok _ _ Hd). cbn [bind].
  rewrite <- Ee, Hinv. cbn [bind]. rewrite <- Eua.
  set (Ch := mh * Cph) in *. set (Cc := mc * Cpc) in *.
  split; f_equal; f_equal.
  - rewrite <- Hbh. field. exact HCh.
  - rewrite <- Hbc. field. exact HCc.
Qed.

Lemma rating_then_sizing_witness :
  effectiveness_NTU_method ridder_unused 1 1 1 1 "counterflow"
    (Some 100) None (Some 50) (Some 75) None
  = Ok rated_example /\
  effectiveness_NTU_method ridder_unused 1 1 1 1 "counterflow"
    (Some 100) (Some 75) (Some 50) None None
  = Ok rated_example.
Proof.
  refine (rating_then_sizing ridder_unused 1 1 1 1 "counterflow"
            (Some 100) None (Some 50) None 1 rated_example
            rated_example_solved eq_refl eq_refl _ _).
  - apply (regular_counterflow 1 1); lra.
  - cbn [rated_example Solved.Thi Solved.Tci]. lra.
Defined.

(** ** Temperature effectiveness of the basic arrangements *)

Lemma lift_returned {A : Type} (m : result A) (a : A) :
  lift m = Returns a -> m = Ok a.
Proof. destruct m; cbn [lift]; intros H; inversion H; reflexivity. Qed.

Lemma Returns_inj {A : Type} (a b : A) : Returns a = Returns b -> a = b.
Proof. intros H. injection H. exact (fun e => e). Qed.

(** X10.  For a ratio [R1 <= 1] of capacity rates, stream 1 being the
    stream of the smaller one, [temperature_effectiveness_basic] has the
    same outcome (value or ZeroDivisionError) as [effectiveness_from_NTU]
    on the arrangements the two functions share: counterflow for
    [R1 < 1], parallel flow, crossflow with both fluids unmixed for
    [NTU1 >= 0], and crossflow with stream 1 or stream 2 mixed, which
    [effectiveness_from_NTU] calls mixed [Cmin] and mixed [Cmax]. *)
Theorem basic_agrees_with_effectiveness :
  forall (R1 NTU1 : R) (subtype : string),
    In subtype ("counterflow" :: "parallel" :: "crossflow"
                :: "crossflow, mixed 1" :: "crossflow, mixed 2" :: nil)%string ->
    R1 <= 1 ->
    (subtype = "counterflow"%string -> R1 < 1) ->
    (subtype = "crossflow"%string -> 0 <= NTU1) ->
    temperature_effectiveness_basic R1 NTU1 subtype
    = lift (effectiveness_from_NTU NTU1 R1 (as_configuration subtype)).
Proof.
  intros R1 NTU1 subtype Hin HR1 Hcounter Hcross.
  unfold temperature_effectiveness_basic, effectiveness_from_NTU,
    as_configuration.
  destruct (Rgt_dec R1 1); [lra |].
  cbn [In] in Hin.
  destruct Hin as [<- | [<- | [<- | [<- | [<- | []]]]]]; eval_tag.
  - destruct (Rlt_dec R1 1); [reflexivity |].
    pose proof (Hcounter eq_refl). lra.
  - reflexivity.
  - pose proof (Hcross eq_refl) as HN.
    assert (Hp : forall y, 0 < y -> exists v, Py.pow NTU1 y = Ok v).
    { intros y Hy. destruct HN as [HN | <-].
      - eexists. apply pow_pos. exact HN.
      - eexists. apply pow_zero. exact Hy. }
    destruct (Hp 0.22) as [p Ep]; [lra |].
    destruct (Hp 0.78) as [q Eq]; [lra |].
    rewrite Ep, Eq. cbn [bind].
    destruct (Req_dec_T R1 0) as [Hz | Hnz].
    + rewrite !(div_zero _ _ Hz). reflexivity.
    + rewrite !(div_ok _ _ Hnz). cbn [bind lift].
      do 3 f_equal. field. exact Hnz.
  - cbv zeta.
    destruct (Req_dec_T R1 0) as [-> | Hnz].
    + rewrite div_zero by reflexivity.
      rewrite pow_int_zero_neg by lia. reflexivity.
    + rewrite (div_ok _ _ Hnz), (pow_int_nonzero _ _ Hnz). cbn [bind lift].
      change (powerRZ R1 (-1)) with (/ (R1 ^ 1)).
      do 3 f_equal. field. exact Hnz.
  - cbv zeta.
    destruct (Req_dec_T R1 0) as [Hz | Hnz].
    + rewrite !(div_zero _ _ Hz). reflexivity.
    + rewrite !(div_ok _ _ Hnz). cbn [bind lift].
      f_equal.
      replace (- (1 - exp (- NTU1)) * R1) with (- R1 * (1 - exp (- NTU1)))
        by ring.
      field. exact Hnz.
Qed.

Lemma basic_agrees_with_effectiveness_witness :
  temperature_effectiveness_basic 0.1 5 "crossflow, mixed 1"
  = lift (effectiveness_from_NTU 5 0.1 (as_configuration "crossflow, mixed 1")).
Proof.
  apply basic_agrees_with_effectiveness.
  - right. right. right. left. reflexivity.
  - lra.
  - discriminate.
  - discriminate.
Defined.

(** X11.  For equal capacity rates ([R1 = 1]) the counterflow formula of
    [temperature_effectiveness_basic] divides by [1 - exp(0) = 0]: the
    call ends in ZeroDivisionError for every [NTU1], where
    [effectiveness_from_NTU] has the limiting formula [NTU/(1 + NTU)]. *)
Theorem basic_counterflow_balanced :
  forall NTU1 : R,
    temperature_effectiveness_basic 1 NTU1 "counterflow"
    = Throws (Builtin ZeroDivisionError) /\
    (0 <= NTU1 ->
     effectiveness_from_NTU NTU1 1 "counterflow" = Ok (NTU1 / (1 + NTU1))).
Proof.
  intros NTU1. split.
  - unfold temperature_effectiveness_basic. eval_tag.
    rewrite div_zero; [reflexivity |].
    replace (- NTU1 * (1 - 1)) with 0 by ring. rewrite exp_0. ring.
  - apply forward_balanced_counterflow.
Qed.

Lemma basic_counterflow_balanced_witness :
  temperature_effectiveness_basic 1 5 "counterflow"
  = Throws (Builtin ZeroDivisionError) /\
  effectiveness_from_NTU 5 1 "counterflow" = Ok (5 / (1 + 5)).
Proof.
  split.
  - exact (proj1 (basic_counterflow_balanced 5)).
  - apply (proj2 (basic_counterflow_balanced 5)). lra.
Defined.

(** X12.  Seen from the other stream (capacity-rate ratio [1/R1], number
    of transfer units [NTU1*R1], the two one-side-mixed arrangements
    trading places) every exact arrangement of
    [temperature_effectiveness_basic] returns [P1*R1]: the heat given up by
    one stream is the heat taken up by the other one. *)
Theorem basic_other_stream :
  forall (R1 NTU1 P1 : R) (subtype : string),
    In subtype exact_arrangements ->
    R1 <> 0 ->
    temperature_effectiveness_basic R1 NTU1 subtype = Returns P1 ->
    temperature_effectiveness_basic (1 / R1) (NTU1 * R1) (other_stream subtype)
    = Returns (P1 * R1).
Proof.
  intros R1 NTU1 P1 subtype Hin HR1.
  unfold exact_arrangements in Hin. cbn [In] in Hin.
  unfold temperature_effectiveness_basic, other_stream.
  destruct Hin as [<- | [<- | [<- | [<- | [<- | []]]]]]; eval_tag; cbv zeta.
  - (* counterflow *)
    intros H. apply lift_returned, div_returned in H. destruct H as [Hden ->].
    pose proof (exp_pos (- NTU1 * (1 - R1))) as He0.
    replace (- (NTU1 * R1) * (1 - 1 / R1)) with (- (- NTU1 * (1 - R1)))
      by (field; exact HR1).
    rewrite exp_Ropp.
    set (e := exp (- NTU1 * (1 - R1))) in *.
    rewrite div_ok.
    + cbn [lift]. f_equal. field. repeat split; lra.
    + replace (1 - 1 / R1 * / e) with (- (1 - R1 * e) / (R1 * e))
        by (field; split; lra).
      intros Hq. apply (Rmult_eq_compat_r (R1 * e)) in Hq.
      replace (- (1 - R1 * e) / (R1 * e) * (R1 * e)) with (- (1 - R1 * e)) in Hq
        by (field; split; lra).
      lra.
  - (* parallel *)
    intros H. apply lift_returned, div_returned in H. destruct H as [Hden ->].
    replace (- (NTU1 * R1) * (1 + 1 / R1)) with (- NTU1 * (1 + R1))
      by (field; exact HR1).
    rewrite div_ok.
    + cbn [lift]. f_equal. field. split; lra.
    + replace (1 + 1 / R1) with ((1 + R1) / R1) by (field; exact HR1).
      intros Hq. apply (Rmult_eq_compat_r R1) in Hq.
      replace ((1 + R1) / R1 * R1) with (1 + R1) in Hq by (field; exact HR1).
      lra.
  - (* stream 1 mixed, seen as stream 2 mixed *)
    intros H. apply lift_returned, bind_returned in H. destruct H as (a & Ha & H).
    apply div_returned in Ha. destruct Ha as [_ ->]. apply Ok_inj in H. subst P1.
    replace (- (NTU1 * R1)) with (- R1 * NTU1) by ring.
    assert (Hi : 1 / R1 <> 0).
    { intros Hq. apply (Rmult_eq_compat_r R1) in Hq.
      replace (1 / R1 * R1) with 1 in Hq by (field; exact HR1). lra. }
    rewrite (div_ok _ _ Hi). cbn [lift]. f_equal.
    replace (- (1 - exp (- R1 * NTU1)) * (1 / R1))
      with (- (1 - exp (- R1 * NTU1)) / R1) by (field; exact HR1).
    field. exact HR1.
  - (* stream 2 mixed, seen as stream 1 mixed *)
    intros H. apply lift_returned, div_returned in H. destruct H as [_ ->].
    replace (- (1 / R1) * (NTU1 * R1)) with (- NTU1) by (field; exact HR1).
    assert (Hi : 1 / R1 <> 0).
    { intros Hq. apply (Rmult_eq_compat_r R1) in Hq.
      replace (1 / R1 * R1) with 1 in Hq by (field; exact HR1). lra. }
    rewrite (div_ok _ _ Hi). cbn [bind lift]. f_equal.
    replace (- (1 - exp (- NTU1)) / (1 / R1)) with (- (1 - exp (- NTU1)) * R1)
      by (field; exact HR1).
    field. exact HR1.
  - (* both streams mixed *)
    intros H. apply lift_returned in H.
    apply bind_returned in H. destruct H as (a & Ha & H).
    apply bind_returned in H. destruct H as (b & Hb & H).
    apply bind_returned in H. destruct H as (c & Hc & H).
    apply div_returned in Ha. destruct Ha as [HK1 ->].
    apply div_returned in Hb. destruct Hb as [HK2 ->].
    apply div_returned in Hc. destruct Hc as [HN ->].
    replace (- (NTU1 * R1)) with (- R1 * NTU1) by ring.
    replace (- (1 / R1) * (NTU1 * R1)) with (- NTU1) by (field; exact HR1).
    set (K1 := 1 - exp (- NTU1)) in *.
    set (K2 := 1 - exp (- R1 * NTU1)) in *.
    assert (Hs : 1 / K1 + R1 / K2 - 1 / NTU1 <> 0).
    { intros Hz. rewrite Hz in H. rewrite pow_int_zero_neg in H by lia.
      discriminate. }
    rewrite pow_int_nonzero in H by exact Hs. apply Ok_inj in H. subst P1.
    rewrite (div_ok _ _ HK2). cbn [bind].
    rewrite (div_ok _ _ HK1). cbn [bind].
    assert (HN' : NTU1 * R1 <> 0) by (apply Rmult_integral_contrapositive; split; assumption).
    rewrite (div_ok _ _ HN'). cbn [bind].
    assert (Es : 1 / K2 + 1 / R1 / K1 - 1 / (NTU1 * R1)
                 = (1 / K1 + R1 / K2 - 1 / NTU1) / R1)
      by (field; repeat split; assumption).
    rewrite Es.
    set (s := 1 / K1 + R1 / K2 - 1 / NTU1) in *.
    assert (Hs' : s / R1 <> 0).
    { intros Hq. apply (Rmult_eq_compat_r R1) in Hq.
      replace (s / R1 * R1) with s in Hq by (field; exact HR1). lra. }
    rewrite (pow_int_nonzero _ _ Hs'). cbn [lift]. f_equal.
    change (powerRZ (s / R1) (-1)) with (/ ((s / R1) ^ 1)).
    change (powerRZ s (-1)) with (/ (s ^ 1)).
    field. split; assumption.
Qed.

Lemma basic_other_stream_witness :
  temperature_effectiveness_basic (1 / 2) (1 * 2) (other_stream "parallel")
  = Returns ((1 - exp (- 1 * (1 + 2))) / (1 + 2) * 2).
Proof.
  apply (basic_other_stream 2 1 ((1 - exp (- 1 * (1 + 2))) / (1 + 2)) "parallel").
  - right. left. reflexivity.
  - lra.
  - unfold temperature_effectiveness_basic. eval_tag.
    rewrite div_ok by lra. reflexivity.
Defined.

(** ** Correction factor of the log-mean temperature difference *)

(** X13.  [F_LMTD_Fakheri] has no guard for degenerate input: equal cold
    temperatures, equal inlet temperatures and a shell count of zero each
    end in ZeroDivisionError, whatever the other arguments are. *)
Theorem F_LMTD_Fakheri_degenerate :
  forall (Thi Tho Tci Tco : R) (shells : Z),
    Tco = Tci \/ Thi = Tci \/ shells = 0%Z ->
    F_LMTD_Fakheri Thi Tho Tci Tco shells = Raise ZeroDivisionError.
Proof.
  intros Thi Tho Tci Tco shells H. unfold F_LMTD_Fakheri.
  destruct (Req_dec_T (Tco - Tci) 0) as [Hc | Hc];
    [rewrite div_zero by exact Hc; reflexivity |].
  rewrite div_ok by exact Hc. cbn [bind].
  destruct (Req_dec_T (Thi - Tci) 0) as [Hi | Hi];
    [rewrite div_zero by exact Hi; reflexivity |].
  rewrite (div_ok _ _ Hi). cbn [bind].
  destruct H as [H | [H | H]]; [lra | lra | subst shells].
  assert (HP : (Tco - Tci) / (Thi - Tci) <> 0).
  { intros Hz. apply Hc. apply (Rmult_eq_compat_r (Thi - Tci)) in Hz.
    replace ((Tco - Tci) / (Thi - Tci) * (Thi - Tci)) with (Tco - Tci) in Hz
      by (field; exact Hi).
    lra. }
  set (P := (Tco - Tci) / (Thi - Tci)) in *.
  destruct (Req_dec_T ((Thi - Tho) / (Tco - Tci)) 1) as [HR | HR].
  - rewrite div_ok by lra. cbn [bind].
    rewrite div_zero; [reflexivity |]. field. lra.
  - destruct (Req_dec_T (1 - P) 0) as [H1 | H1];
      [rewrite div_zero by exact H1; reflexivity |].
    rewrite (div_ok _ _ H1). cbn [bind].
    rewrite div_zero by reflexivity. reflexivity.
Qed.

Lemma F_LMTD_Fakheri_degenerate_witness :
  F_LMTD_Fakheri 130 110 15 85 0 = Raise ZeroDivisionError.
Proof.
  apply F_LMTD_Fakheri_degenerate. right. right. reflexivity.
Defined.





(** ** Bundles, shells and baffles *)

(** Decide the comparisons of a table lookup by case analysis. *)
Ltac compare_floats :=
  unfold Builtins.lt, Builtins.le, Builtins.gt, Builtins.eq;
  repeat match goal with
  | |- context [Rlt_dec ?a ?b] => destruct (Rlt_dec a b); try lra
  | |- context [Rle_dec ?a ?b] => destruct (Rle_dec a b); try lra
  | |- context [Rgt_dec ?a ?b] => destruct (Rgt_dec a b); try lra
  | |- context [Req_dec_T ?a ?b] => destruct (Req_dec_T a b); try lra
  end.

Lemma truthy_Some (x : R) : x <> 0 -> Py.truthy (Some x) = true.
Proof. intros H. unfold Py.truthy. destruct (Req_dec_T x 0); [contradiction | reflexivity]. Qed.

Lemma truthy_zero : Py.truthy (Some 0) = false.
Proof. unfold Py.truthy. destruct (Req_dec_T 0 0); [reflexivity | lra]. Qed.

(** X15.  The two ways of looking up the clearance agree: for a bundle of
    positive diameter, the clearance found from the bundle diameter is the
    clearance found from the shell diameter that results from it, bundle
    plus clearance; it lies between 3.2 mm and 11 mm. *)
Theorem shell_clearance_consistent :
  forall DBundle : R,
    0 < DBundle ->
    exists c : R,
      shell_clearance (Some DBundle) None = Returns c /\
      shell_clearance None (Some (DBundle + c)) = Returns c /\
      0.0032 <= c <= 0.011.
Proof.
  intros DBundle Hpos. unfold shell_clearance.
  rewrite (truthy_Some DBundle) by lra.
  change (Py.truthy None) with false.
  cbn [Py.num lift and_then].
  eexists. split; [reflexivity |].
  compare_floats;
    (split; [| lra]);
    (rewrite truthy_Some by lra); cbn [Py.num lift and_then];
    compare_floats; reflexivity.
Qed.

Lemma shell_clearance_consistent_witness :
  exists c : R,
    shell_clearance (Some 1.2) None = Returns c /\
    shell_clearance None (Some (1.2 + c)) = Returns c /\
    0.0032 <= c <= 0.011.
Proof.
  apply shell_clearance_consistent. lra.
Defined.

(** X16.  [shell_clearance] raises its exception exactly when neither
    diameter is true in Python, that is when each of them is [None] or
    zero; a shell diameter that is true is looked up whatever the bundle
    diameter is. *)
Theorem shell_clearance_needs_a_diameter :
  forall DBundle DShell : option R,
    (shell_clearance DBundle DShell
     = Throws (Exception "DShell or DBundle must be specified")
     <-> Py.truthy DShell = false /\ Py.truthy DBundle = false) /\
    (Py.truthy DShell = true ->
     shell_clearance DBundle DShell = shell_clearance None DShell).
Proof.
  intros DBundle DShell. unfold shell_clearance. split.
  - destruct (Py.truthy DShell) eqn:HS.
    + split; [| intros [H _]; discriminate].
      destruct DShell as [d |]; [| discriminate HS].
      cbn [Py.num lift and_then]. discriminate.
    + destruct (Py.truthy DBundle) eqn:HB.
      * split; [| intros [_ H]; discriminate].
        destruct DBundle as [d |]; [| discriminate HB].
        cbn [Py.num lift and_then]. discriminate.
      * split; [intros _; split; reflexivity | reflexivity].
  - intros ->. reflexivity.
Qed.

Lemma shell_clearance_needs_a_diameter_witness :
  shell_clearance None (Some 0)
  = Throws (Exception "DShell or DBundle must be specified") /\
  shell_clearance (Some 1) (Some 0.5) = shell_clearance None (Some 0.5).
Proof.
  split.
  - apply (proj1 (shell_clearance_needs_a_diameter None (Some 0))).
    split; [exact truthy_zero | reflexivity].
  - apply (proj2 (shell_clearance_needs_a_diameter (Some 1) (Some 0.5))).
    apply truthy_Some. lra.
Defined.

(** X17.  The clearance is non-decreasing in the diameter it is looked up
    by, the shell diameter or the bundle diameter. *)
Theorem shell_clearance_monotone :
  forall D1 D2 c1 c2 : R,
    D1 <= D2 ->
    (shell_clearance None (Some D1) = Returns c1 ->
     shell_clearance None (Some D2) = Returns c2 -> c1 <= c2) /\
    (shell_clearance (Some D1) None = Returns c1 ->
     shell_clearance (Some D2) None = Returns c2 -> c1 <= c2).
Proof.
  intros D1 D2 c1 c2 Hle. unfold shell_clearance, Py.truthy.
  split;
    destruct (Req_dec_T D1 0); try discriminate;
    destruct (Req_dec_T D2 0); try discriminate;
    cbn [Py.num lift and_then];
    intros H1 H2; apply Returns_inj in H1; apply Returns_inj in H2;
    subst c1 c2; compare_floats.
Qed.

Lemma shell_clearance_monotone_witness :
  shell_clearance None (Some 0.5) = Returns 0.0048 /\
  shell_clearance None (Some 1.5) = Returns 0.0079 /\
  0.0048 <= 0.0079.
Proof.
  assert (H1 : shell_clearance None (Some 0.5) = Returns 0.0048).
  { unfold shell_clearance. rewrite truthy_Some by lra.
    cbn [Py.num lift and_then]. compare_floats. reflexivity. }
  assert (H2 : shell_clearance None (Some 1.5) = Returns 0.0079).
  { unfold shell_clearance. rewrite truthy_Some by lra.
    cbn [Py.num lift and_then]. compare_floats. reflexivity. }
  split; [exact H1 |]. split; [exact H2 |].
  refine (proj1 (shell_clearance_monotone 0.5 1.5 0.0048 0.0079 _) H1 H2).
  lra.
Defined.


Lemma baffle_row_spec (D : R) :
  (D < 0.381 /\ baffle_row D = 0%nat) \/
  (0.381 <= D < 0.737 /\ baffle_row D = 1%nat) \/
  (0.737 <= D < 0.991 /\ baffle_row D = 2%nat) \/
  (0.991 <= D < 1.524 /\ baffle_row D = 3%nat) \/
  (1.524 <= D /\ baffle_row D = 4%nat).
Proof.
  unfold baffle_row. compare_floats; cbn [andb].
  all: first [ left; split; [lra | reflexivity]
             | right; left; split; [lra | reflexivity]
             | right; right; left; split; [lra | reflexivity]
             | right; right; right; left; split; [lra | reflexivity]
             | right; right; right; right; split; [lra | reflexivity] ].
Qed.

Lemma refinery_column_spec (L : R) :
  (L <= 0.61 /\ refinery_column L = 0%nat) \/
  (0.61 < L <= 0.914 /\ refinery_column L = 1%nat) \/
  (0.914 < L <= 1.219 /\ refinery_column L = 2%nat) \/
  (1.219 < L <= 1.524 /\ refinery_column L = 3%nat) \/
  (1.524 < L /\ refinery_column L = 4%nat).
Proof.
  unfold refinery_column. compare_floats; cbn [andb].
  all: first [ left; split; [lra | reflexivity]
             | right; left; split; [lra | reflexivity]
             | right; right; left; split; [lra | reflexivity]
             | right; right; right; left; split; [lra | reflexivity]
             | right; right; right; right; split; [lra | reflexivity] ].
Qed.

Lemma other_column_spec (L : R) :
  (L <= 0.305 /\ other_column L = 0%nat) \/
  (0.305 < L <= 0.61 /\ other_column L = 1%nat) \/
  (0.61 < L <= 0.914 /\ other_column L = 2%nat) \/
  (0.914 < L <= 1.219 /\ other_column L = 3%nat) \/
  (1.219 < L <= 1.524 /\ other_column L = 4%nat) \/
  (1.524 < L /\ other_column L = 5%nat).
Proof.
  unfold other_column. compare_floats; cbn [andb].
  all: first [ left; split; [lra | reflexivity]
             | right; left; split; [lra | reflexivity]
             | right; right; left; split; [lra | reflexivity]
             | right; right; right; left; split; [lra | reflexivity]
             | right; right; right; right; left; split; [lra | reflexivity]
             | right; right; right; right; right; split; [lra | reflexivity] ].
Qed.

(** Split on the band of a diameter or of a length. *)
Ltac band_of spec x :=
  let H := fresh "Hband" in
  let E := fresh "Eband" in
  destruct (spec x) as [[H E] | [[H E] | [[H E] | [[H E] | H]]]];
  [ | | | | first [ destruct H as [[H E] | [H E]] | destruct H as [H E] ] ];
  rewrite E; clear E.

Ltac read_tables :=
  unfold _TEMA_baffles_refinery, _TEMA_baffles_other;
  cbn [and_then Builtins.item nth_error].

Lemma baffle_thickness_returns (Dshell L_unsupported : R) (service : string) :
  service = "R"%string \/ service = "C"%string \/ service = "B"%string ->
  exists t : R,
    baffle_thickness Dshell L_unsupported service = Returns t /\
    0.0016 <= t <= 0.0191.
Proof.
  intros Hs. unfold baffle_thickness. cbv zeta.
  destruct Hs as [-> | [-> | ->]]; eval_tag;
    band_of baffle_row_spec Dshell;
    first [ band_of refinery_column_spec L_unsupported
          | band_of other_column_spec L_unsupported ];
    read_tables; (eexists; split; [reflexivity | lra]).
Qed.

(** X18.  [baffle_thickness] returns a thickness, between 1.6 mm and
    19.1 mm, for the services ['R'], ['C'] and ['B'] whatever the two
    lengths are; for every other service no branch assigns [t] and the
    call ends in UnboundLocalError. *)
Theorem baffle_thickness_services :
  forall (Dshell L_unsupported : R) (service : string),
    (service = "R"%string \/ service = "C"%string \/ service = "B"%string ->
     exists t : R,
       baffle_thickness Dshell L_unsupported service = Returns t /\
       0.0016 <= t <= 0.0191) /\
    (service <> "R"%string -> service <> "C"%string -> service <> "B"%string ->
     baffle_thickness Dshell L_unsupported service
     = Throws (Builtin UnboundLocalError)).
Proof.
  intros Dshell L service. split.
  - apply baffle_thickness_returns.
  - intros HR HC HB. unfold baffle_thickness.
    apply String.eqb_neq in HR, HC, HB. rewrite HR, HC, HB. reflexivity.
Qed.

Lemma baffle_thickness_services_witness :
  (exists t : R,
      baffle_thickness 0.5 1 "R" = Returns t /\ 0.0016 <= t <= 0.0191) /\
  baffle_thickness 0.5 1 "refinery" = Throws (Builtin UnboundLocalError).
Proof.
  split.
  - apply (proj1 (baffle_thickness_services 0.5 1 "R")). left. reflexivity.
  - apply (proj2 (baffle_thickness_services 0.5 1 "refinery")); discriminate.
Defined.

Lemma baffle_thickness_service_known (D L t : R) (service : string) :
  baffle_thickness D L service = Returns t ->
  service = "R"%string \/ service = "C"%string \/ service = "B"%string.
Proof.
  unfold baffle_thickness.
  destruct (String.eqb_spec service "R") as [-> | _]; [left; reflexivity |].
  destruct (String.eqb_spec service "C") as [-> | _];
    [right; left; reflexivity |].
  destruct (String.eqb_spec service "B") as [-> | _];
    [right; right; reflexivity |].
  discriminate.
Qed.

Ltac compare_thicknesses :=
  let H1 := fresh "H" in
  let H2 := fresh "H" in
  read_tables; intros H1 H2;
  apply Returns_inj in H1; apply Returns_inj in H2; lra.

Lemma baffle_thickness_monotone_in_diameter :
  forall (D1 D2 L t1 t2 : R) (service : string),
    D1 <= D2 ->
    baffle_thickness D1 L service = Returns t1 ->
    baffle_thickness D2 L service = Returns t2 ->
    t1 <= t2.
Proof.
  intros D1 D2 L t1 t2 service HD.
  unfold baffle_thickness. cbv zeta.
  destruct (service =? "R")%string.
  - band_of baffle_row_spec D1; band_of baffle_row_spec D2; try lra;
      band_of refinery_column_spec L; compare_thicknesses.
  - destruct ((service =? "C") || (service =? "B"))%string; [| discriminate].
    band_of baffle_row_spec D1; band_of baffle_row_spec D2; try lra;
      band_of other_column_spec L; compare_thicknesses.
Qed.

Lemma baffle_thickness_monotone_in_length :
  forall (D L1 L2 t1 t2 : R) (service : string),
    L1 <= L2 ->
    baffle_thickness D L1 service = Returns t1 ->
    baffle_thickness D L2 service = Returns t2 ->
    t1 <= t2.
Proof.
  intros D L1 L2 t1 t2 service HL.
  unfold baffle_thickness. cbv zeta.
  destruct (service =? "R")%string.
  - band_of refinery_column_spec L1; band_of refinery_column_spec L2; try lra;
      band_of baffle_row_spec D; compare_thicknesses.
  - destruct ((service =? "C") || (service =? "B"))%string; [| discriminate].
    band_of other_column_spec L1; band_of other_column_spec L2; try lra;
      band_of baffle_row_spec D; compare_thicknesses.
Qed.

(** X19.  For each of the three services the baffle thickness is
    non-decreasing in the shell diameter and in the unsupported length. *)
Theorem baffle_thickness_monotone :
  forall (D1 D2 L1 L2 t1 t2 : R) (service : string),
    D1 <= D2 -> L1 <= L2 ->
    baffle_thickness D1 L1 service = Returns t1 ->
    baffle_thickness D2 L2 service = Returns t2 ->
    t1 <= t2.
Proof.
  intros D1 D2 L1 L2 t1 t2 service HD HL H1 H2.
  pose proof (baffle_thickness_service_known _ _ _ _ H1) as Hs.
  destruct (baffle_thickness_returns D2 L1 service Hs) as (t & Ht & _).
  apply Rle_trans with t.
  - exact (baffle_thickness_monotone_in_diameter _ _ _ _ _ _ HD H1 Ht).
  - exact (baffle_thickness_monotone_in_length _ _ _ _ _ _ HL Ht H2).
Qed.

Lemma baffle_thickness_monotone_witness :
  baffle_thickness 0.5 0.5 "C" = Returns 0.0048 /\
  baffle_thickness 1 1.3 "C" = Returns 0.0159 /\
  0.0048 <= 0.0159.
Proof.
  assert (H1 : baffle_thickness 0.5 0.5 "C" = Returns 0.0048).
  { unfold baffle_thickness, baffle_row, other_column. eval_tag.
    compare_floats. reflexivity. }
  assert (H2 : baffle_thickness 1 1.3 "C" = Returns 0.0159).
  { unfold baffle_thickness, baffle_row, other_column. eval_tag.
    compare_floats. reflexivity. }
  split; [exact H1 |]. split; [exact H2 |].
  refine (baffle_thickness_monotone 0.5 1 0.5 1.3 0.0048 0.0159 "C" _ _ H1 H2);
    lra.
Defined.

(** X20.  Refinery service never gets a thinner baffle than general
    service for the same shell diameter and unsupported length, and
    chemical service gets the baffle of general service. *)
Theorem baffle_thickness_by_service :
  forall (Dshell L_unsupported tR tC : R),
    (baffle_thickness Dshell L_unsupported "R" = Returns tR ->
     baffle_thickness Dshell L_unsupported "C" = Returns tC ->
     tC <= tR) /\
    baffle_thickness Dshell L_unsupported "B"
    = baffle_thickness Dshell L_unsupported "C".
Proof.
  intros D L tR tC. split; [| reflexivity].
  unfold baffle_thickness. cbv zeta. eval_tag.
  band_of baffle_row_spec D;
    band_of refinery_column_spec L; band_of other_column_spec L; try lra;
    compare_thicknesses.
Qed.

Lemma baffle_thickness_by_service_witness :
  baffle_thickness 2 1 "R" = Returns 0.0159 /\
  baffle_thickness 2 1 "C" = Returns 0.0127 /\
  0.0127 <= 0.0159.
Proof.
  assert (H1 : baffle_thickness 2 1 "R" = Returns 0.0159).
  { unfold baffle_thickness, baffle_row, refinery_column. eval_tag.
    compare_floats. reflexivity. }
  assert (H2 : baffle_thickness 2 1 "C" = Returns 0.0127).
  { unfold baffle_thickness, baffle_row, other_column. eval_tag.
    compare_floats. reflexivity. }
  split; [exact H1 |]. split; [exact H2 |].
  exact (proj1 (baffle_thickness_by_service 2 1 0.0159 0.0127) H1 H2).
Defined.

(** X21.  The baffle hole is 0.4 mm or 0.8 mm wider than the tube; its
    diameter does not decrease when the tube diameter grows and does not
    increase when the unsupported length grows. *)
Theorem D_baffle_holes_monotone :
  forall do1 do2 L1 L2 : R,
    do1 <= do2 -> L1 <= L2 ->
    D_baffle_holes do1 L2 <= D_baffle_holes do2 L1 /\
    do1 + 0.0004 <= D_baffle_holes do1 L1 <= do1 + 0.0008.
Proof.
  intros do1 do2 L1 L2 Hd HL. unfold D_baffle_holes.
  compare_floats; cbn [orb]; lra.
Qed.

Lemma D_baffle_holes_monotone_witness :
  D_baffle_holes 0.019 1.2 <= D_baffle_holes 0.025 0.75 /\
  0.019 + 0.0004 <= D_baffle_holes 0.019 0.75 <= 0.019 + 0.0008.
Proof.
  apply D_baffle_holes_monotone; lra.
Defined.

(** X22.  The smallest bundle diameter [DBundle_min] suggests does not
    decrease with the tube diameter and lies between 0.1 m and 1.5 m. *)
Theorem DBundle_min_monotone :
  forall Do1 Do2 : R,
    Do1 <= Do2 ->
    DBundle_min Do1 <= DBundle_min Do2 /\ 0.1 <= DBundle_min Do1 <= 1.5.
Proof.
  intros Do1 Do2 Hle. unfold DBundle_min. compare_floats.
Qed.

Lemma DBundle_min_monotone_witness :
  DBundle_min 0.0127 <= DBundle_min 0.0254 /\ 0.1 <= DBundle_min 0.0127 <= 1.5.
Proof.
  apply DBundle_min_monotone. lra.
Defined.

(** ** Unsupported tube length *)

Ltac read_lengths :=
  unfold L_unsupported_max, _L_unsupported_lengths, _L_unsupported_steel,
    _L_unsupported_aluminium, Builtins.mem;
  cbn [existsb Builtins.index];
  compare_floats;
  cbn [orb and_then Builtins.item nth_error].

(** X23.  [L_unsupported_max] returns a length exactly for the twelve tube
    sizes of its list and raises its exception for every other size; for a
    size of the list the length for carbon steel (['CS']) is never below
    the length for any other material. *)
Theorem L_unsupported_max_sizes :
  forall (NPS : R) (material : string),
    (In NPS _L_unsupported_lengths ->
     exists Ls La : R,
       L_unsupported_max NPS "CS" = Returns Ls /\
       L_unsupported_max NPS material = Returns La /\
       0 < La <= Ls) /\
    (~ In NPS _L_unsupported_lengths ->
     L_unsupported_max NPS material
     = Throws (Exception "Tube size not in list length unsupported list")).
Proof.
  intros NPS material. split.
  - intros Hin. unfold _L_unsupported_lengths in Hin. cbn [In] in Hin.
    destruct (material =? "CS")%string eqn:Hm;
      repeat (destruct Hin as [<- | Hin]; [| try contradiction]);
      read_lengths; change ("CS" =? "CS")%string with true; rewrite ?Hm;
      (do 2 eexists; split; [reflexivity |]; split; [reflexivity | lra]).
  - intros Hout. unfold _L_unsupported_lengths in Hout. cbn [In] in Hout.
    read_lengths; try reflexivity; exfalso; apply Hout; auto 20.
Qed.

Lemma L_unsupported_max_sizes_witness :
  (exists Ls La : R,
      L_unsupported_max 0.75 "CS" = Returns Ls /\
      L_unsupported_max 0.75 "Al" = Returns La /\
      0 < La <= Ls) /\
  L_unsupported_max 0.625 "CS"
  = Throws (Exception "Tube size not in list length unsupported list").
Proof.
  split.
  - apply (proj1 (L_unsupported_max_sizes 0.75 "Al")).
    unfold _L_unsupported_lengths. cbn [In]. auto 10.
  - apply (proj2 (L_unsupported_max_sizes 0.625 "CS")).
    unfold _L_unsupported_lengths. cbn [In].
    intros H. repeat (destruct H as [H | H]; [lra |]). exact H.
Defined.

(** X24.  Of the nine tube sizes of [TEMA_tubing], [L_unsupported_max]
    accepts all but the size 0.625: its list of sizes holds 0.628 in that
    place. *)
Theorem L_unsupported_max_of_TEMA_sizes :
  forall (NPS : R) (material : string),
    In NPS (map fst TEMA_tubing) ->
    ((exists L : R, L_unsupported_max NPS material = Returns L)
     <-> NPS <> 0.625).
Proof.
  intros NPS material Hin. unfold TEMA_tubing in Hin. cbn [map fst In] in Hin.
  repeat (destruct Hin as [<- | Hin]; [| try contradiction]);
    (split;
     [ intros [L HL]; try lra; revert HL; read_lengths; discriminate
     | intros Hne; try lra; read_lengths;
       destruct (material =? "CS")%string; eexists; reflexivity ]).
Qed.

Lemma L_unsupported_max_of_TEMA_sizes_witness :
  (exists L : R, L_unsupported_max 0.75 "CS" = Returns L) /\
  ~ (exists L : R, L_unsupported_max 0.625 "CS" = Returns L).
Proof.
  split.
  - apply (proj2 (L_unsupported_max_of_TEMA_sizes 0.75 "CS"
                    ltac:(unfold TEMA_tubing; cbn [map fst In]; auto 10))).
    lra.
  - intros H.
    apply (proj1 (L_unsupported_max_of_TEMA_sizes 0.625 "CS"
                    ltac:(unfold TEMA_tubing; cbn [map fst In]; auto 10))) in H.
    lra.
Defined.

(** ** Tube counts *)

Lemma Int_part_IZR (z : Z) : Int_part (IZR z) = z.
Proof. symmetry. apply Int_part_spec. lra. Qed.

Lemma int_IZR (z : Z) : Builtins.int (IZR z) = z.
Proof.
  unfold Builtins.int. destruct (Rle_dec 0 (IZR z)).
  - apply Int_part_IZR.
  - rewrite <- opp_IZR, Int_part_IZR. lia.
Qed.

Lemma Int_part_monotone (x y : R) : x <= y -> (Int_part x <= Int_part y)%Z.
Proof.
  intros Hxy.
  destruct (base_Int_part x) as [Hx1 Hx2].
  destruct (base_Int_part y) as [Hy1 Hy2].
  destruct (Z_le_gt_dec (Int_part x) (Int_part y)) as [H | H]; [exact H |].
  exfalso.
  assert (H' : (Int_part y + 1 <= Int_part x)%Z) by lia.
  apply IZR_le in H'. rewrite plus_IZR in H'. lra.
Qed.

Lemma int_monotone (x y : R) : 0 <= x -> x <= y -> (Builtins.int x <= Builtins.int y)%Z.
Proof.
  intros Hx Hxy. unfold Builtins.int.
  destruct (Rle_dec 0 x); [| lra]. destruct (Rle_dec 0 y); [| lra].
  apply Int_part_monotone. exact Hxy.
Qed.






(** X26.  [Ntubes_HEDH] counts the same tubes for the layouts of 30 and 60
    degrees and for those of 45 and 90 degrees; the triangular layouts
    never hold fewer tubes than the square ones, and no count is negative.
    Any other angle raises the exception of the layouts. *)
Theorem Ntubes_HEDH_layouts :
  forall (DBundle do pitch angle : R) (triangular square : Z),
    (Ntubes_HEDH DBundle do pitch 30 = Returns triangular ->
     Ntubes_HEDH DBundle do pitch 45 = Returns square ->
     (0 <= square <= triangular)%Z /\
     Ntubes_HEDH DBundle do pitch 60 = Returns triangular /\
     Ntubes_HEDH DBundle do pitch 90 = Returns square) /\
    (angle <> 30 -> angle <> 60 -> angle <> 45 -> angle <> 90 ->
     Ntubes_HEDH DBundle do pitch angle
     = Throws (Exception "Only 30, 60, 45 and 90 degree layouts are supported")).
Proof.
  intros DBundle do pitch angle triangular square. split.
  - unfold Ntubes_HEDH. compare_floats. cbn [orb and_then]. cbv zeta.
    rewrite !div_ok by lra. cbn [lift and_then].
    destruct (Req_dec_T (pitch ^ 2) 0) as [Hz | Hnz].
    { rewrite !(div_zero _ _ Hz). discriminate. }
    rewrite !(div_ok _ _ Hnz). cbn [lift and_then].
    intros H1 H2. apply Returns_inj in H1. apply Returns_inj in H2.
    subst triangular square.
    split; [| split; reflexivity].
    assert (Hp : 0 < pitch ^ 2) by (pose proof (pow2_ge_0 pitch); lra).
    assert (Hpn : pitch <> 0) by (intros ->; apply Hnz; ring).
    assert (Hx : 0 <= 0.78 * (DBundle - do) ^ 2 / 1 / pitch ^ 2).
    { apply Rmult_le_pos; [| left; apply Rinv_0_lt_compat; exact Hp].
      pose proof (pow2_ge_0 (DBundle - do)). lra. }
    split.
    + replace 0%Z with (Builtins.int (IZR 0)) by apply int_IZR.
      apply int_monotone; [lra | exact Hx].
    + apply int_monotone; [exact Hx |].
      replace (0.78 * (DBundle - do) ^ 2 / (13 / 15) / pitch ^ 2)
        with (0.78 * (DBundle - do) ^ 2 / 1 / pitch ^ 2 * (15 / 13))
        by (field; exact Hpn).
      nra.
  - intros H30 H60 H45 H90. unfold Ntubes_HEDH. compare_floats. reflexivity.
Qed.

Lemma int_between (x : R) (z : Z) :
  0 <= x -> IZR z <= x < IZR z + 1 -> Builtins.int x = z.
Proof.
  intros Hx Hz. unfold Builtins.int. destruct (Rle_dec 0 x); [| lra].
  symmetry. apply Int_part_spec. lra.
Qed.

Lemma Ntubes_HEDH_layouts_witness :
  Ntubes_HEDH 1.184 0.028 0.036 30 = Returns 928%Z /\
  Ntubes_HEDH 1.184 0.028 0.036 45 = Returns 804%Z /\
  (0 <= 804 <= 928)%Z /\
  Ntubes_HEDH 1.184 0.028 0.036 60 = Returns 928%Z /\
  Ntubes_HEDH 1.184 0.028 0.036 90 = Returns 804%Z /\
  Ntubes_HEDH 1.184 0.028 0.036 50
  = Throws (Exception "Only 30, 60, 45 and 90 degree layouts are supported").
Proof.
  assert (H30 : Ntubes_HEDH 1.184 0.028 0.036 30 = Returns 928%Z).
  { unfold Ntubes_HEDH. compare_floats. cbn [orb and_then]. cbv zeta.
    rewrite div_ok by lra. cbn [lift and_then].
    rewrite div_ok by (apply pow_nonzero; lra). cbn [lift and_then]. f_equal.
    apply int_between; lra. }
  assert (H45 : Ntubes_HEDH 1.184 0.028 0.036 45 = Returns 804%Z).
  { unfold Ntubes_HEDH. compare_floats. cbn [orb and_then]. cbv zeta.
    rewrite div_ok by lra. cbn [lift and_then].
    rewrite div_ok by (apply pow_nonzero; lra). cbn [lift and_then]. f_equal.
    apply int_between; lra. }
  split; [exact H30 |]. split; [exact H45 |].
  destruct (proj1 (Ntubes_HEDH_layouts 1.184 0.028 0.036 50 928 804) H30 H45)
    as (Hle & H60 & H90).
  split; [exact Hle |]. split; [exact H60 |]. split; [exact H90 |].
  apply (proj2 (Ntubes_HEDH_layouts 1.184 0.028 0.036 50 928 804)); lra.
Defined.

(** X27.  [Ntubes_Perrys] has no branch for a layout angle other than 30,
    60, 45 and 90: [Nt] stays unassigned and the call ends in
    UnboundLocalError, where [Ntubes_VDI] and [Ntubes_HEDH] raise their
    exception of the layouts.  For one of the four angles the quotient of
    the diameters is computed first: a zero tube diameter ends in
    ZeroDivisionError, and with a tube diameter that is not zero a number
    of passes other than 1, 2, 4 and 6 raises the exception of the
    passes. *)
Theorem Ntubes_Perrys_selectors :
  forall DBundle do Ntp angle : R,
    (angle <> 30 -> angle <> 60 -> angle <> 45 -> angle <> 90 ->
     Ntubes_Perrys DBundle do Ntp angle = Throws (Builtin UnboundLocalError)) /\
    (angle = 30 \/ angle = 60 \/ angle = 45 \/ angle = 90 ->
     (do = 0 ->
      Ntubes_Perrys DBundle do Ntp angle = Throws (Builtin ZeroDivisionError)) /\
     (do <> 0 -> Ntp <> 1 -> Ntp <> 2 -> Ntp <> 4 -> Ntp <> 6 ->
      Ntubes_Perrys DBundle do Ntp angle
      = Throws (Exception "N passes not 1, 2, 4 or 6"))).
Proof.
  intros DBundle do Ntp angle. split.
  - intros H30 H60 H45 H90. unfold Ntubes_Perrys. compare_floats; reflexivity.
  - intros Hangle. split.
    + intros ->. unfold Ntubes_Perrys.
      rewrite !div_zero by reflexivity.
      destruct Hangle as [-> | [-> | [-> | ->]]]; compare_floats; reflexivity.
    + intros Hdo H1 H2 H4 H6. unfold Ntubes_Perrys.
      rewrite !(div_ok _ _ Hdo).
      destruct Hangle as [-> | [-> | [-> | ->]]]; compare_floats; reflexivity.
Qed.

Lemma Ntubes_Perrys_selectors_witness :
  Ntubes_Perrys 1.184 0.028 2 35 = Throws (Builtin UnboundLocalError) /\
  Ntubes_Perrys 1.184 0 2 30 = Throws (Builtin ZeroDivisionError) /\
  Ntubes_Perrys 1.184 0.028 8 30 = Throws (Exception "N passes not 1, 2, 4 or 6").
Proof.
  split; [| split].
  - apply (proj1 (Ntubes_Perrys_selectors 1.184 0.028 2 35)); lra.
  - apply (proj2 (Ntubes_Perrys_selectors 1.184 0 2 30)).
    + left. reflexivity.
    + reflexivity.
  - apply (proj2 (Ntubes_Perrys_selectors 1.184 0.028 8 30)).
    + left. reflexivity.
    + lra.
    + lra.
    + lra.
    + lra.
    + lra.
Defined.

(** ** Tubes of TEMA *)

Lemma and_then_returned {A B : Type} (m : outcome A) (k : A -> outcome B) (b : B) :
  and_then m k = Returns b -> exists a : A, m = Returns a /\ k a = Returns b.
Proof.
  destruct m as [a | f]; cbn [and_then]; [| discriminate].
  intros H. exists a. split; [reflexivity | exact H].
Qed.

Lemma list_never_listed (NPS : R) (l : list Z) :
  check_tubing_TEMA NPS (Gauges l) = false.
Proof.
  unfold check_tubing_TEMA. destruct (lookup NPS TEMA_tubing); reflexivity.
Qed.

Lemma check_tubing_TEMA_size (NPS : R) (BWG : gauge) :
  check_tubing_TEMA NPS BWG = true -> lookup NPS TEMA_tubing <> None.
Proof.
  unfold check_tubing_TEMA. destruct (lookup NPS TEMA_tubing);
    [discriminate | discriminate].
Qed.

Lemma first_thick_enough_found (tmin : R) (ts : list R) (t0 : option R) (thickest t : R) :
  Builtins.last_item ts = Returns thickest -> tmin <= thickest ->
  first_thick_enough tmin ts t0 = Some t -> tmin <= t /\ In t ts.
Proof.
  revert t0. induction ts as [| x ts IH]; intros t0 Hlast Hle; [discriminate |].
  cbn [first_thick_enough]. unfold Builtins.le.
  destruct (Rle_dec tmin x) as [Hx | Hx].
  - intros H. injection H as <-. split; [exact Hx | left; reflexivity].
  - destruct ts as [| y ts'].
    + cbn [Builtins.last_item] in Hlast. apply Returns_inj in Hlast. lra.
    + intros H. destruct (IH (Some x) Hlast Hle H) as [H1 H2].
      split; [exact H1 | right; exact H2].
Qed.

Lemma lookup_found {A : Type} (key : R) (d : list (R * A)) (v : A) :
  match lookup key d with
  | Some v' => Returns v'
  | None => Throws KeyError
  end = Returns v ->
  lookup key d <> None.
Proof. destruct (lookup key d); [discriminate | discriminate]. Qed.

Lemma not_truthy_Some (x : R) : Py.truthy (Some x) = false -> x = 0.
Proof.
  unfold Py.truthy. destruct (Req_dec_T x 0); [trivial | discriminate].
Qed.

Section TubeProperties.

Variable BWG_integers : list Z.
Variable BWG_SI : list R.

(** The diameters and the wall of a returned tube fit together, its size
    is one of [TEMA_tubing], and its wall is not thinner than a minimum
    that was asked for without a gauge or an inner diameter. *)
Local Abbreviation fits BWG Di tmin T :=
  (tube_Do T = 0.0254 * tube_NPS T /\
   tube_Di T = tube_Do T - 2 * tube_t T /\
   lookup (tube_NPS T) TEMA_tubing <> None /\
   (Builtins.truthy_int BWG = false -> Py.truthy Di = false ->
    forall x : R, tmin = Some x -> x <> 0 -> x <= tube_t T)).

Lemma tube_of_body self (NPS : option R) (BWG : option Z) (Do Di tmin : option R)
    (T : tube) :
  (forall a b c d e T', self a b c d e = Returns T' -> fits b d e T') ->
  get_tube_TEMA_body BWG_integers BWG_SI self NPS BWG Do Di tmin = Returns T ->
  fits BWG Di tmin T.
Proof.
  intros Hself. unfold get_tube_TEMA_body. cbv zeta.
  destruct (Py.truthy NPS) eqn:HN, (Builtins.truthy_int BWG) eqn:HB,
           (Py.truthy Do) eqn:HD, (Py.truthy Di) eqn:HI,
           (Py.truthy tmin) eqn:HT; cbn [andb];
    try discriminate;
    repeat match goal with
    | |- match ?v with Some _ => _ | None => _ end = _ -> _ =>
        destruct v as [? |]; try discriminate
    | |- (if negb (check_tubing_TEMA ?n (Gauges ?l)) then _ else _) = _ -> _ =>
        rewrite (list_never_listed n l); cbn [negb]; discriminate
    | |- (if negb (check_tubing_TEMA ?n ?g) then _ else _) = _ -> _ =>
        let Hc := fresh "Hc" in
        destruct (check_tubing_TEMA n g) eqn:Hc; cbn [negb]; try discriminate
    | |- and_then _ _ = Returns _ -> _ =>
        let H := fresh "H" in
        let a := fresh "a" in
        let Ha := fresh "Ha" in
        intros H; apply and_then_returned in H; destruct H as (a & Ha & H);
        revert H
    | |- (if Builtins.gt ?x ?y then _ else _) = _ -> _ =>
        let Hg := fresh "Hg" in
        unfold Builtins.gt; destruct (Rgt_dec x y) as [Hg | Hg];
        try discriminate
    end.
  all: try (intros H; apply Returns_inj in H; subst T;
            cbn [tube_Do tube_NPS tube_Di tube_t];
            repeat split;
            try (field; lra); try lra; try ring;
            try (eapply check_tubing_TEMA_size; eassumption);
            try (eapply lookup_found; eassumption);
            try (intros; discriminate)).
  all: try (intros _ _ x Hx Hx0;
            first
              [ rewrite Hx in HT; apply not_truthy_Some in HT; contradiction
              | match goal with
                | Hl : Builtins.last_item _ = Returns ?thickest,
                  Hg : ~ _ > ?thickest,
                  Hf : match first_thick_enough _ _ None with _ => _ end
                       = Returns _
                  |- _ =>
                    injection Hx as <-;
                    destruct (first_thick_enough _ _ None) as [t' |] eqn:Ef in Hf;
                    [| discriminate Hf];
                    apply Returns_inj in Hf; subst t';
                    apply (first_thick_enough_found _ _ _ _ _ Hl) in Ef;
                    [exact (proj1 Ef) | lra]
                end ]).
  (* the branch that calls [self] *)
  intros H. apply Hself in H. destruct H as (H1 & H2 & H3 & H4).
  repeat split; assumption.
Qed.

(** X28.  Every tube [get_tube_TEMA] returns, whatever the gauge tables of
    [fluids.piping] hold, has an outer diameter of 25.4 mm times its
    nominal size, an inner diameter of the outer diameter less two walls,
    and a nominal size that is a key of [TEMA_tubing]; when it was asked
    for by a minimum wall thickness, with no gauge and no inner diameter,
    its wall is not thinner than that minimum. *)
Theorem get_tube_TEMA_fits :
  forall (NPS : option R) (BWG : option Z) (Do Di tmin : option R) (T : tube),
    get_tube_TEMA BWG_integers BWG_SI NPS BWG Do Di tmin = Returns T ->
    tube_Do T = 0.0254 * tube_NPS T /\
    tube_Di T = tube_Do T - 2 * tube_t T /\
    lookup (tube_NPS T) TEMA_tubing <> None /\
    (Builtins.truthy_int BWG = false -> Py.truthy Di = false ->
     forall x : R, tmin = Some x -> x <> 0 -> x <= tube_t T).
Proof.
  intros NPS BWG Do Di tmin T. unfold get_tube_TEMA.
  apply tube_of_body. intros a b c d e T'.
  apply tube_of_body. intros; discriminate.
Qed.

(** X29.  A tube asked for by its inner diameter and no gauge is never
    found: with a nominal size or an outer diameter besides, the gauge
    that is looked up is wrapped in a list before it is tested against the
    tuples of [TEMA_tubing], and a list is in none of them; without them
    the call ends in one of the two exceptions for unusable input. *)
Theorem get_tube_TEMA_by_inner_diameter :
  forall (NPS : option R) (BWG : option Z) (Do Di tmin : option R) (T : tube),
    Builtins.truthy_int BWG = false -> Py.truthy Di = true ->
    get_tube_TEMA BWG_integers BWG_SI NPS BWG Do Di tmin <> Returns T.
Proof.
  intros NPS BWG Do Di tmin T HB HI.
  unfold get_tube_TEMA, get_tube_TEMA_body. cbv zeta.
  rewrite HB, HI.
  destruct (Py.truthy NPS) eqn:HN, (Py.truthy Do) eqn:HD,
           (Py.truthy tmin) eqn:HT; cbn [andb];
    try discriminate;
    repeat match goal with
    | |- match ?v with Some _ => _ | None => _ end <> _ =>
        destruct v as [? |]; try discriminate
    end;
    match goal with
    | |- and_then ?m _ <> _ => destruct m; cbn [and_then]; try discriminate
    end;
    rewrite list_never_listed; discriminate.
Qed.

End TubeProperties.

Lemma get_tube_TEMA_fits_witness :
  exists T : tube,
    get_tube_TEMA (18 :: 20 :: 22 :: nil)%Z (0.001245 :: 0.000889 :: 0.000711 :: nil)
      (Some 0.375) None None None (Some 0.0008) = Returns T /\
    tube_Do T = 0.0254 * tube_NPS T /\
    tube_Di T = tube_Do T - 2 * tube_t T /\
    0.0008 <= tube_t T.
Proof.
  assert (H : exists T : tube,
             get_tube_TEMA (18 :: 20 :: 22 :: nil)%Z
               (0.001245 :: 0.000889 :: 0.000711 :: nil)
               (Some 0.375) None None None (Some 0.0008) = Returns T).
  { unfold get_tube_TEMA, get_tube_TEMA_body. cbv zeta.
    rewrite !truthy_Some by lra.
    cbn [Py.truthy Builtins.truthy_int andb].
    unfold TEMA_tubing. cbn [lookup]. compare_floats. cbn [and_then].
    unfold thickness_of_gauge.
    cbn [Builtins.comprehension Builtins.index_int Z.eqb Pos.eqb and_then
         Builtins.item nth_error rev app Builtins.last_item].
    compare_floats. cbn [first_thick_enough]. compare_floats.
    cbn [and_then].
    unfold gauge_of_thickness. cbn [Builtins.index]. compare_floats.
    cbn [and_then Builtins.item nth_error].
    eexists. reflexivity. }
  destruct H as [T HT]. exists T. split; [exact HT |].
  destruct (get_tube_TEMA_fits _ _ _ _ _ _ _ _ HT) as (H1 & H2 & _ & H4).
  split; [exact H1 |]. split; [exact H2 |].
  apply H4; [reflexivity | reflexivity | reflexivity | lra].
Defined.

Lemma get_tube_TEMA_by_inner_diameter_witness :
  get_tube_TEMA (18 :: 20 :: 22 :: nil)%Z (0.001245 :: 0.000889 :: 0.000711 :: nil)
    (Some 0.375) None None (Some 0.008103) None
  <> Returns (Tube 0.375 (Gauges (22%Z :: nil)) 0.009525 0.008103 0.000711).
Proof.
  apply get_tube_TEMA_by_inner_diameter.
  - reflexivity.
  - apply truthy_Some. lra.
Defined.

Ltac read_tubing :=
  unfold check_tubing_TEMA, TEMA_tubing; cbn [lookup]; compare_floats;
  cbn [listed existsb Z.eqb Pos.eqb orb].

(** X30.  The dictionary [TEMA_tubing] and the table of lines 1374-1378
    hold the same tubes: [check_tubing_TEMA] accepts a size and a gauge
    exactly when they stand in one row of the table, and in every row the
    outer diameter is 25.4 mm times the size and the inner diameter is the
    outer diameter less two walls. *)
Theorem tubing_table_consistent :
  (forall (NPS : R) (BWG : Z),
      check_tubing_TEMA NPS (Gauge BWG) = true
      <-> In (NPS, BWG) (combine _NPSs _BWGs)) /\
  (forall (i : nat) (NPS Do t Di : R),
      nth_error _NPSs i = Some NPS -> nth_error _Dos i = Some Do ->
      nth_error _ts i = Some t -> nth_error _Dis i = Some Di ->
      Do = 0.0254 * NPS /\ Di = Do - 2 * t).
Proof.
  split.
  - intros NPS BWG. split.
    + unfold check_tubing_TEMA, TEMA_tubing. cbn [lookup]. 
      compare_floats; try discriminate; subst NPS;
        cbn [listed existsb]; intros H;
        repeat (apply orb_true_iff in H; destruct H as [H | H]);
        try discriminate H;
        apply Z.eqb_eq in H; subst BWG;
        unfold _NPSs, _BWGs; cbn [combine In]; auto 40.
    + unfold _NPSs, _BWGs. cbn [combine In]. intros H.
      repeat (destruct H as [H | H];
              [injection H as <- <-; read_tubing; reflexivity |]).
      contradiction.
  - intros i NPS Do t Di. unfold _NPSs, _Dos, _ts, _Dis. cbn [map].
    do 29 (destruct i as [| i];
           [cbn [nth_error]; intros H1 H2 H3 H4;
            injection H1 as <-; injection H2 as <-;
            injection H3 as <-; injection H4 as <-; split; lra |]).
    cbn [nth_error]. destruct i; discriminate.
Qed.

Lemma tubing_table_consistent_witness :
  check_tubing_TEMA 0.375 (Gauge 22) = true /\
  check_tubing_TEMA 2 (Gauge 22) <> true.
Proof.
  split.
  - apply (proj2 (proj1 tubing_table_consistent 0.375 22%Z)).
    unfold _NPSs, _BWGs. cbn [combine In]. auto 10.
  - intros H. apply (proj1 (proj1 tubing_table_consistent 2 22%Z)) in H.
    unfold _NPSs, _BWGs in H. cbn [combine In] in H.
    repeat (destruct H as [H | H];
            [injection H; intros; first [lra | lia] |]).
    exact H.
Defined.
